(** * Adafruit_SSD1315: framebuffer, dirty window, rotation and command encoding

    A shallow embedding of [lib/Adafruit_SSD1315.js].  JavaScript numbers that
    hold integers are modelled as [Z]; the bit operators of the source
    ([&], [|], [^], [~], [<<], [>>>]) are the corresponding operations of [Z],
    with the 32-bit coercion written out where it can be observed (the
    XOR swap of the rotation code) and the rounding of a double where it
    can (the differences of the rotation code).  The [Uint8Array]
    framebuffer is a [list byte]; a store converts with [byte.of_Z]
    (modulo 256) and a store outside the array is dropped, as for a typed
    array. *)

From Stdlib Require Import ZArith List Lia Bool String.
From coqutil Require Import Byte Z.bitblast.
From stdpp Require Import base list.

Local Open Scope Z_scope.

(** ** Constants of the source *)

Definition SSD1315_MEMORY_MODE : Z := 0x20.
Definition SSD1315_COLUMN_ADDR : Z := 0x21.
Definition SSD1315_PAGE_ADDR : Z := 0x22.
Definition SSD1315_RIGHT_HORIZONTAL_SCROLL : Z := 0x26.
Definition SSD1315_LEFT_HORIZONTAL_SCROLL : Z := 0x27.
Definition SSD1315_VERTICAL_AND_RIGHT_HORIZONTAL_SCROLL : Z := 0x29.
Definition SSD1315_VERTICAL_AND_LEFT_HORIZONTAL_SCROLL : Z := 0x2A.
Definition SSD1315_DEACTIVATE_SCROLL : Z := 0x2E.
Definition SSD1315_ACTIVATE_SCROLL : Z := 0x2F.
Definition SSD1315_SET_DISPLAY_START_LINE_BASE : Z := 0x40.
Definition SSD1315_SET_CONTRAST : Z := 0x81.
Definition SSD1315_CHARGE_PUMP : Z := 0x8D.
Definition SSD1315_SET_VERTICAL_SCROLL_AREA : Z := 0xA3.
Definition SSD1315_DISPLAY_ALL_ON_RESUME : Z := 0xA4.
Definition SSD1315_NORMAL_DISPLAY : Z := 0xA6.
Definition SSD1315_SET_MULTIPLEX : Z := 0xA8.
Definition SSD1315_DISPLAY_OFF : Z := 0xAE.
Definition SSD1315_DISPLAY_ON : Z := 0xAF.
Definition SSD1315_SEG_REMAP_FLIP : Z := 0xA1.
Definition SSD1315_COM_SCAN_DEC : Z := 0xC8.
Definition SSD1315_SET_DISPLAY_OFFSET : Z := 0xD3.
Definition SSD1315_SET_DISPLAY_CLOCK_DIV : Z := 0xD5.
Definition SSD1315_SET_PRECHARGE : Z := 0xD9.
Definition SSD1315_SET_COM_PINS : Z := 0xDA.
Definition SSD1315_SET_VCOM_DETECT : Z := 0xDB.

Definition SSD1315_EXTERNALVCC : Z := 0x01.
Definition SSD1315_SWITCHCAPVCC : Z := 0x02.

Definition SSD1315_INIT_SEQ_1 : list Z :=
  [SSD1315_DISPLAY_OFF; SSD1315_SET_DISPLAY_CLOCK_DIV; 0x80].

Definition SSD1315_INIT_SEQ_2 : list Z :=
  [SSD1315_MEMORY_MODE; 0x00; SSD1315_SEG_REMAP_FLIP; SSD1315_COM_SCAN_DEC;
   SSD1315_SET_VCOM_DETECT; 0x20].

Definition SSD1315_INIT_SEQ_3 : list Z :=
  [SSD1315_DISPLAY_ALL_ON_RESUME; SSD1315_NORMAL_DISPLAY;
   SSD1315_DEACTIVATE_SCROLL].

Definition SSD1315_BLACK : Z := 0.
Definition SSD1315_WHITE : Z := 1.
Definition SSD1315_INVERSE : Z := 2.

Definition SSD1315_VLINE_PRE_MASK : list Z :=
  [0x00; 0x80; 0xC0; 0xE0; 0xF0; 0xF8; 0xFC; 0xFE].
Definition SSD1315_VLINE_POST_MASK : list Z :=
  [0x00; 0x01; 0x03; 0x07; 0x0F; 0x1F; 0x3F; 0x7F].

(** ** The display object *)

(** What the transport receives: [oled_commandList], [oled_command] and
    [oled_data] of the base class hand their argument to the bus. *)
Inductive BusEvent : Type :=
| CommandList (bytes : list Z)
| Command (b : Z)
| Data (bytes : list byte).

(** The fields of the object that the driver reads or writes.  [accessed]
    is not a field of the source: it records, most recent first, every
    index used in a [buffer[index]] expression of the two line primitives. *)
Record Display : Type := mkDisplay {
  WIDTH : Z;
  HEIGHT : Z;
  rotation : Z;
  _vccSelection : Z;
  _noSplash : bool;
  _contrast : Z;
  display_offset : Z;
  start_line : Z;
  page_offset : Z;
  column_offset : Z;
  _buffer : list byte;
  window_x1 : Z;
  window_y1 : Z;
  window_x2 : Z;
  window_y2 : Z;
  accessed : list Z
}.

Definition set_window (st : Display) (x1 y1 x2 y2 : Z) : Display :=
  mkDisplay (WIDTH st) (HEIGHT st) (rotation st) (_vccSelection st)
    (_noSplash st) (_contrast st) (display_offset st) (start_line st)
    (page_offset st) (column_offset st) (_buffer st) x1 y1 x2 y2
    (accessed st).

Definition set_contrast (st : Display) (c : Z) : Display :=
  mkDisplay (WIDTH st) (HEIGHT st) (rotation st) (_vccSelection st)
    (_noSplash st) c (display_offset st) (start_line st)
    (page_offset st) (column_offset st) (_buffer st)
    (window_x1 st) (window_y1 st) (window_x2 st) (window_y2 st)
    (accessed st).

(** [buffer[index] = f(buffer[index])] on a [Uint8Array]: a store outside
    the array has no effect. *)
Definition u8_update (index : Z) (f : byte -> byte) (buffer : list byte) : list byte :=
  if 0 <=? index then alter f (Z.to_nat index) buffer else buffer.

(** The same on the display object, with the index recorded. *)
Definition buffer_update (index : Z) (f : byte -> byte) (st : Display) : Display :=
  mkDisplay (WIDTH st) (HEIGHT st) (rotation st) (_vccSelection st)
    (_noSplash st) (_contrast st) (display_offset st) (start_line st)
    (page_offset st) (column_offset st)
    (u8_update index f (_buffer st))
    (window_x1 st) (window_y1 st) (window_x2 st) (window_y2 st)
    (index :: accessed st).

(** [new Uint8Array(WIDTH * toInt((HEIGHT + 7) / 8))] *)
Definition buffer_size (W H : Z) : Z := W * Z.quot (H + 7) 8.

(** The constructor, for the options the driver itself reads.  The window
    fields are set by the base class; they are arguments here. *)
Definition new_display (W H rot vcc : Z) (noSplash : bool)
    (x1 y1 x2 y2 : Z) : Display :=
  mkDisplay W H rot vcc noSplash 0x8F 0 0 0 0
    (replicate (Z.to_nat (buffer_size W H)) Byte.x00)
    x1 y1 x2 y2 [].

(** ** Byte operations of the line primitives *)

(** [b |= value] *)
Definition or_byte (value : Z) (b : byte) : byte :=
  byte.of_Z (Z.lor (byte.unsigned b) value).
(** [b &= ~value] *)
Definition andnot_byte (value : Z) (b : byte) : byte :=
  byte.of_Z (Z.land (byte.unsigned b) (Z.lnot value)).
(** [b ^= value] *)
Definition xor_byte (value : Z) (b : byte) : byte :=
  byte.of_Z (Z.lxor (byte.unsigned b) value).
(** [b = val] *)
Definition set_byte (val : Z) (_ : byte) : byte := byte.of_Z val.

(** ** _drawFastHLineInternal *)

(** [while (w--) buffer[index++] = f(buffer[index]);] for a positive [w]. *)
Fixpoint hline_loop (w : nat) (index : Z) (f : byte -> byte) (st : Display) : Display :=
  match w with
  | O => st
  | S w' => hline_loop w' (index + 1) f (buffer_update index f st)
  end.

Definition _drawFastHLineInternal (st : Display) (x y w color : Z) : Display :=
  let WIDTH_ := WIDTH st in
  let HEIGHT_ := HEIGHT st in
  if (0 <=? y) && (y <? HEIGHT_) then
    let '(x, w) := if x <? 0 then (0, w + x) else (x, w) in
    let w := if (x + w) >? WIDTH_ then WIDTH_ - x else w in
    if w >? 0 then
      let st := set_window st
                  (Z.min (window_x1 st) x) (Z.min (window_y1 st) y)
                  (Z.max (window_x2 st) (x + w - 1)) (Z.max (window_y2 st) y) in
      let index := x + Z.quot y 8 * WIDTH_ in
      let value := Z.shiftl 1 (Z.land y 7) in
      if color =? SSD1315_WHITE then
        hline_loop (Z.to_nat w) index (or_byte value) st
      else if color =? SSD1315_BLACK then
        hline_loop (Z.to_nat w) index (andnot_byte value) st
      else if color =? SSD1315_INVERSE then
        hline_loop (Z.to_nat w) index (xor_byte value) st
      else st
    else st
  else st.

(** ** _drawFastVLineInternal *)

(** The three-way [switch (color)] around a masked update of one byte. *)
Definition masked_update (color index mask : Z) (st : Display) : Display :=
  if color =? SSD1315_WHITE then buffer_update index (or_byte mask) st
  else if color =? SSD1315_BLACK then buffer_update index (andnot_byte mask) st
  else if color =? SSD1315_INVERSE then buffer_update index (xor_byte mask) st
  else st.

(** [do { buffer[index] = f(buffer[index]); index += WIDTH; hTemp -= 8; }
     while (hTemp >= 8);]  The recursion is on [fuel]; [Z.to_nat hTemp]
    is enough for the loop to leave through its test. *)
Fixpoint fill_loop (fuel : nat) (W : Z) (f : byte -> byte)
    (index hTemp : Z) (st : Display) : Z * Z * Display :=
  match fuel with
  | O => (index, hTemp, st)
  | S fuel' =>
      let st := buffer_update index f st in
      let index := index + W in
      let hTemp := hTemp - 8 in
      if hTemp >=? 8 then fill_loop fuel' W f index hTemp st
      else (index, hTemp, st)
  end.

Definition _drawFastVLineInternal (st : Display) (x y h color : Z) : Display :=
  let WIDTH_ := WIDTH st in
  let HEIGHT_ := HEIGHT st in
  if (0 <=? x) && (x <? WIDTH_) then
    let '(y, h) := if y <? 0 then (0, h + y) else (y, h) in
    let h := if (y + h) >? HEIGHT_ then HEIGHT_ - y else h in
    if h >? 0 then
      let st := set_window st
                  (Z.min (window_x1 st) x) (Z.min (window_y1 st) y)
                  (Z.max (window_x2 st) x) (Z.max (window_y2 st) (y + h - 1)) in
      let yTemp := y in
      let hTemp := h in
      let index := x + Z.quot yTemp 8 * WIDTH_ in
      let mod_ := Z.land yTemp 7 in
      (* the first partial byte *)
      let '(mod_, index, st) :=
        if negb (mod_ =? 0) then
          let mod_ := 8 - mod_ in
          let mask := nth (Z.to_nat mod_) SSD1315_VLINE_PRE_MASK 0 in
          let mask := if hTemp <? mod_
                      then Z.land mask (Z.shiftr 0xFF (mod_ - hTemp))
                      else mask in
          (mod_, index + WIDTH_, masked_update color index mask st)
        else (mod_, index, st) in
      if hTemp >=? mod_ then
        let hTemp := hTemp - mod_ in
        (* solid bytes, 8 rows at a time *)
        let '(index, hTemp, st) :=
          if hTemp >=? 8 then
            if color =? SSD1315_INVERSE then
              fill_loop (Z.to_nat hTemp) WIDTH_ (xor_byte 0xFF) index hTemp st
            else
              let val := if negb (color =? SSD1315_BLACK) then 0xFF else 0x00 in
              fill_loop (Z.to_nat hTemp) WIDTH_ (set_byte val) index hTemp st
          else (index, hTemp, st) in
        (* the final partial byte *)
        if negb (hTemp =? 0) then
          let mod_ := Z.land hTemp 7 in
          let mask := nth (Z.to_nat mod_) SSD1315_VLINE_POST_MASK 0 in
          masked_update color index mask st
        else st
      else st
    else st
  else st.

(** ** drawFastHLine / drawFastVLine: the rotation mapper *)

(** ToInt32 of an integer-valued number. *)
Definition toInt32 (z : Z) : Z := (z + 2 ^ 31) mod 2 ^ 32 - 2 ^ 31.

(** [a ^ b] of JavaScript: both operands are coerced to 32 bits. *)
Definition js_xor (a b : Z) : Z := Z.lxor (toInt32 a) (toInt32 b).

(** [(((x) ^= (y)), ((y) ^= (x)), ((x) ^= (y)))] *)
Definition xor_swap (x y : Z) : Z * Z :=
  let x := js_xor x y in
  let y := js_xor y x in
  let x := js_xor x y in
  (x, y).

(** The coordinates and the length are numbers, that is doubles.  For
    the integer values the driver is called with, a difference is the exact
    difference rounded to the nearest double, ties to the even significand:
    exact below [2^53] and a multiple of the unit in the last place above.
    (Values of magnitude [2^1024] and more, which a double does not hold,
    are outside the model.) *)
Definition round_double (z : Z) : Z :=
  let a := Z.abs z in
  if a <? 2 ^ 53 then z
  else
    let ulp := 2 ^ (Z.log2 a - 52) in
    let q := a / ulp in
    let r := a mod ulp in
    let q := if 2 * r <? ulp then q
             else if ulp <? 2 * r then q + 1
             else if Z.even q then q else q + 1 in
    Z.sgn z * (q * ulp).

(** [a - b] of JavaScript on integer-valued numbers. *)
Definition js_sub (a b : Z) : Z := round_double (a - b).

Definition drawFastHLine (st : Display) (x y w color : Z) : Display :=
  let rot := rotation st in
  if rot =? 1 then
    let '(x, y) := xor_swap x y in
    let x := js_sub (js_sub (WIDTH st) x) 1 in
    _drawFastVLineInternal st x y w color
  else if rot =? 2 then
    let x := js_sub (js_sub (WIDTH st) x) 1 in
    let y := js_sub (js_sub (HEIGHT st) y) 1 in
    let x := js_sub x (js_sub w 1) in
    _drawFastHLineInternal st x y w color
  else if rot =? 3 then
    let '(x, y) := xor_swap x y in
    let y := js_sub (js_sub (HEIGHT st) y) 1 in
    let y := js_sub y (js_sub w 1) in
    _drawFastVLineInternal st x y w color
  else _drawFastHLineInternal st x y w color.

Definition drawFastVLine (st : Display) (x y h color : Z) : Display :=
  let rot := rotation st in
  if rot =? 1 then
    let '(x, y) := xor_swap x y in
    let x := js_sub (js_sub (WIDTH st) x) 1 in
    let x := js_sub x (js_sub h 1) in
    _drawFastHLineInternal st x y h color
  else if rot =? 2 then
    let x := js_sub (js_sub (WIDTH st) x) 1 in
    let y := js_sub (js_sub (HEIGHT st) y) 1 in
    let y := js_sub y (js_sub h 1) in
    _drawFastVLineInternal st x y h color
  else if rot =? 3 then
    let '(x, y) := xor_swap x y in
    let y := js_sub (js_sub (HEIGHT st) y) 1 in
    _drawFastHLineInternal st x y h color
  else _drawFastVLineInternal st x y h color.

(** The operands for which every difference the rotation mapper takes is
    exact: magnitudes up to [2^51]. *)
Definition safe_operand (z : Z) : Prop := Z.abs z <= 2 ^ 51.

(** ** _startScrollInternal and the scroll family *)

Definition _startScrollInternal (st : Display) (dir : string)
    (startPage stopPage : Z) : list BusEvent :=
  let WIDTH_ := Z.land (WIDTH st) 0xFF in
  let HEIGHT_ := Z.land (HEIGHT st) 0xFF in
  let frames := 0x07 in
  let verticalIncrement := 0x01 in
  let horizontalIncrement := 0x01 in
  let verticalIncrement := Z.min verticalIncrement HEIGHT_ in
  let first := CommandList [SSD1315_DEACTIVATE_SCROLL;
                            SSD1315_SET_VERTICAL_SCROLL_AREA; 0x00; HEIGHT_] in
  let scrollCommand := SSD1315_VERTICAL_AND_LEFT_HORIZONTAL_SCROLL in
  let '(horizontalIncrement, verticalIncrement, scrollCommand) :=
    if String.eqb dir "left" then
      (horizontalIncrement, 0x00, SSD1315_VERTICAL_AND_LEFT_HORIZONTAL_SCROLL)
    else if String.eqb dir "right" then
      (horizontalIncrement, 0x00, SSD1315_VERTICAL_AND_RIGHT_HORIZONTAL_SCROLL)
    else if String.eqb dir "left diagonal" then
      (horizontalIncrement, verticalIncrement,
       SSD1315_VERTICAL_AND_LEFT_HORIZONTAL_SCROLL)
    else if String.eqb dir "right diagonal" then
      (horizontalIncrement, verticalIncrement,
       SSD1315_VERTICAL_AND_RIGHT_HORIZONTAL_SCROLL)
    else if String.eqb dir "up" then
      (0x00, verticalIncrement, SSD1315_VERTICAL_AND_LEFT_HORIZONTAL_SCROLL)
    else (horizontalIncrement, verticalIncrement, scrollCommand) in
  let commandList :=
    [scrollCommand;
     horizontalIncrement;
     Z.land startPage 0x07;
     Z.land frames 0x07;
     Z.land stopPage 0x07;
     Z.land verticalIncrement 0x7F;
     0x00;
     Z.land (WIDTH_ - 1) 0xFF;
     SSD1315_ACTIVATE_SCROLL] in
  [first; CommandList commandList].

Definition startscrollright (st : Display) (start stop : Z) : list BusEvent :=
  _startScrollInternal st "right" start stop.
Definition startscrollleft (st : Display) (start stop : Z) : list BusEvent :=
  _startScrollInternal st "left" start stop.
Definition startscrolldiagright (st : Display) (start stop : Z) : list BusEvent :=
  _startScrollInternal st "right diagonal" start stop.
Definition startscrolldiagleft (st : Display) (start stop : Z) : list BusEvent :=
  _startScrollInternal st "left diagonal" start stop.
Definition startscrollup (st : Display) (start stop : Z) : list BusEvent :=
  _startScrollInternal st "up" start stop.

(** ** What the driver inherits from Adafruit_GrayOLED

    The base class lives in the graphics library, outside this repository.
    The members the driver calls are gathered here: the display-state
    operations that [begin] strings together.  The two window operations
    follow, as the specification describes them. *)

Record Window : Type := mkWindow { wx1 : Z; wy1 : Z; wx2 : Z; wy2 : Z }.

Record Splash : Type := mkSplash {
  splash_width : Z;
  splash_height : Z;
  splash_data : option (list Z)
}.

Class Adafruit_GrayOLED : Type := {
  setRotation : Z -> Display -> Display;
  clearDisplay : Display -> Display;
  draw1BitBitmap : Z -> Z -> list Z -> Z -> Z -> Z -> Display -> Display;
  splash1 : Splash;
  splash2 : Splash
}.

Definition window_of (st : Display) : Window :=
  mkWindow (window_x1 st) (window_y1 st) (window_x2 st) (window_y2 st).

(** Modelled from the spec: [_resetDirtyWindow] of the base class is not in
    the repository.  Spec, data model: the dirty window is "reset to an
    empty/maximal-inverted state after each flush"; spec, tracker: "an
    empty/sentinel state (e.g., [x1>x2] or using max/min sentinels)".  The
    maximal-inverted state has each minimum at the size of the display and
    each maximum at [-1]: it is empty, and the first draw replaces it by its
    own rectangle. *)
Definition _resetDirtyWindow `{Adafruit_GrayOLED} (st : Display) : Display :=
  set_window st (WIDTH st) (HEIGHT st) (-1) (-1).

(** Modelled from the spec: [_setMaxDirtyWindow] of the base class is not in
    the repository.  Spec, data model: 'A "mark all dirty" operation sets it
    to the full buffer extent.' *)
Definition _setMaxDirtyWindow (st : Display) : Display :=
  set_window st 0 0 (WIDTH st - 1) (HEIGHT st - 1).

(** ** display *)

(** [Uint8Array.prototype.subarray(begin, end)]: a negative bound counts from
    the end, and both bounds are clamped to the array. *)
Definition clamp_index (len i : Z) : Z :=
  if i <? 0 then Z.max (len + i) 0 else Z.min i len.

Definition subarray (buffer : list byte) (begin_ end_ : Z) : list byte :=
  let len := Z.of_nat (length buffer) in
  let b := clamp_index len begin_ in
  let e := clamp_index len end_ in
  take (Z.to_nat (e - b)) (drop (Z.to_nat b) buffer).

(** [for (page = pageStart; page < pageEnd; page++, index += w)], with
    [pages] the number of iterations left. *)
Fixpoint display_loop (pages : nat) (buffer : list byte) (w colStart to_write : Z)
    (page index : Z) : list BusEvent :=
  match pages with
  | O => []
  | S pages' =>
      CommandList [SSD1315_PAGE_ADDR; page; page + 1;
                   SSD1315_COLUMN_ADDR; colStart; colStart + to_write - 1]
      :: Data (subarray buffer index (index + to_write))
      :: display_loop pages' buffer w colStart to_write (page + 1) (index + w)
  end.

Definition display `{Adafruit_GrayOLED} (st : Display) : list BusEvent * Display :=
  let w := WIDTH st in
  let buffer := _buffer st in
  let colStart := window_x1 st in
  let to_write := (window_x2 st - window_x1 st) + 1 in
  let pageStart := Z.quot (window_y1 st) 8 in
  let pageEnd := Z.quot (window_y2 st) 8 + 1 in
  let index := colStart + pageStart * w in
  let out :=
    if to_write >? 0 then
      display_loop (Z.to_nat (pageEnd - pageStart)) buffer w colStart to_write
        pageStart index
    else [] in
  (out, _resetDirtyWindow st).

(** ** begin *)

Definition begin `{Adafruit_GrayOLED} (st : Display) : list BusEvent * Display :=
  let w := WIDTH st in
  let h := HEIGHT st in
  let rotation_ := rotation st in
  let vccSelection := _vccSelection st in
  let out1 :=
    [CommandList SSD1315_INIT_SEQ_1;
     CommandList [SSD1315_SET_MULTIPLEX; Z.land (HEIGHT st - 1) 0xFF];
     CommandList SSD1315_INIT_SEQ_2] in
  let displayOffset := display_offset st in
  let startLine := start_line st in
  let '(comPins, contrast) :=
    if (WIDTH st =? 128) && (HEIGHT st =? 32) then (0x02, 0x8F)
    else if (WIDTH st =? 128) && (HEIGHT st =? 64) then
      (0x12, if SSD1315_EXTERNALVCC =? vccSelection then 0x9F else 0xCF)
    else if (WIDTH st =? 96) && (HEIGHT st =? 16) then
      (0x02, if SSD1315_EXTERNALVCC =? vccSelection then 0x10 else 0xAF)
    else (0x02, 0x8F) in
  let st := set_contrast st contrast in
  let out2 :=
    [CommandList
       [SSD1315_CHARGE_PUMP;
        if SSD1315_EXTERNALVCC =? vccSelection then 0x10 else 0x14;
        SSD1315_SET_DISPLAY_OFFSET; Z.land displayOffset 0x3F;
        Z.land (Z.lor SSD1315_SET_DISPLAY_START_LINE_BASE
                      (Z.land startLine 0x3F)) 0xFF;
        SSD1315_SET_COM_PINS; Z.land comPins 0xFF;
        SSD1315_SET_CONTRAST; Z.land contrast 0xFF;
        SSD1315_SET_PRECHARGE;
        if SSD1315_EXTERNALVCC =? vccSelection then 0x22 else 0xF1];
     CommandList SSD1315_INIT_SEQ_3] in
  let st := setRotation rotation_ st in
  let st := _setMaxDirtyWindow st in
  let st :=
    if _noSplash st then clearDisplay st
    else
      let splash := if h >? 32 then splash1 else splash2 in
      match splash_data splash with
      | Some data =>
          if negb (splash_width splash =? 0) && negb (splash_height splash =? 0)
          then draw1BitBitmap (Z.quot (w - splash_width splash) 2)
                              (Z.quot (h - splash_height splash) 2)
                              data (splash_width splash) (splash_height splash)
                              SSD1315_WHITE st
          else st
      | None => st
      end in
  let '(out3, st) := display st in
  (out1 ++ out2 ++ out3 ++ [Command SSD1315_DISPLAY_ON], st).

Definition stopscroll (st : Display) : list BusEvent * Display :=
  ([Command SSD1315_DEACTIVATE_SCROLL], _setMaxDirtyWindow st).

(** ** Reading the framebuffer *)

(** Spec, data model: "Byte at [index = x + floor(y/8)*width] holds bits for
    8 stacked pixels in column [x]; bit [y & 7] is the pixel at row [y]." *)
Definition byte_index (W x page : Z) : Z := x + page * W.

Definition getPixel (st : Display) (x y : Z) : bool :=
  match _buffer st !! Z.to_nat (byte_index (WIDTH st) x (y / 8)) with
  | Some b => Z.testbit (byte.unsigned b) (y mod 8)
  | None => false
  end.

(** What a colour does to one pixel: set, clear, toggle; any other value of
    [color] matches no [case] of the source and leaves the pixel alone. *)
Definition pixel_color (color : Z) (v : bool) : bool :=
  if color =? SSD1315_WHITE then true
  else if color =? SSD1315_BLACK then false
  else if color =? SSD1315_INVERSE then negb v
  else v.

Definition valid_color (color : Z) : Prop :=
  color = SSD1315_BLACK \/ color = SSD1315_WHITE \/ color = SSD1315_INVERSE.

(** The buffer has the size the constructor gives it. *)
Definition buffer_ok (st : Display) : Prop :=
  Z.of_nat (length (_buffer st)) = buffer_size (WIDTH st) (HEIGHT st).

(** ** The naive reference for a vertical run

    Follows the wording of the specification, not the source: the bit
    operation of the colour is applied to each pixel [(x, r)] of the run that
    lies inside the display, one pixel at a time. *)
Definition naive_pixel (W color x r : Z) (buffer : list byte) : list byte :=
  let index := byte_index W x (r / 8) in
  let bit := Z.shiftl 1 (r mod 8) in
  if color =? SSD1315_WHITE then u8_update index (or_byte bit) buffer
  else if color =? SSD1315_BLACK then u8_update index (andnot_byte bit) buffer
  else if color =? SSD1315_INVERSE then u8_update index (xor_byte bit) buffer
  else buffer.

Definition naive_vline (W H : Z) (buffer : list byte) (x y h color : Z) : list byte :=
  if (0 <=? x) && (x <? W) then
    let lo := Z.max y 0 in
    let hi := Z.min (y + h) H in
    foldl (fun buf r => naive_pixel W color x r buf) buffer (seqZ lo (hi - lo))
  else buffer.

(** ** Rectangles and the dirty window *)

(** Spec, dirty-window tracker: "[expand(x1,y1,x2,y2)] grows the tracked
    rectangle to the union with the given rectangle (min of mins, max of
    maxes)." *)
Definition expand (win r : Window) : Window :=
  mkWindow (Z.min (wx1 win) (wx1 r)) (Z.min (wy1 win) (wy1 r))
           (Z.max (wx2 win) (wx2 r)) (Z.max (wy2 win) (wy2 r)).

(** The two primitives as data, so that a sequence of draws is a list. *)
Inductive Draw : Type :=
| HRun (x y w color : Z)
| VRun (x y h color : Z).

Definition run_draw (st : Display) (d : Draw) : Display :=
  match d with
  | HRun x y w color => _drawFastHLineInternal st x y w color
  | VRun x y h color => _drawFastVLineInternal st x y h color
  end.

(** The part of a run that lies in [[0,W) x [0,H)], as an inclusive
    rectangle; [None] when no pixel of the run is inside. *)
Definition touched_rect (W H : Z) (d : Draw) : option Window :=
  match d with
  | HRun x y w _ =>
      let lo := Z.max x 0 in
      let hi := Z.min (x + w) W in
      if (0 <=? y) && (y <? H) && (lo <? hi)
      then Some (mkWindow lo y (hi - 1) y) else None
  | VRun x y h _ =>
      let lo := Z.max y 0 in
      let hi := Z.min (y + h) H in
      if (0 <=? x) && (x <? W) && (lo <? hi)
      then Some (mkWindow x lo x (hi - 1)) else None
  end.

(** The bounding box of a non-empty list of rectangles. *)
Definition bounding_box (r : Window) (rs : list Window) : Window :=
  foldl expand r rs.

(** A reset value that every rectangle of a [W] by [H] display absorbs. *)
Definition inverted_for (W H : Z) (win : Window) : Prop :=
  W - 1 <= wx1 win /\ H - 1 <= wy1 win /\ wx2 win <= 0 /\ wy2 win <= 0.

(** ** Reading the bus output *)

Definition command_bytes (e : option BusEvent) : list Z :=
  match e with
  | Some (CommandList l) => l
  | _ => []
  end.

(** The second command list of a scroll call carries the parameters. *)
Definition scroll_horizontal_increment (out : list BusEvent) : option Z :=
  command_bytes (out !! 1%nat) !! 1%nat.
Definition scroll_vertical_increment (out : list BusEvent) : option Z :=
  command_bytes (out !! 1%nat) !! 5%nat.

(** The fourth command list of [begin] carries charge pump and contrast. *)
Definition begin_charge_pump (out : list BusEvent) : option Z :=
  command_bytes (out !! 3%nat) !! 1%nat.
Definition begin_contrast (out : list BusEvent) : option Z :=
  command_bytes (out !! 3%nat) !! 8%nat.

(** The bytes of one page between two columns, both inclusive. *)
Definition page_columns (buffer : list byte) (W page x1 x2 : Z) : list byte :=
  (fun c => nth (Z.to_nat (byte_index W c page)) buffer Byte.x00)
    <$> seqZ x1 (x2 - x1 + 1).

(** What a flush sends for one page under the source's encoding. *)
Definition page_transfer (buffer : list byte) (W x1 x2 page : Z) : list BusEvent :=
  [CommandList [SSD1315_PAGE_ADDR; page; page + 1;
                SSD1315_COLUMN_ADDR; x1; x2];
   Data (page_columns buffer W page x1 x2)].

(** ** The line primitives as lists of byte updates

    A primitive that survives clipping performs a sequence of
    [buffer[index] = f(buffer[index])] steps.  The definitions below name
    these sequences; [apply_ops] replays one on the display object. *)

Definition apply_ops (ops : list (Z * (byte -> byte))) (st : Display) : Display :=
  foldl (fun s op => buffer_update (fst op) (snd op) s) st ops.

Definition u8_ops (ops : list (Z * (byte -> byte))) (buffer : list byte) : list byte :=
  foldl (fun b op => u8_update (fst op) (snd op) b) buffer ops.

(** [n] updates with the same function, [stride] apart. *)
Fixpoint stride_ops (n : nat) (index stride : Z) (f : byte -> byte)
    : list (Z * (byte -> byte)) :=
  match n with
  | O => []
  | S n' => (index, f) :: stride_ops n' (index + stride) stride f
  end.

(** The update a [switch (color)] performs on one byte, if any. *)
Definition color_ops (color index mask : Z) : list (Z * (byte -> byte)) :=
  if color =? SSD1315_WHITE then [(index, or_byte mask)]
  else if color =? SSD1315_BLACK then [(index, andnot_byte mask)]
  else if color =? SSD1315_INVERSE then [(index, xor_byte mask)]
  else [].

(** The whole-byte step of the vertical run. *)
Definition solid_op (color : Z) : byte -> byte :=
  if color =? SSD1315_INVERSE then xor_byte 0xFF
  else set_byte (if negb (color =? SSD1315_BLACK) then 0xFF else 0x00).

(** The clipping both primitives apply along their run axis. *)
Definition clip (start len limit : Z) : Z * Z :=
  let '(s, l) := if start <? 0 then (0, len + start) else (start, len) in
  (s, if (s + l) >? limit then limit - s else l).

(** The updates of a clipped horizontal run. *)
Definition hline_ops (W x y w color : Z) : list (Z * (byte -> byte)) :=
  let index := x + Z.quot y 8 * W in
  let value := Z.shiftl 1 (Z.land y 7) in
  if color =? SSD1315_WHITE then stride_ops (Z.to_nat w) index 1 (or_byte value)
  else if color =? SSD1315_BLACK then stride_ops (Z.to_nat w) index 1 (andnot_byte value)
  else if color =? SSD1315_INVERSE then stride_ops (Z.to_nat w) index 1 (xor_byte value)
  else [].

(** The updates of a clipped vertical run: leading partial byte, solid
    bytes, trailing partial byte. *)
Definition vline_ops (W x y h color : Z) : list (Z * (byte -> byte)) :=
  let index := x + Z.quot y 8 * W in
  let r := Z.land y 7 in
  let a := if r =? 0 then 0 else 8 - r in
  let pre :=
    if r =? 0 then []
    else
      let mask := nth (Z.to_nat a) SSD1315_VLINE_PRE_MASK 0 in
      color_ops color index
        (if h <? a then Z.land mask (Z.shiftr 0xFF (a - h)) else mask) in
  let index1 := if r =? 0 then index else index + W in
  if h >=? a then
    let h1 := h - a in
    pre
    ++ stride_ops (Z.to_nat (h1 / 8)) index1 W (solid_op color)
    ++ (if h1 mod 8 =? 0 then []
        else color_ops color (index1 + h1 / 8 * W)
               (nth (Z.to_nat (Z.land (h1 mod 8) 7)) SSD1315_VLINE_POST_MASK 0))
  else pre.

(** ** What a run does to one byte *)

(** Bits [a .. a+k-1]. *)
Definition run_mask (a k : Z) : Z := Z.shiftl (Z.ones k) a.

(** The masked update of a colour; other values of [color] do nothing. *)
Definition color_op (color mask : Z) (b : byte) : byte :=
  if color =? SSD1315_WHITE then or_byte mask b
  else if color =? SSD1315_BLACK then andnot_byte mask b
  else if color =? SSD1315_INVERSE then xor_byte mask b
  else b.

(** The rows of the run [y .. y+h-1] that fall into page [p] are
    [page_lo .. page_hi - 1]. *)
Definition page_lo (y p : Z) : Z := Z.max y (8 * p).
Definition page_hi (y h p : Z) : Z := Z.min (y + h) (8 * p + 8).

(** The effect of the run on the byte of page [p] in its column, bit by
    bit as the colour says. *)
Definition page_op (color y h p : Z) (b : byte) : byte :=
  let lo := page_lo y p in
  let hi := page_hi y h p in
  if hi <=? lo then b
  else color_op color (run_mask (lo - 8 * p) (hi - lo)) b.

(** The effect of the source's vertical run on that byte: a page the run
    covers entirely goes through the whole-byte step. *)
Definition vline_page_op (color y h p : Z) (b : byte) : byte :=
  if page_hi y h p - page_lo y p =? 8 then solid_op color b
  else page_op color y h p b.

(** The dirty-window update both primitives perform before they touch the
    buffer. *)
Definition mark_dirty (st : Display) (x1 y1 x2 y2 : Z) : Display :=
  set_window st (Z.min (window_x1 st) x1) (Z.min (window_y1 st) y1)
                (Z.max (window_x2 st) x2) (Z.max (window_y2 st) y2).

(** An index inside the framebuffer of a [W] by [H] display. *)
Definition in_buffer (W H i : Z) : Prop := 0 <= i < buffer_size W H.

Definition draw_color (d : Draw) : Z :=
  match d with
  | HRun _ _ _ color => color
  | VRun _ _ _ color => color
  end.

(** Whether the run, as called, passes over the pixel [(px, py)]. *)
Definition covers (d : Draw) (px py : Z) : bool :=
  match d with
  | HRun x y w _ => (py =? y) && (x <=? px) && (px <? x + w)
  | VRun x y h _ => (px =? x) && (y <=? py) && (py <? y + h)
  end.

(** How many draws of a sequence pass over the pixel. *)
Definition toggles (ds : list Draw) (px py : Z) : nat :=
  length (List.filter (fun d => covers d px py) ds).

(** A draw of a sequence that is watched at one pixel: any of the three
    colours, and INVERSE if it passes over the pixel. *)
Definition inverse_at (px py : Z) (d : Draw) : Prop :=
  valid_color (draw_color d)
  /\ (covers d px py = true -> draw_color d = SSD1315_INVERSE).

(** ** Concrete displays for the examples

    A base class whose members leave the display alone, and a display as
    the constructor builds it, with the window freshly reset. *)
Definition example_base : Adafruit_GrayOLED :=
  {| setRotation := fun _ st => st;
     clearDisplay := fun st => st;
     draw1BitBitmap := fun _ _ _ _ _ _ st => st;
     splash1 := mkSplash 0 0 None;
     splash2 := mkSplash 0 0 None |}.

Definition example_display (W H rot : Z) : Display :=
  new_display W H rot SSD1315_SWITCHCAPVCC true W H (-1) (-1).

(** ** enableDisplay and the shutdown hook *)

(** [enableDisplay(aValue)]: [aValue] is the truth value of the argument. *)
Definition enableDisplay (aValue : bool) : list BusEvent :=
  [Command (if aValue then SSD1315_DISPLAY_ON else SSD1315_DISPLAY_OFF)].

Definition _preShutdown : list BusEvent :=
  Command SSD1315_DEACTIVATE_SCROLL :: enableDisplay false.

(** ** Logical and physical pixels

    The pixel of the rotated, logical picture that the physical pixel
    [(px, py)] shows.  Rotation values other than 1, 2, 3 match no [case] of
    the rotation mapper and leave the coordinates alone. *)
Definition to_logical (st : Display) (px py : Z) : Z * Z :=
  if rotation st =? 1 then (py, WIDTH st - 1 - px)
  else if rotation st =? 2 then (WIDTH st - 1 - px, HEIGHT st - 1 - py)
  else if rotation st =? 3 then (HEIGHT st - 1 - py, px)
  else (px, py).

(** ** More readings of the bus and of the window *)

(** The payloads of the data blocks, in the order sent. *)
Definition data_bytes (out : list BusEvent) : list byte :=
  concat ((fun e => match e with Data l => l | _ => [] end) <$> out).

(** Every value handed to the bus as a command byte fits a byte. *)
Definition command_byte (b : Z) : Prop := 0 <= b < 256.

Definition bus_bytes_ok (e : BusEvent) : Prop :=
  match e with
  | CommandList l => Forall command_byte l
  | Command b => command_byte b
  | Data _ => True
  end.

(** A window that lies inside a [W] by [H] display. *)
Definition inside (W H : Z) (win : Window) : Prop :=
  0 <= wx1 win <= wx2 win /\ wx2 win < W
  /\ 0 <= wy1 win <= wy2 win /\ wy2 win < H.

(** The cells (column, page) a flush of the window transmits. *)
Definition in_window_cells (win : Window) (x p : Z) : Prop :=
  wx1 win <= x <= wx2 win /\ wy1 win / 8 <= p <= wy2 win / 8.

(** The window contains the rectangle. *)
Definition window_includes (win r : Window) : Prop :=
  wx1 win <= wx1 r /\ wy1 win <= wy1 r /\ wx2 r <= wx2 win /\ wy2 r <= wy2 win.

(** The value of the pixel [(px, py)] after a sequence of draws in the
    three colours, from its value [v] before. *)
Definition pixel_after (H : Z) (ds : list Draw) (px py : Z) (v : bool) : bool :=
  foldl (fun v d => if covers d px py && (py <? H)
                    then pixel_color (draw_color d) v else v) v ds.

(** A 128x64 display after one vertical run and [stopscroll], which marks
    the whole display dirty. *)
Definition example_stopped : Display :=
  snd (stopscroll (_drawFastVLineInternal (example_display 128 64 0)
                     3 2 29 SSD1315_WHITE)).

(** * Properties *)

(** ** The model on concrete inputs *)

Example hline_clipped_left :
  let st := _drawFastHLineInternal (example_display 20 16 0) (-5) 0 10
              SSD1315_WHITE in
  _buffer st = replicate 5 Byte.x01 ++ replicate 35 Byte.x00
  /\ window_of st = mkWindow 0 0 4 0
  /\ accessed st = [4; 3; 2; 1; 0].
Proof. repeat split. Qed.

Example vline_three_bytes :
  let st := _drawFastVLineInternal (example_display 20 24 0) 3 2 21
              SSD1315_WHITE in
  _buffer st !! 3%nat = Some Byte.xfc
  /\ _buffer st !! 23%nat = Some Byte.xff
  /\ _buffer st !! 43%nat = Some Byte.x7f
  /\ window_of st = mkWindow 3 2 3 22
  /\ accessed st = [43; 23; 3].
Proof. repeat split. Qed.

Example xor_swap_small : xor_swap (-5) 7 = (7, -5).
Proof. reflexivity. Qed.

Example xor_swap_wraps : xor_swap (2 ^ 32 + 1) 7 = (7, 1).
Proof. reflexivity. Qed.

Example round_double_ties :
  round_double (2 ^ 53 + 1) = 2 ^ 53 /\ round_double (2 ^ 53 + 3) = 2 ^ 53 + 4
  /\ round_double (- 2 ^ 53 - 1) = - 2 ^ 53
  /\ round_double (2 ^ 54 + 6) = 2 ^ 54 + 8.
Proof. repeat split. Qed.

(** Rotation 2 with the length [2^53 + 2]: [w - 1] rounds to [2^53], and the
    run from logical column 5 leftwards covers 124 columns, not 123. *)
Example rotated_long_run_rounds :
  window_of (drawFastHLine (example_display 128 64 2) 5 0 (2 ^ 53 + 2)
               SSD1315_WHITE)
  = mkWindow 0 63 123 63.
Proof. reflexivity. Qed.

Example scroll_left_bytes :
  startscrollleft (example_display 128 64 0) 0 15
  = [CommandList [0x2E; 0xA3; 0x00; 0x40];
     CommandList [0x2A; 0x01; 0x00; 0x07; 0x07; 0x00; 0x00; 0x7F; 0x2F]].
Proof. reflexivity. Qed.

Example flush_one_pixel :
  fst (@display example_base
         (_drawFastHLineInternal (example_display 128 64 0) 0 0 1
            SSD1315_WHITE))
  = [CommandList [0x22; 0; 1; 0x21; 0; 0]; Data [Byte.x01]].
Proof. reflexivity. Qed.

Lemma new_display_buffer_ok (W H rot vcc : Z) (noSplash : bool)
    (x1 y1 x2 y2 : Z) :
  0 <= W -> 0 <= H ->
  buffer_ok (new_display W H rot vcc noSplash x1 y1 x2 y2).
Proof.
  intros HW HH. unfold buffer_ok, new_display. cbn [_buffer WIDTH HEIGHT].
  rewrite length_replicate, Z2Nat.id; [reflexivity|].
  unfold buffer_size. rewrite Z.quot_div_nonneg by lia.
  apply Z.mul_nonneg_nonneg; [assumption | apply Z.div_pos; lia].
Qed.

(** ** Scroll parameters *)

Lemma min_one_land_7F (n : Z) : 0 <= n -> Z.land (Z.min 1 n) 0x7F = Z.min 1 n.
Proof.
  intros Hn. destruct (Z.min_spec 1 n) as [[_ ->] | [Hle ->]]; [reflexivity|].
  assert (n = 0 \/ n = 1) as [-> | ->] by lia; reflexivity.
Qed.

Lemma land_FF_nonneg (n : Z) : 0 <= Z.land n 0xFF.
Proof. apply Z.land_nonneg. right. lia. Qed.

(** C3, as the code has it: the pure left and right scrolls send horizontal
    increment 1 and vertical increment 0; the upward scroll sends horizontal
    increment 0; the diagonal scrolls send horizontal increment 1 and the
    vertical increment [min(1, HEIGHT & 0xFF)], which is 1 as soon as
    [HEIGHT & 0xFF] is not zero.  In the scroll command the horizontal
    increment is the byte after the opcode and the vertical increment the
    byte after the stop page. *)
Theorem scroll_increments (st : Display) (start stop : Z) :
  let area := CommandList [SSD1315_DEACTIVATE_SCROLL;
                           SSD1315_SET_VERTICAL_SCROLL_AREA; 0x00;
                           Z.land (HEIGHT st) 0xFF] in
  let scroll opcode horizontal vertical :=
    CommandList [opcode; horizontal; Z.land start 0x07; 0x07;
                 Z.land stop 0x07; vertical; 0x00;
                 Z.land (Z.land (WIDTH st) 0xFF - 1) 0xFF;
                 SSD1315_ACTIVATE_SCROLL] in
  let diagonal := Z.min 1 (Z.land (HEIGHT st) 0xFF) in
  startscrollleft st start stop
    = [area; scroll SSD1315_VERTICAL_AND_LEFT_HORIZONTAL_SCROLL 0x01 0x00]
  /\ startscrollright st start stop
    = [area; scroll SSD1315_VERTICAL_AND_RIGHT_HORIZONTAL_SCROLL 0x01 0x00]
  /\ startscrollup st start stop
    = [area; scroll SSD1315_VERTICAL_AND_LEFT_HORIZONTAL_SCROLL 0x00 diagonal]
  /\ startscrolldiagleft st start stop
    = [area; scroll SSD1315_VERTICAL_AND_LEFT_HORIZONTAL_SCROLL 1 diagonal]
  /\ startscrolldiagright st start stop
    = [area; scroll SSD1315_VERTICAL_AND_RIGHT_HORIZONTAL_SCROLL 1 diagonal]
  /\ (Z.land (HEIGHT st) 0xFF <> 0 -> diagonal = 1).
Proof.
  intros area scroll diagonal. subst area scroll diagonal.
  pose proof (land_FF_nonneg (HEIGHT st)) as Hh.
  pose proof (min_one_land_7F (Z.land (HEIGHT st) 0xFF) Hh) as Hmin.
  unfold startscrollleft, startscrollright, startscrollup,
    startscrolldiagleft, startscrolldiagright, _startScrollInternal.
  cbn [String.eqb Ascii.eqb Bool.eqb]. rewrite Hmin.
  repeat (split; [reflexivity|]). lia.
Qed.

(** C3, as the claim states it, fails: [startscrollleft(0, 15)] on a 128x64
    display sends horizontal increment 1, not 0. *)
Lemma scroll_left_horizontal_increment_not_zero :
  scroll_horizontal_increment
    (startscrollleft (example_display 128 64 0) 0 15)
  <> Some 0x00.
Proof. vm_compute. discriminate. Qed.

(** ** Startup *)

(** C8: on a 128x64 display with [vccSelection] other than
    [SSD1315_EXTERNALVCC], [begin] sends contrast 0xCF and charge-pump
    parameter 0x14; on a 128x32 display it sends contrast 0x8F whatever
    [vccSelection] is.  Both travel in the fourth command list of [begin],
    the charge-pump parameter after [SSD1315_CHARGE_PUMP] and the contrast
    after [SSD1315_SET_CONTRAST]. *)
Theorem begin_contrast_and_charge_pump `{Adafruit_GrayOLED} (st : Display) :
  WIDTH st = 128 ->
  let settings charge_pump com_pins contrast precharge :=
    CommandList
      [SSD1315_CHARGE_PUMP; charge_pump;
       SSD1315_SET_DISPLAY_OFFSET; Z.land (display_offset st) 0x3F;
       Z.land (Z.lor SSD1315_SET_DISPLAY_START_LINE_BASE
                     (Z.land (start_line st) 0x3F)) 0xFF;
       SSD1315_SET_COM_PINS; com_pins;
       SSD1315_SET_CONTRAST; contrast;
       SSD1315_SET_PRECHARGE; precharge] in
  (HEIGHT st = 64 -> _vccSelection st <> SSD1315_EXTERNALVCC ->
     fst (begin st) !! 3%nat = Some (settings 0x14 0x12 0xCF 0xF1)
     /\ begin_contrast (fst (begin st)) = Some 0xCF
     /\ begin_charge_pump (fst (begin st)) = Some 0x14)
  /\ (HEIGHT st = 32 ->
     (exists charge_pump precharge,
        fst (begin st) !! 3%nat
        = Some (settings charge_pump 0x02 0x8F precharge))
     /\ begin_contrast (fst (begin st)) = Some 0x8F).
Proof.
  intros HW settings. subst settings. split.
  - intros HH Hvcc. unfold begin_contrast, begin_charge_pump, begin.
    rewrite HW, HH.
    assert (Hv : (SSD1315_EXTERNALVCC =? _vccSelection st) = false)
      by (apply Z.eqb_neq; congruence).
    rewrite Hv. cbn [Z.eqb Pos.eqb andb].
    destruct (display _) as [out3 st3]. repeat split.
  - intros HH. unfold begin_contrast, begin. rewrite HW, HH.
    cbn [Z.eqb Pos.eqb andb].
    destruct (display _) as [out3 st3].
    split; [do 2 eexists|]; reflexivity.
Qed.

(** ** The rotation mapper *)

Definition int32 (z : Z) : Prop := - 2 ^ 31 <= z < 2 ^ 31.

Lemma toInt32_id (z : Z) : int32 z -> toInt32 z = z.
Proof. unfold int32, toInt32. intros Hz. rewrite Z.mod_small; lia. Qed.

Lemma toInt32_range (z : Z) : int32 (toInt32 z).
Proof.
  unfold int32, toInt32.
  pose proof (Z.mod_pos_bound (z + 2 ^ 31) (2 ^ 32) ltac:(lia)). lia.
Qed.

Lemma testbit_high (n a i : Z) :
  0 <= n -> 0 <= a < 2 ^ n -> n <= i -> Z.testbit a i = false.
Proof.
  intros Hn Ha Hi. rewrite <- (Z.mod_small a (2 ^ n)) by assumption.
  apply Z.mod_pow2_bits_high. lia.
Qed.

Lemma lxor_below_pow2 (n a b : Z) :
  0 <= n -> 0 <= a < 2 ^ n -> 0 <= b < 2 ^ n -> 0 <= Z.lxor a b < 2 ^ n.
Proof.
  intros Hn Ha Hb. split; [apply Z.lxor_nonneg; lia|].
  assert (Heq : Z.lxor a b = Z.lxor a b mod 2 ^ n).
  { apply Z.bits_inj'. intros i Hi.
    rewrite Z.testbit_mod_pow2 by assumption.
    destruct (Z.ltb_spec i n) as [Hlt | Hge]; [reflexivity|].
    rewrite Z.lxor_spec, (testbit_high n a i), (testbit_high n b i) by lia.
    reflexivity. }
  rewrite Heq. apply Z.mod_pos_bound. lia.
Qed.

Lemma lxor_int32 (a b : Z) : int32 a -> int32 b -> int32 (Z.lxor a b).
Proof.
  unfold int32. intros Ha Hb.
  destruct (Z.lt_ge_cases a 0) as [Han | Hap];
    destruct (Z.lt_ge_cases b 0) as [Hbn | Hbp].
  - rewrite <- Z.lxor_lnot_lnot.
    pose proof (lxor_below_pow2 31 (Z.lnot a) (Z.lnot b)) as Hx.
    unfold Z.lnot in *. lia.
  - rewrite <- (Z.lnot_involutive (Z.lxor a b)), Z.lnot_lxor_l.
    pose proof (lxor_below_pow2 31 (Z.lnot a) b) as Hx.
    unfold Z.lnot in *. lia.
  - rewrite <- (Z.lnot_involutive (Z.lxor a b)), Z.lnot_lxor_r.
    pose proof (lxor_below_pow2 31 a (Z.lnot b)) as Hx.
    unfold Z.lnot in *. lia.
  - pose proof (lxor_below_pow2 31 a b). lia.
Qed.

Lemma xor_swap_toInt32 (x y : Z) : xor_swap x y = (toInt32 y, toInt32 x).
Proof.
  unfold xor_swap, js_xor.
  pose proof (toInt32_range x) as Hx. pose proof (toInt32_range y) as Hy.
  rewrite (toInt32_id (Z.lxor (toInt32 x) (toInt32 y)))
    by (apply lxor_int32; assumption).
  assert (E1 : Z.lxor (toInt32 y) (Z.lxor (toInt32 x) (toInt32 y)) = toInt32 x).
  { rewrite (Z.lxor_comm (toInt32 x)), <- Z.lxor_assoc, Z.lxor_nilpotent.
    apply Z.lxor_0_l. }
  rewrite E1, (toInt32_id (toInt32 x)) by assumption.
  f_equal.
  rewrite (Z.lxor_comm (toInt32 x) (toInt32 y)), Z.lxor_assoc,
    Z.lxor_nilpotent. apply Z.lxor_0_r.
Qed.

Lemma xor_swap_int32 (x y : Z) : int32 x -> int32 y -> xor_swap x y = (y, x).
Proof.
  intros Hx Hy. rewrite xor_swap_toInt32. now rewrite !toInt32_id.
Qed.

(** ** Exact differences *)

Lemma round_double_exact (z : Z) : Z.abs z < 2 ^ 53 -> round_double z = z.
Proof.
  intros Hz. unfold round_double.
  destruct (Z.ltb_spec (Z.abs z) (2 ^ 53)); [reflexivity | lia].
Qed.

Lemma js_sub_exact (a b : Z) : Z.abs (a - b) < 2 ^ 53 -> js_sub a b = a - b.
Proof. apply round_double_exact. Qed.

Lemma safe_operand_range (z : Z) :
  safe_operand z -> - 2251799813685248 <= z <= 2251799813685248.
Proof. unfold safe_operand. change (2 ^ 51) with 2251799813685248. lia. Qed.

Lemma int32_range (z : Z) : int32 z -> - 2147483648 <= z < 2147483648.
Proof. unfold int32. lia. Qed.

Ltac exact_subs :=
  repeat match goal with
         | H : safe_operand _ |- _ => apply safe_operand_range in H
         | H : int32 _ |- _ => apply int32_range in H
         end;
  repeat match goal with
         | |- context [js_sub ?a ?b] =>
             rewrite (js_sub_exact a b)
               by (change (2 ^ 53) with 9007199254740992; lia)
         end.

(** Inside the range where the XOR swap and the differences are exact
    (coordinates in the signed 32-bit range, geometry and length up to
    [2^51]) each public line call transforms its coordinates per the
    rotation table and calls the other primitive exactly when the rotation
    is 1 or 3. *)
Lemma rotation_dispatch (st : Display) (x y len color : Z) :
  int32 x -> int32 y ->
  safe_operand (WIDTH st) -> safe_operand (HEIGHT st) -> safe_operand len ->
  let W := WIDTH st in
  let H := HEIGHT st in
  (rotation st = 0 ->
     drawFastHLine st x y len color = _drawFastHLineInternal st x y len color
     /\ drawFastVLine st x y len color = _drawFastVLineInternal st x y len color)
  /\ (rotation st = 1 ->
     drawFastHLine st x y len color
       = _drawFastVLineInternal st (W - 1 - y) x len color
     /\ drawFastVLine st x y len color
       = _drawFastHLineInternal st (W - 1 - y - (len - 1)) x len color)
  /\ (rotation st = 2 ->
     drawFastHLine st x y len color
       = _drawFastHLineInternal st (W - 1 - x - (len - 1)) (H - 1 - y) len color
     /\ drawFastVLine st x y len color
       = _drawFastVLineInternal st (W - 1 - x) (H - 1 - y - (len - 1)) len color)
  /\ (rotation st = 3 ->
     drawFastHLine st x y len color
       = _drawFastVLineInternal st y (H - 1 - x - (len - 1)) len color
     /\ drawFastVLine st x y len color
       = _drawFastHLineInternal st y (H - 1 - x) len color).
Proof.
  intros Hx Hy HW HH Hlen W H. unfold drawFastHLine, drawFastVLine.
  rewrite (xor_swap_int32 x y Hx Hy). subst W H.
  split; [|split; [|split]]; intros Hr; rewrite Hr; cbn [Z.eqb Pos.eqb];
    exact_subs; split; f_equal; lia.
Qed.

(** C1 at the input where the code leaves the rotation table: on a 128x64
    display under rotation 1, [drawFastHLine(2^32, 0, 1, WHITE)].  The
    table swaps the coordinates into the vertical run at [(127, 2^32)],
    which lies below the display and changes nothing.  The XOR swap of the
    code coerces [2^32] to [0], and the pixel [(127, 0)] is set. *)
Theorem rotation_swap_wraps_at_2_32 :
  xor_swap 4294967296 0 = (0, 0)
  /\ drawFastHLine (example_display 128 64 1) 4294967296 0 1 SSD1315_WHITE
     = _drawFastVLineInternal (example_display 128 64 1) 127 0 1 SSD1315_WHITE
  /\ getPixel (drawFastHLine (example_display 128 64 1) 4294967296 0 1
                 SSD1315_WHITE) 127 0 = true
  /\ _drawFastVLineInternal (example_display 128 64 1) (128 - 1 - 0) 4294967296
       1 SSD1315_WHITE
     = example_display 128 64 1.
Proof. repeat split; vm_compute; reflexivity. Qed.

(** ** The primitives as update sequences *)

Lemma apply_ops_app (ops1 ops2 : list (Z * (byte -> byte))) (st : Display) :
  apply_ops (ops1 ++ ops2) st = apply_ops ops2 (apply_ops ops1 st).
Proof. unfold apply_ops. apply foldl_app. Qed.

Lemma apply_ops_frame (ops : list (Z * (byte -> byte))) (st : Display) :
  WIDTH (apply_ops ops st) = WIDTH st
  /\ HEIGHT (apply_ops ops st) = HEIGHT st
  /\ rotation (apply_ops ops st) = rotation st
  /\ window_of (apply_ops ops st) = window_of st.
Proof.
  revert st. induction ops as [|op ops IH]; intros st; [repeat split|].
  destruct (IH (buffer_update (fst op) (snd op) st)) as (IW & IHt & IR & IWin).
  unfold apply_ops in *. cbn [foldl]. rewrite IW, IHt, IR, IWin.
  repeat split.
Qed.

Lemma apply_ops_buffer (ops : list (Z * (byte -> byte))) (st : Display) :
  _buffer (apply_ops ops st) = u8_ops ops (_buffer st).
Proof.
  revert st. induction ops as [|op ops IH]; intros st; [reflexivity|].
  unfold apply_ops, u8_ops in *. cbn [foldl]. now rewrite IH.
Qed.

Lemma apply_ops_accessed (ops : list (Z * (byte -> byte))) (st : Display) :
  accessed (apply_ops ops st) = reverse (fst <$> ops) ++ accessed st.
Proof.
  revert st. induction ops as [|op ops IH]; intros st; [reflexivity|].
  unfold apply_ops in *. cbn [foldl fmap list_fmap]. rewrite IH.
  rewrite reverse_cons, <- app_assoc. reflexivity.
Qed.

Lemma hline_loop_ops (n : nat) (index : Z) (f : byte -> byte) (st : Display) :
  hline_loop n index f st = apply_ops (stride_ops n index 1 f) st.
Proof.
  revert index st. induction n as [|n IH]; intros index st; [reflexivity|].
  cbn [hline_loop stride_ops]. now rewrite IH.
Qed.

Lemma masked_update_ops (color index mask : Z) (st : Display) :
  masked_update color index mask st = apply_ops (color_ops color index mask) st.
Proof.
  unfold masked_update, color_ops.
  destruct (color =? SSD1315_WHITE); [reflexivity|].
  destruct (color =? SSD1315_BLACK); [reflexivity|].
  destruct (color =? SSD1315_INVERSE); reflexivity.
Qed.

(** With [hTemp / 8] units of fuel the whole-byte loop leaves through its
    test, after [hTemp / 8] rounds and with [hTemp mod 8] rows left. *)
Lemma fill_loop_ops (fuel : nat) (W : Z) (f : byte -> byte)
    (index hTemp : Z) (st : Display) :
  8 <= hTemp -> (Z.to_nat (hTemp / 8) <= fuel)%nat ->
  fill_loop fuel W f index hTemp st
  = (index + hTemp / 8 * W, hTemp mod 8,
     apply_ops (stride_ops (Z.to_nat (hTemp / 8)) index W f) st).
Proof.
  revert index hTemp st.
  induction fuel as [|fuel IH]; intros index hTemp st Hh Hfuel.
  - exfalso. assert (1 <= hTemp / 8) by (apply Z.div_le_lower_bound; lia). lia.
  - cbn [fill_loop].
    assert (Hdiv : hTemp / 8 = (hTemp - 8) / 8 + 1).
    { replace hTemp with ((hTemp - 8) + 1 * 8) at 1 by lia.
      now rewrite Z.div_add by lia. }
    assert (Hmod : hTemp mod 8 = (hTemp - 8) mod 8).
    { replace hTemp with ((hTemp - 8) + 1 * 8) at 1 by lia.
      now rewrite Z.mod_add by lia. }
    assert (Hq : 0 <= (hTemp - 8) / 8) by (apply Z.div_pos; lia).
    replace (Z.to_nat (hTemp / 8)) with (S (Z.to_nat ((hTemp - 8) / 8))) by lia.
    cbn [stride_ops]. destruct (Z.geb_spec (hTemp - 8) 8) as [Hge | Hlt].
    + rewrite IH by lia. rewrite Hdiv, Hmod.
      replace (index + W + (hTemp - 8) / 8 * W)
        with (index + ((hTemp - 8) / 8 + 1) * W) by ring.
      reflexivity.
    + rewrite Hdiv, Hmod, (Z.div_small (hTemp - 8) 8), Z.mod_small by lia.
      cbn [Z.to_nat stride_ops].
      replace (index + (0 + 1) * W) with (index + W) by ring.
      reflexivity.
Qed.

Lemma clip_spec (start len limit : Z) :
  let '(s, l) := clip start len limit in
  (0 < l <-> Z.max start 0 < Z.min (start + len) limit)
  /\ (0 < l -> s = Z.max start 0 /\ s + l = Z.min (start + len) limit).
Proof.
  unfold clip.
  destruct (Z.ltb_spec start 0); destruct (Z.gtb_spec (0 + (len + start)) limit);
    destruct (Z.gtb_spec (start + len) limit); lia.
Qed.

Lemma hline_eq (st : Display) (x y w color : Z) :
  _drawFastHLineInternal st x y w color
  = if (0 <=? y) && (y <? HEIGHT st) then
      let '(x', w') := clip x w (WIDTH st) in
      if w' >? 0 then
        apply_ops (hline_ops (WIDTH st) x' y w' color)
          (mark_dirty st x' y (x' + w' - 1) y)
      else st
    else st.
Proof.
  unfold _drawFastHLineInternal, clip, hline_ops, mark_dirty.
  cbv zeta.
  destruct ((0 <=? y) && (y <? HEIGHT st)); [|reflexivity].
  destruct (x <? 0); cbv beta iota zeta;
    match goal with |- context [if ?a + ?b >? WIDTH st then ?c else ?d] =>
      generalize (if a + b >? WIDTH st then c else d) end;
    intros w'; (destruct (w' >? 0); [|reflexivity]);
    unfold set_window; cbn [WIDTH];
    destruct (color =? SSD1315_WHITE); try apply hline_loop_ops;
    destruct (color =? SSD1315_BLACK); try apply hline_loop_ops;
    destruct (color =? SSD1315_INVERSE); try apply hline_loop_ops;
    reflexivity.
Qed.

Lemma solid_phase (W color index h1 : Z) (st : Display) :
  0 <= h1 ->
  (if h1 >=? 8 then
     if color =? SSD1315_INVERSE then
       fill_loop (Z.to_nat h1) W (xor_byte 0xFF) index h1 st
     else
       fill_loop (Z.to_nat h1) W
         (set_byte (if negb (color =? SSD1315_BLACK) then 0xFF else 0x00))
         index h1 st
   else (index, h1, st))
  = (index + h1 / 8 * W, h1 mod 8,
     apply_ops (stride_ops (Z.to_nat (h1 / 8)) index W (solid_op color)) st).
Proof.
  intros Hh. destruct (Z.geb_spec h1 8) as [Hge | Hlt].
  - assert (Hfuel : (Z.to_nat (h1 / 8) <= Z.to_nat h1)%nat).
    { apply Z2Nat.inj_le; [apply Z.div_pos; lia | lia|].
      apply Z.div_le_upper_bound; lia. }
    unfold solid_op. destruct (color =? SSD1315_INVERSE);
      now rewrite fill_loop_ops.
  - rewrite Z.div_small, Z.mod_small by lia. cbn [Z.to_nat stride_ops].
    f_equal. f_equal. ring.
Qed.

(** The block of [_drawFastVLineInternal] that follows the dirty-window
    update, for a clipped run of positive height. *)
Lemma vline_body (WIDTH_ x y h color : Z) (st : Display) :
  0 < h ->
  (let yTemp := y in
   let hTemp := h in
   let index := x + Z.quot yTemp 8 * WIDTH_ in
   let mod_ := Z.land yTemp 7 in
   let '(mod_, index, st) :=
     if negb (mod_ =? 0) then
       let mod_ := 8 - mod_ in
       let mask := nth (Z.to_nat mod_) SSD1315_VLINE_PRE_MASK 0 in
       let mask := if hTemp <? mod_
                   then Z.land mask (Z.shiftr 0xFF (mod_ - hTemp))
                   else mask in
       (mod_, index + WIDTH_, masked_update color index mask st)
     else (mod_, index, st) in
   if hTemp >=? mod_ then
     let hTemp := hTemp - mod_ in
     let '(index, hTemp, st) :=
       if hTemp >=? 8 then
         if color =? SSD1315_INVERSE then
           fill_loop (Z.to_nat hTemp) WIDTH_ (xor_byte 0xFF) index hTemp st
         else
           let val := if negb (color =? SSD1315_BLACK) then 0xFF else 0x00 in
           fill_loop (Z.to_nat hTemp) WIDTH_ (set_byte val) index hTemp st
       else (index, hTemp, st) in
     if negb (hTemp =? 0) then
       let mod_ := Z.land hTemp 7 in
       let mask := nth (Z.to_nat mod_) SSD1315_VLINE_POST_MASK 0 in
       masked_update color index mask st
     else st
   else st)
  = apply_ops (vline_ops WIDTH_ x y h color) st.
Proof.
  intros Hh. unfold vline_ops. cbv zeta.
  destruct (Z.eqb_spec (Z.land y 7) 0) as [Hr | Hr]; cbn [negb].
  - rewrite Hr. replace (h >=? 0) with true by (symmetry; apply Z.geb_le; lia).
    rewrite solid_phase by lia. cbn [app].
    rewrite apply_ops_app.
    destruct (Z.eqb_spec ((h - 0) mod 8) 0) as [Ht | Ht]; cbn [negb];
      [reflexivity | apply masked_update_ops].
  - destruct (Z.geb_spec h (8 - Z.land y 7)) as [Hge | Hlt].
    + rewrite solid_phase by lia.
      rewrite !apply_ops_app, <- masked_update_ops.
      destruct (Z.eqb_spec ((h - (8 - Z.land y 7)) mod 8) 0) as [Ht | Ht];
        cbn [negb]; [reflexivity | apply masked_update_ops].
    + apply masked_update_ops.
Qed.

Lemma vline_eq (st : Display) (x y h color : Z) :
  _drawFastVLineInternal st x y h color
  = if (0 <=? x) && (x <? WIDTH st) then
      let '(y', h') := clip y h (HEIGHT st) in
      if h' >? 0 then
        apply_ops (vline_ops (WIDTH st) x y' h' color)
          (mark_dirty st x y' x (y' + h' - 1))
      else st
    else st.
Proof.
  unfold _drawFastVLineInternal, clip, mark_dirty.
  cbv zeta.
  destruct ((0 <=? x) && (x <? WIDTH st)); [|reflexivity].
  destruct (y <? 0); cbv beta iota zeta;
    match goal with |- context [if ?a + ?b >? HEIGHT st then ?c else ?d] =>
      generalize (if a + b >? HEIGHT st then c else d) end;
    intros h'; (destruct (Z.gtb_spec h' 0) as [Hpos | Hneg]; [|reflexivity]);
    rewrite <- vline_body by assumption; reflexivity.
Qed.

(** ** Reading one byte after a sequence of updates *)

Lemma byte_index_nonneg (W x p : Z) :
  0 <= W -> 0 <= x -> 0 <= p -> 0 <= byte_index W x p.
Proof. unfold byte_index. intros. nia. Qed.

Lemma byte_index_inj (W x p x' p' : Z) :
  0 <= x < W -> 0 <= x' < W ->
  byte_index W x p = byte_index W x' p' -> x = x' /\ p = p'.
Proof.
  unfold byte_index. intros Hx Hx' Heq.
  assert (Hp : p = p').
  { apply (f_equal (fun z => z / W)) in Heq.
    rewrite !Z.div_add, !Z.div_small in Heq by lia. lia. }
  subst p'. lia.
Qed.

Lemma byte_index_succ (W x p : Z) :
  byte_index W x p + W = byte_index W x (p + 1).
Proof. unfold byte_index. ring. Qed.

Lemma byte_index_next (W x p : Z) :
  byte_index W x p + 1 = byte_index W (x + 1) p.
Proof. unfold byte_index. ring. Qed.

Lemma byte_index_bound (W H x p : Z) :
  0 <= x < W -> 0 <= p -> 8 * p < H ->
  0 <= byte_index W x p < buffer_size W H.
Proof.
  unfold byte_index, buffer_size. intros Hx Hp Hlt.
  rewrite Z.quot_div_nonneg by lia.
  assert (p + 1 <= (H + 7) / 8) by (apply Z.div_le_lower_bound; lia).
  nia.
Qed.

Lemma option_fmap_ext_id {A : Type} (f g : A -> A) (o : option A) :
  (forall a, f a = g a) -> f <$> o = g <$> o.
Proof. intros Hfg. destruct o as [a|]; [cbn; now rewrite Hfg | reflexivity]. Qed.

Lemma option_fmap_id' {A : Type} (o : option A) : (fun a => a) <$> o = o.
Proof. now destruct o. Qed.

Lemma u8_update_lookup (i : Z) (f : byte -> byte) (buf : list byte) (j : Z) :
  0 <= j ->
  u8_update i f buf !! Z.to_nat j
  = (if i =? j then f else fun b => b) <$> buf !! Z.to_nat j.
Proof.
  intros Hj. unfold u8_update.
  destruct (Z.leb_spec 0 i) as [Hi | Hi]; destruct (Z.eqb_spec i j) as [-> | Hne].
  - apply list_lookup_alter_eq.
  - rewrite list_lookup_alter_ne by lia. now rewrite option_fmap_id'.
  - lia.
  - now rewrite option_fmap_id'.
Qed.

Lemma u8_update_length (i : Z) (f : byte -> byte) (buf : list byte) :
  length (u8_update i f buf) = length buf.
Proof. unfold u8_update. destruct (0 <=? i); [apply length_alter | reflexivity]. Qed.

Lemma u8_ops_app (ops1 ops2 : list (Z * (byte -> byte))) (buf : list byte) :
  u8_ops (ops1 ++ ops2) buf = u8_ops ops2 (u8_ops ops1 buf).
Proof. unfold u8_ops. apply foldl_app. Qed.

Lemma u8_ops_length (ops : list (Z * (byte -> byte))) (buf : list byte) :
  length (u8_ops ops buf) = length buf.
Proof.
  revert buf. induction ops as [|op ops IH]; intros buf; [reflexivity|].
  unfold u8_ops in *. cbn [foldl]. now rewrite IH, u8_update_length.
Qed.

(** One update, read at a cell given by column and page. *)
Lemma u8_update_lookup_cell (W x p x' p' : Z) (f : byte -> byte) (buf : list byte) :
  0 <= x < W -> 0 <= x' < W -> 0 <= p' ->
  u8_update (byte_index W x p) f buf !! Z.to_nat (byte_index W x' p')
  = (if (x' =? x) && (p' =? p) then f else fun b => b)
      <$> buf !! Z.to_nat (byte_index W x' p').
Proof.
  intros Hx Hx' Hp'.
  rewrite u8_update_lookup by (apply byte_index_nonneg; lia).
  apply option_fmap_ext_id. intros b.
  destruct (Z.eqb_spec (byte_index W x p) (byte_index W x' p')) as [Heq | Hne].
  - apply byte_index_inj in Heq as [-> ->]; [|lia..].
    now rewrite !Z.eqb_refl.
  - destruct (Z.eqb_spec x' x) as [-> |]; [|reflexivity].
    destruct (Z.eqb_spec p' p) as [-> |]; [congruence | reflexivity].
Qed.

(** The solid bytes of a column: pages [p .. p+n-1]. *)
Lemma u8_ops_lookup_column (n : nat) (W x p x' p' : Z) (f : byte -> byte)
    (buf : list byte) :
  0 <= x < W -> 0 <= x' < W -> 0 <= p' ->
  u8_ops (stride_ops n (byte_index W x p) W f) buf !! Z.to_nat (byte_index W x' p')
  = (if (x' =? x) && (p <=? p') && (p' <? p + Z.of_nat n) then f else fun b => b)
      <$> buf !! Z.to_nat (byte_index W x' p').
Proof.
  intros Hx Hx' Hp'. revert p buf.
  induction n as [|n IH]; intros p buf.
  - cbn [stride_ops u8_ops foldl]. rewrite <- (option_fmap_id' (buf !! _)) at 1.
    apply option_fmap_ext_id. intros b.
    destruct (x' =? x), (Z.leb_spec p p'), (Z.ltb_spec p' (p + Z.of_nat 0));
      cbn; try reflexivity; lia.
  - cbn [stride_ops]. unfold u8_ops in *. cbn [foldl fst snd].
    rewrite byte_index_succ, IH, u8_update_lookup_cell by assumption.
    rewrite <- option_fmap_compose. apply option_fmap_ext_id. intros b. cbn.
    destruct (Z.eqb_spec x' x); cbn [andb]; [|reflexivity].
    destruct (Z.eqb_spec p' p), (Z.leb_spec p p'), (Z.leb_spec (p + 1) p'),
      (Z.ltb_spec p' (p + 1 + Z.of_nat n)), (Z.ltb_spec p' (p + Z.of_nat (S n)));
      cbn; try reflexivity; lia.
Qed.

(** The bytes of a horizontal run: columns [x .. x+n-1] of page [p]. *)
Lemma u8_ops_lookup_row (n : nat) (W x p x' p' : Z) (f : byte -> byte)
    (buf : list byte) :
  0 <= x -> x + Z.of_nat n <= W -> 0 <= x' < W -> 0 <= p' ->
  u8_ops (stride_ops n (byte_index W x p) 1 f) buf !! Z.to_nat (byte_index W x' p')
  = (if (p' =? p) && (x <=? x') && (x' <? x + Z.of_nat n) then f else fun b => b)
      <$> buf !! Z.to_nat (byte_index W x' p').
Proof.
  intros Hx Hn Hx' Hp'. revert x Hx Hn buf.
  induction n as [|n IH]; intros x Hx Hn buf.
  - cbn [stride_ops u8_ops foldl]. rewrite <- (option_fmap_id' (buf !! _)) at 1.
    apply option_fmap_ext_id. intros b.
    destruct (p' =? p), (Z.leb_spec x x'), (Z.ltb_spec x' (x + Z.of_nat 0));
      cbn; try reflexivity; lia.
  - cbn [stride_ops]. unfold u8_ops in *. cbn [foldl fst snd].
    rewrite byte_index_next, IH, u8_update_lookup_cell by lia.
    rewrite <- option_fmap_compose. apply option_fmap_ext_id. intros b. cbn.
    destruct (Z.eqb_spec p' p); cbn [andb];
      [|rewrite Bool.andb_false_r; reflexivity].
    destruct (Z.eqb_spec x' x), (Z.leb_spec x x'), (Z.leb_spec (x + 1) x'),
      (Z.ltb_spec x' (x + 1 + Z.of_nat n)), (Z.ltb_spec x' (x + Z.of_nat (S n)));
      cbn; try reflexivity; lia.
Qed.

(** The update of a [switch (color)], read as one function of the byte. *)
Lemma u8_ops_color_ops (color index mask : Z) (buf : list byte) :
  u8_ops (color_ops color index mask) buf
  = u8_update index (color_op color mask) buf.
Proof.
  unfold color_ops, color_op.
  destruct (color =? SSD1315_WHITE); [reflexivity|].
  destruct (color =? SSD1315_BLACK); [reflexivity|].
  destruct (color =? SSD1315_INVERSE); [reflexivity|].
  unfold u8_update, u8_ops. cbn [foldl].
  destruct (0 <=? index); [|reflexivity].
  symmetry. apply list_alter_id. reflexivity.
Qed.

(** ** Masks and bytes *)

Lemma land_7_mod (y : Z) : Z.land y 7 = y mod 8.
Proof. change 7 with (Z.ones 3). apply Z.land_ones. lia. Qed.

Ltac enum_1_7 r :=
  let H := fresh in
  assert (H : r = 1 \/ r = 2 \/ r = 3 \/ r = 4 \/ r = 5 \/ r = 6 \/ r = 7) by lia;
  destruct H as [-> | [-> | [-> | [-> | [-> | [-> | ->]]]]]].

Lemma pre_mask_full (r : Z) :
  1 <= r <= 7 ->
  nth (Z.to_nat (8 - r)) SSD1315_VLINE_PRE_MASK 0 = run_mask r (8 - r).
Proof. intros Hr. enum_1_7 r; reflexivity. Qed.

Lemma pre_mask_short (r h : Z) :
  1 <= r <= 7 -> 1 <= h < 8 - r ->
  Z.land (nth (Z.to_nat (8 - r)) SSD1315_VLINE_PRE_MASK 0)
         (Z.shiftr 0xFF (8 - r - h))
  = run_mask r h.
Proof. intros Hr Hh. enum_1_7 r; enum_1_7 h; try lia; reflexivity. Qed.

Lemma post_mask (t : Z) :
  1 <= t <= 7 ->
  nth (Z.to_nat (Z.land t 7)) SSD1315_VLINE_POST_MASK 0 = run_mask 0 t.
Proof. intros Ht. enum_1_7 t; reflexivity. Qed.

Lemma run_mask_one (a : Z) : run_mask a 1 = Z.shiftl 1 a.
Proof. reflexivity. Qed.

Ltac byte_eq :=
  apply byte.unsigned_inj; rewrite ?byte.unsigned_of_Z; unfold byte.wrap.

(** Adding the next bit to a run of bits, one colour at a time. *)
Lemma color_op_step (color a k : Z) (b : byte) :
  0 <= a -> 1 <= k -> a + k <= 7 ->
  color_op color (Z.shiftl 1 (a + k)) (color_op color (run_mask a k) b)
  = color_op color (run_mask a (k + 1)) b.
Proof.
  intros Ha Hk Hak. unfold color_op, or_byte, andnot_byte, xor_byte, run_mask.
  replace (Z.shiftl 1 (a + k)) with (Z.shiftl (Z.ones 1) (a + k)) by reflexivity.
  destruct (color =? SSD1315_WHITE); [byte_eq; Z.bitblast|].
  destruct (color =? SSD1315_BLACK); [byte_eq; Z.bitblast|].
  destruct (color =? SSD1315_INVERSE); [byte_eq; Z.bitblast|].
  reflexivity.
Qed.

Lemma xor_byte_involutive (m : Z) (b : byte) : xor_byte m (xor_byte m b) = b.
Proof.
  unfold xor_byte. byte_eq.
  rewrite <- (byte.wrap_unsigned b) at 2. unfold byte.wrap. Z.bitblast.
Qed.

(** For the three colours the whole-byte step is the masked update with all
    eight bits. *)
Lemma solid_op_color_op (color : Z) (b : byte) :
  valid_color color -> solid_op color b = color_op color (run_mask 0 8) b.
Proof.
  intros [-> | [-> | ->]];
    unfold solid_op, color_op, SSD1315_BLACK, SSD1315_WHITE, SSD1315_INVERSE;
    cbn [Z.eqb Pos.eqb negb];
    unfold set_byte, andnot_byte, or_byte, xor_byte; [| |reflexivity];
    byte_eq; pose proof (byte.unsigned_range b);
    change (run_mask 0 8) with (Z.ones 8).
  - change 0 with (Z.land 0 (Z.ones 8)) at 1. Z.bitblast.
  - change 255 with (Z.ones 8) at 1. Z.bitblast.
Qed.

(** The pixels of a byte after a masked update with a run of bits. *)
Lemma color_op_run_testbit (color a k i : Z) (b : byte) :
  0 <= a -> 0 <= k -> 0 <= i < 8 ->
  Z.testbit (byte.unsigned (color_op color (run_mask a k) b)) i
  = if (a <=? i) && (i <? a + k)
    then pixel_color color (Z.testbit (byte.unsigned b) i)
    else Z.testbit (byte.unsigned b) i.
Proof.
  intros Ha Hk Hi.
  unfold color_op, pixel_color, or_byte, andnot_byte, xor_byte, run_mask.
  assert (Hbit : Z.testbit (Z.shiftl (Z.ones k) a) i = (a <=? i) && (i <? a + k)).
  { rewrite Z.shiftl_spec, Z.testbit_ones by lia.
    destruct (Z.leb_spec a i), (Z.leb_spec 0 (i - a)), (Z.ltb_spec (i - a) k),
      (Z.ltb_spec i (a + k)); cbn; lia || reflexivity. }
  assert (Hlt : (i <? 8) = true) by (apply Z.ltb_lt; lia).
  destruct (color =? SSD1315_WHITE);
    [|destruct (color =? SSD1315_BLACK);
      [|destruct (color =? SSD1315_INVERSE)]];
    rewrite ?byte.unsigned_of_Z; unfold byte.wrap;
    rewrite ?Z.testbit_mod_pow2 by lia;
    rewrite ?Z.lor_spec, ?Z.land_spec, ?Z.lxor_spec, ?Z.lnot_spec by lia;
    rewrite ?Hbit, ?Hlt;
    destruct ((a <=? i) && (i <? a + k)), (Z.testbit (byte.unsigned b) i);
    reflexivity.
Qed.

(** One pixel of a byte after a single-bit update. *)
Lemma color_op_testbit (color j i : Z) (b : byte) :
  0 <= j < 8 -> 0 <= i < 8 ->
  Z.testbit (byte.unsigned (color_op color (Z.shiftl 1 j) b)) i
  = if i =? j then pixel_color color (Z.testbit (byte.unsigned b) i)
    else Z.testbit (byte.unsigned b) i.
Proof.
  intros Hj Hi. rewrite <- run_mask_one, color_op_run_testbit by lia.
  destruct (Z.eqb_spec i j), (Z.leb_spec j i), (Z.ltb_spec i (j + 1));
    cbn; lia || reflexivity.
Qed.

(** ** The vertical run, byte by byte *)

Lemma byte_index_add (W x p q : Z) :
  byte_index W x p + q * W = byte_index W x (p + q).
Proof. unfold byte_index. ring. Qed.

Lemma color_ops_lookup_cell (W x p x' p' color mask : Z) (buf : list byte) :
  0 <= x < W -> 0 <= x' < W -> 0 <= p' ->
  u8_ops (color_ops color (byte_index W x p) mask) buf
    !! Z.to_nat (byte_index W x' p')
  = (if (x' =? x) && (p' =? p) then color_op color mask else fun b => b)
      <$> buf !! Z.to_nat (byte_index W x' p').
Proof.
  intros. rewrite u8_ops_color_ops. now apply u8_update_lookup_cell.
Qed.

Ltac split_tests :=
  repeat match goal with
  | |- context [?a =? ?b] => destruct (Z.eqb_spec a b)
  | |- context [?a <=? ?b] => destruct (Z.leb_spec a b)
  | |- context [?a <? ?b] => destruct (Z.ltb_spec a b)
  | |- context [?a >=? ?b] => destruct (Z.geb_spec a b)
  end.

Lemma vline_ops_lookup (W x y h color x' p' : Z) (buf : list byte) :
  0 <= x < W -> 0 <= x' < W -> 0 <= p' -> 0 <= y -> 0 < h ->
  u8_ops (vline_ops W x y h color) buf !! Z.to_nat (byte_index W x' p')
  = (if x' =? x then vline_page_op color y h p' else fun b => b)
      <$> buf !! Z.to_nat (byte_index W x' p').
Proof.
  intros Hx Hx' Hp' Hy Hh. unfold vline_ops. cbv zeta.
  rewrite Z.quot_div_nonneg, land_7_mod by lia.
  fold (byte_index W x (y / 8)).
  pose proof (Z.div_mod y 8 ltac:(lia)) as Hy8.
  pose proof (Z.mod_pos_bound y 8 ltac:(lia)) as Hr8.
  set (p0 := y / 8) in *. set (r := y mod 8) in *. clearbody p0 r.
  destruct (Z.eqb_spec r 0) as [Hr | Hr].
  - (* the run starts on a page boundary *)
    replace (h >=? 0) with true by (symmetry; apply Z.geb_le; lia).
    replace (h - 0) with h by lia.
    pose proof (Z.div_mod h 8 ltac:(lia)) as Hh8.
    pose proof (Z.mod_pos_bound h 8 ltac:(lia)) as Ht8.
    assert (Hq : 0 <= h / 8) by (apply Z.div_pos; lia).
    rewrite byte_index_add.
    set (q := h / 8) in *. set (t := h mod 8) in *. clearbody q t.
    cbn [app]. rewrite u8_ops_app.
    destruct (Z.eqb_spec t 0) as [Ht | Ht].
    + cbn [u8_ops foldl].
      rewrite u8_ops_lookup_column, Z2Nat.id by assumption.
      apply option_fmap_ext_id. intros b.
      unfold vline_page_op, page_op, page_lo, page_hi.
      split_tests; cbn [andb]; try reflexivity; try lia.
    + rewrite color_ops_lookup_cell, u8_ops_lookup_column, Z2Nat.id,
        <- option_fmap_compose by assumption.
      apply option_fmap_ext_id. intros b. cbn [compose].
      rewrite post_mask by lia.
      unfold vline_page_op, page_op, page_lo, page_hi.
      split_tests; cbn [andb]; try reflexivity; try lia.
      all: f_equal; f_equal; lia.
  - destruct (Z.geb_spec h (8 - r)) as [Hge | Hlt].
    + (* leading partial byte, then solid bytes, then the rest *)
      replace (h <? 8 - r) with false by (symmetry; apply Z.ltb_ge; lia).
      pose proof (Z.div_mod (h - (8 - r)) 8 ltac:(lia)) as Hh8.
      pose proof (Z.mod_pos_bound (h - (8 - r)) 8 ltac:(lia)) as Ht8.
      assert (Hq : 0 <= (h - (8 - r)) / 8) by (apply Z.div_pos; lia).
      rewrite byte_index_succ, byte_index_add.
      set (q := (h - (8 - r)) / 8) in *. set (t := (h - (8 - r)) mod 8) in *.
      clearbody q t.
      rewrite !u8_ops_app, pre_mask_full by lia.
      destruct (Z.eqb_spec t 0) as [Ht | Ht].
      * cbn [u8_ops foldl].
        rewrite u8_ops_lookup_column, color_ops_lookup_cell, Z2Nat.id,
          <- option_fmap_compose by assumption.
        apply option_fmap_ext_id. intros b. cbn [compose].
        unfold vline_page_op, page_op, page_lo, page_hi.
        split_tests; cbn [andb]; try reflexivity; try lia.
        all: f_equal; f_equal; lia.
      * rewrite color_ops_lookup_cell, u8_ops_lookup_column,
          color_ops_lookup_cell, Z2Nat.id, <- !option_fmap_compose
          by assumption.
        apply option_fmap_ext_id. intros b. cbn [compose].
        rewrite post_mask by lia.
        unfold vline_page_op, page_op, page_lo, page_hi.
        split_tests; cbn [andb]; try reflexivity; try lia.
        all: f_equal; f_equal; lia.
    + (* the run stays inside its first byte *)
      replace (h <? 8 - r) with true by (symmetry; apply Z.ltb_lt; lia).
      rewrite color_ops_lookup_cell, pre_mask_short by lia.
      apply option_fmap_ext_id. intros b.
      unfold vline_page_op, page_op, page_lo, page_hi.
      split_tests; cbn [andb]; try reflexivity; try lia.
      all: f_equal; f_equal; lia.
Qed.

Lemma vline_page_op_valid (color y h p : Z) (b : byte) :
  valid_color color -> vline_page_op color y h p b = page_op color y h p b.
Proof.
  intros Hc. unfold vline_page_op, page_op.
  destruct (Z.eqb_spec (page_hi y h p - page_lo y p) 8) as [H8 | H8];
    [|reflexivity].
  rewrite solid_op_color_op by assumption.
  unfold page_hi, page_lo in *.
  destruct (Z.leb_spec (Z.min (y + h) (8 * p + 8)) (Z.max y (8 * p))); [lia|].
  f_equal; f_equal; lia.
Qed.

(** Every position of the buffer is the cell of a column and a page. *)
Lemma position_cell (W : Z) (i : nat) :
  0 < W ->
  let x := Z.of_nat i mod W in
  let p := Z.of_nat i / W in
  0 <= x < W /\ 0 <= p /\ i = Z.to_nat (byte_index W x p).
Proof.
  intros HW x p. subst x p. unfold byte_index.
  pose proof (Z.mod_pos_bound (Z.of_nat i) W HW).
  pose proof (Z.div_pos (Z.of_nat i) W ltac:(lia) HW).
  pose proof (Z.div_mod (Z.of_nat i) W ltac:(lia)).
  repeat split; try lia.
Qed.

(** ** The naive reference, byte by byte *)

Lemma naive_pixel_eq (W color x r : Z) (buf : list byte) :
  naive_pixel W color x r buf
  = u8_update (byte_index W x (r / 8)) (color_op color (Z.shiftl 1 (r mod 8))) buf.
Proof.
  unfold naive_pixel. rewrite <- u8_ops_color_ops. unfold color_ops.
  destruct (color =? SSD1315_WHITE); [reflexivity|].
  destruct (color =? SSD1315_BLACK); [reflexivity|].
  destruct (color =? SSD1315_INVERSE); reflexivity.
Qed.

Lemma page_op_snoc (color y n p : Z) (b : byte) :
  0 <= y -> 0 <= n ->
  (if p =? (y + n) / 8 then color_op color (Z.shiftl 1 ((y + n) mod 8))
   else fun b => b) (page_op color y n p b)
  = page_op color y (n + 1) p b.
Proof.
  intros Hy Hn.
  pose proof (Z.div_mod (y + n) 8 ltac:(lia)) as Hd.
  pose proof (Z.mod_pos_bound (y + n) 8 ltac:(lia)) as Hm.
  set (q := (y + n) / 8) in *. set (j := (y + n) mod 8) in *. clearbody q j.
  unfold page_op, page_lo, page_hi.
  destruct (Z.eqb_spec p q) as [-> | Hpq].
  - destruct (Z.leb_spec (Z.min (y + n) (8 * q + 8)) (Z.max y (8 * q)));
      destruct (Z.leb_spec (Z.min (y + (n + 1)) (8 * q + 8)) (Z.max y (8 * q)));
      try lia.
    + rewrite <- run_mask_one. f_equal; f_equal; lia.
    + replace j with ((Z.max y (8 * q) - 8 * q)
                      + (Z.min (y + n) (8 * q + 8) - Z.max y (8 * q))) by lia.
      rewrite color_op_step by lia. f_equal; f_equal; lia.
  - destruct (Z.leb_spec (Z.min (y + n) (8 * p + 8)) (Z.max y (8 * p)));
      destruct (Z.leb_spec (Z.min (y + (n + 1)) (8 * p + 8)) (Z.max y (8 * p)));
      try lia; try reflexivity.
    f_equal; f_equal; lia.
Qed.

Lemma naive_rows_lookup (n : nat) (W color x y x' p' : Z) (buf : list byte) :
  0 <= x < W -> 0 <= x' < W -> 0 <= p' -> 0 <= y ->
  foldl (fun buf r => naive_pixel W color x r buf) buf (seqZ y (Z.of_nat n))
    !! Z.to_nat (byte_index W x' p')
  = (if x' =? x then page_op color y (Z.of_nat n) p' else fun b => b)
      <$> buf !! Z.to_nat (byte_index W x' p').
Proof.
  intros Hx Hx' Hp' Hy. induction n as [|n IH].
  - change (seqZ y (Z.of_nat 0)) with (@nil Z). cbn [foldl].
    rewrite <- (option_fmap_id' (buf !! _)) at 1.
    apply option_fmap_ext_id. intros b.
    destruct (x' =? x); [|reflexivity].
    unfold page_op, page_lo, page_hi. change (Z.of_nat 0) with 0.
    destruct (Z.leb_spec (Z.min (y + 0) (8 * p' + 8)) (Z.max y (8 * p')));
      [reflexivity | lia].
  - rewrite seqZ_S, foldl_app. cbn [foldl].
    rewrite naive_pixel_eq, u8_update_lookup_cell, IH by assumption.
    rewrite <- option_fmap_compose. apply option_fmap_ext_id. intros b.
    cbn [compose]. rewrite Nat2Z.inj_succ, <- Z.add_1_r.
    destruct (Z.eqb_spec x' x) as [-> | Hne]; cbn [andb]; [|reflexivity].
    apply page_op_snoc; lia.
Qed.

(** C4: for a column inside the display and each of the three colours, the
    optimised vertical run leaves the framebuffer exactly as the naive
    reference does, which applies the colour's bit operation to every pixel
    of the clipped run one at a time. *)
Theorem vline_refines_naive (st : Display) (x y h color : Z) :
  0 <= x < WIDTH st -> valid_color color ->
  _buffer (_drawFastVLineInternal st x y h color)
  = naive_vline (WIDTH st) (HEIGHT st) (_buffer st) x y h color.
Proof.
  intros Hx Hc. rewrite vline_eq. unfold naive_vline.
  replace ((0 <=? x) && (x <? WIDTH st)) with true
    by (symmetry; apply andb_true_iff; split;
        [apply Z.leb_le | apply Z.ltb_lt]; lia).
  pose proof (clip_spec y h (HEIGHT st)) as Hclip.
  destruct (clip y h (HEIGHT st)) as [y' h']. destruct Hclip as [Hiff Hpos].
  destruct (Z.gtb_spec h' 0) as [Hgt | Hle].
  - destruct (Hpos Hgt) as [Hy' Hyh].
    rewrite apply_ops_buffer. unfold mark_dirty, set_window. cbn [_buffer].
    replace (Z.min (y + h) (HEIGHT st) - Z.max y 0) with (Z.of_nat (Z.to_nat h'))
      by lia.
    rewrite <- Hy'. apply list_eq. intros i.
    destruct (position_cell (WIDTH st) i ltac:(lia)) as (Hcx & Hcp & ->).
    rewrite vline_ops_lookup, naive_rows_lookup by lia.
    apply option_fmap_ext_id. intros b. rewrite Z2Nat.id by lia.
    destruct (_ =? x); [|reflexivity].
    now apply vline_page_op_valid.
  - assert (Hn : Z.min (y + h) (HEIGHT st) - Z.max y 0 <= 0) by lia.
    unfold seqZ. rewrite Z2Nat.nonpos by assumption. reflexivity.
Qed.

(** ** The horizontal run, byte by byte and pixel by pixel *)

Lemma hline_ops_lookup (W x y w color x' p' : Z) (buf : list byte) :
  0 <= x -> 0 < w -> x + w <= W -> 0 <= y -> 0 <= x' < W -> 0 <= p' ->
  u8_ops (hline_ops W x y w color) buf !! Z.to_nat (byte_index W x' p')
  = (if (p' =? y / 8) && (x <=? x') && (x' <? x + w)
     then color_op color (Z.shiftl 1 (y mod 8)) else fun b => b)
      <$> buf !! Z.to_nat (byte_index W x' p').
Proof.
  intros Hx Hw Hxw Hy Hx' Hp'. unfold hline_ops, color_op. cbv zeta.
  rewrite Z.quot_div_nonneg, land_7_mod by lia.
  fold (byte_index W x (y / 8)).
  destruct (color =? SSD1315_WHITE);
    [|destruct (color =? SSD1315_BLACK);
      [|destruct (color =? SSD1315_INVERSE)]];
    try (rewrite u8_ops_lookup_row, Z2Nat.id by lia; reflexivity).
  cbn [u8_ops foldl]. rewrite <- (option_fmap_id' (buf !! _)) at 1.
  apply option_fmap_ext_id. intros b.
  now destruct ((p' =? y / 8) && (x <=? x') && (x' <? x + w)).
Qed.

Lemma in_range_true (a lim : Z) : 0 <= a < lim -> (0 <=? a) && (a <? lim) = true.
Proof.
  intros H. apply andb_true_iff. split; [apply Z.leb_le | apply Z.ltb_lt]; lia.
Qed.

Lemma hline_lookup (st : Display) (x y w color x' p' : Z) :
  0 <= y < HEIGHT st -> 0 <= x' < WIDTH st -> 0 <= p' ->
  _buffer (_drawFastHLineInternal st x y w color)
    !! Z.to_nat (byte_index (WIDTH st) x' p')
  = (if (p' =? y / 8) && (Z.max x 0 <=? x') && (x' <? Z.min (x + w) (WIDTH st))
     then color_op color (Z.shiftl 1 (y mod 8)) else fun b => b)
      <$> _buffer st !! Z.to_nat (byte_index (WIDTH st) x' p').
Proof.
  intros Hy Hx' Hp'. rewrite hline_eq, in_range_true by assumption.
  pose proof (clip_spec x w (WIDTH st)) as Hclip.
  destruct (clip x w (WIDTH st)) as [x1 w1]. destruct Hclip as [Hiff Hpos].
  destruct (Z.gtb_spec w1 0) as [Hgt | Hle].
  - destruct (Hpos Hgt) as [Hx1 Hxw].
    rewrite apply_ops_buffer. unfold mark_dirty, set_window. cbn [_buffer].
    rewrite hline_ops_lookup by lia. now rewrite Hx1, <- Hxw, <- Hx1.
  - rewrite <- (option_fmap_id' (_buffer st !! _)) at 1.
    apply option_fmap_ext_id. intros b.
    destruct (p' =? y / 8), (Z.leb_spec (Z.max x 0) x'),
      (Z.ltb_spec x' (Z.min (x + w) (WIDTH st))); cbn; try reflexivity; lia.
Qed.

Lemma hline_length (st : Display) (x y w color : Z) :
  length (_buffer (_drawFastHLineInternal st x y w color)) = length (_buffer st).
Proof.
  rewrite hline_eq. destruct (_ && _); [|reflexivity].
  destruct (clip x w (WIDTH st)) as [x1 w1].
  destruct (w1 >? 0); [|reflexivity].
  now rewrite apply_ops_buffer, u8_ops_length.
Qed.

Lemma vline_length (st : Display) (x y h color : Z) :
  length (_buffer (_drawFastVLineInternal st x y h color)) = length (_buffer st).
Proof.
  rewrite vline_eq. destruct (_ && _); [|reflexivity].
  destruct (clip y h (HEIGHT st)) as [y1 h1].
  destruct (h1 >? 0); [|reflexivity].
  now rewrite apply_ops_buffer, u8_ops_length.
Qed.

Lemma hline_frame (st : Display) (x y w color : Z) :
  WIDTH (_drawFastHLineInternal st x y w color) = WIDTH st
  /\ HEIGHT (_drawFastHLineInternal st x y w color) = HEIGHT st
  /\ rotation (_drawFastHLineInternal st x y w color) = rotation st.
Proof.
  rewrite hline_eq. destruct (_ && _); [|repeat split].
  destruct (clip x w (WIDTH st)) as [x1 w1].
  destruct (w1 >? 0); [|repeat split].
  destruct (apply_ops_frame (hline_ops (WIDTH st) x1 y w1 color)
              (mark_dirty st x1 y (x1 + w1 - 1) y)) as (-> & -> & -> & _).
  repeat split.
Qed.

Lemma vline_frame (st : Display) (x y h color : Z) :
  WIDTH (_drawFastVLineInternal st x y h color) = WIDTH st
  /\ HEIGHT (_drawFastVLineInternal st x y h color) = HEIGHT st
  /\ rotation (_drawFastVLineInternal st x y h color) = rotation st.
Proof.
  rewrite vline_eq. destruct (_ && _); [|repeat split].
  destruct (clip y h (HEIGHT st)) as [y1 h1].
  destruct (h1 >? 0); [|repeat split].
  destruct (apply_ops_frame (vline_ops (WIDTH st) x y1 h1 color)
              (mark_dirty st x y1 x (y1 + h1 - 1))) as (-> & -> & -> & _).
  repeat split.
Qed.

(** A cell inside the display is a position of the buffer. *)
Lemma buffer_ok_lookup (st : Display) (x y : Z) :
  buffer_ok st -> 0 <= x < WIDTH st -> 0 <= y < HEIGHT st ->
  is_Some (_buffer st !! Z.to_nat (byte_index (WIDTH st) x (y / 8))).
Proof.
  unfold buffer_ok. intros Hok Hx Hy. apply lookup_lt_is_Some.
  pose proof (Z.div_mod y 8 ltac:(lia)).
  pose proof (Z.mod_pos_bound y 8 ltac:(lia)).
  assert (0 <= y / 8) by (apply Z.div_pos; lia).
  pose proof (byte_index_bound (WIDTH st) (HEIGHT st) x (y / 8) Hx
                ltac:(lia) ltac:(lia)).
  lia.
Qed.

Lemma hline_pixel (st : Display) (x y w color px py : Z) :
  buffer_ok st -> 0 <= y < HEIGHT st -> 0 <= px < WIDTH st -> 0 <= py ->
  getPixel (_drawFastHLineInternal st x y w color) px py
  = if (py =? y) && (x <=? px) && (px <? x + w)
    then pixel_color color (getPixel st px py)
    else getPixel st px py.
Proof.
  intros Hok Hy Hpx Hpy. unfold getPixel.
  destruct (hline_frame st x y w color) as (-> & _ & _).
  pose proof (Z.div_mod py 8 ltac:(lia)) as Hd.
  pose proof (Z.mod_pos_bound py 8 ltac:(lia)) as Hm.
  pose proof (Z.div_mod y 8 ltac:(lia)) as Hdy.
  pose proof (Z.mod_pos_bound y 8 ltac:(lia)) as Hmy.
  assert (Hq : 0 <= py / 8) by (apply Z.div_pos; lia).
  rewrite hline_lookup by lia.
  destruct (Z.eqb_spec py y) as [-> | Hne].
  - rewrite Z.eqb_refl. cbn [andb].
    destruct (buffer_ok_lookup st px y Hok Hpx Hy) as [b ->]. cbn [fmap option_fmap option_map].
    destruct (Z.leb_spec (Z.max x 0) px), (Z.ltb_spec px (Z.min (x + w) (WIDTH st))),
      (Z.leb_spec x px), (Z.ltb_spec px (x + w)); cbn [andb]; try lia;
      try reflexivity.
    rewrite color_op_testbit, Z.eqb_refl by lia. reflexivity.
  - cbn [andb].
    destruct (_buffer st !! Z.to_nat (byte_index (WIDTH st) px (py / 8)))
      as [b|]; [|destruct (_ && _ && _); reflexivity].
    cbn [fmap option_fmap option_map].
    destruct (Z.eqb_spec (py / 8) (y / 8)) as [Hp | Hp]; cbn [andb];
      [|reflexivity].
    destruct ((Z.max x 0 <=? px) && (px <? Z.min (x + w) (WIDTH st)));
      [|reflexivity].
    rewrite color_op_testbit by lia.
    destruct (Z.eqb_spec (py mod 8) (y mod 8)) as [He | Hn];
      [lia | reflexivity].
Qed.

Lemma hline_noop (st : Display) (x y w color : Z) :
  ~ 0 <= y < HEIGHT st \/ Z.min (x + w) (WIDTH st) <= Z.max x 0 ->
  _drawFastHLineInternal st x y w color = st.
Proof.
  intros Hout. rewrite hline_eq.
  destruct (Z.leb_spec 0 y), (Z.ltb_spec y (HEIGHT st)); cbn [andb];
    try reflexivity.
  pose proof (clip_spec x w (WIDTH st)) as Hclip.
  destruct (clip x w (WIDTH st)) as [x1 w1]. destruct Hclip as [Hiff _].
  destruct (Z.gtb_spec w1 0); [lia | reflexivity].
Qed.

Lemma vline_noop (st : Display) (x y h color : Z) :
  ~ 0 <= x < WIDTH st \/ Z.min (y + h) (HEIGHT st) <= Z.max y 0 ->
  _drawFastVLineInternal st x y h color = st.
Proof.
  intros Hout. rewrite vline_eq.
  destruct (Z.leb_spec 0 x), (Z.ltb_spec x (WIDTH st)); cbn [andb];
    try reflexivity.
  pose proof (clip_spec y h (HEIGHT st)) as Hclip.
  destruct (clip y h (HEIGHT st)) as [y1 h1]. destruct Hclip as [Hiff _].
  destruct (Z.gtb_spec h1 0); [lia | reflexivity].
Qed.

(** C5: a horizontal run is clipped exactly to the display.  A run whose row
    is outside, or whose columns all are, changes nothing; otherwise the
    pixels of the run that are inside the display get the colour and every
    other pixel keeps its value.  On a buffer 20 wide the run of length 10
    from [x = -5] writes the pixels 0..4 of its row and no other. *)
Theorem hline_clipping (st : Display) (x y w color : Z) :
  (~ 0 <= y < HEIGHT st -> _drawFastHLineInternal st x y w color = st)
  /\ (x + w <= 0 \/ WIDTH st <= x \/ w <= 0 ->
      _drawFastHLineInternal st x y w color = st)
  /\ (buffer_ok st -> 0 <= y < HEIGHT st ->
      forall px py, 0 <= px < WIDTH st -> 0 <= py ->
        getPixel (_drawFastHLineInternal st x y w color) px py
        = if (py =? y) && (x <=? px) && (px <? x + w)
          then pixel_color color (getPixel st px py)
          else getPixel st px py)
  /\ (buffer_ok st -> WIDTH st = 20 -> 0 <= y < HEIGHT st ->
      forall px py, 0 <= px < 20 -> 0 <= py ->
        getPixel (_drawFastHLineInternal st (-5) y 10 color) px py
        = if (py =? y) && (px <=? 4)
          then pixel_color color (getPixel st px py)
          else getPixel st px py).
Proof.
  split; [|split; [|split]].
  - intros Hy. apply hline_noop. now left.
  - intros Hx. apply hline_noop. right. lia.
  - intros Hok Hy px py Hpx Hpy. now apply hline_pixel.
  - intros Hok HW Hy px py Hpx Hpy.
    rewrite hline_pixel by first [assumption | lia].
    destruct (Z.eqb_spec py y), (Z.leb_spec (-5) px), (Z.ltb_spec px (-5 + 10)),
      (Z.leb_spec px 4); cbn [andb]; try reflexivity; lia.
Qed.

(** ** Indices used by the primitives *)

Lemma stride_ops_Forall (P : Z -> Prop) (n : nat) (index s : Z) (f : byte -> byte) :
  (forall k, 0 <= k < Z.of_nat n -> P (index + k * s)) ->
  Forall P (fst <$> stride_ops n index s f).
Proof.
  revert index. induction n as [|n IH]; intros index HP; [constructor|].
  cbn [stride_ops fmap list_fmap fst]. constructor.
  - replace index with (index + 0 * s) by ring. apply HP. lia.
  - apply IH. intros k Hk.
    replace (index + s + k * s) with (index + (k + 1) * s) by ring.
    apply HP. lia.
Qed.

Lemma color_ops_Forall (P : Z -> Prop) (color index mask : Z) :
  P index -> Forall P (fst <$> color_ops color index mask).
Proof.
  intros HP. unfold color_ops.
  destruct (color =? SSD1315_WHITE); [repeat constructor; exact HP|].
  destruct (color =? SSD1315_BLACK); [repeat constructor; exact HP|].
  destruct (color =? SSD1315_INVERSE); repeat constructor; exact HP.
Qed.

Lemma hline_ops_in_buffer (W H x y w color : Z) :
  0 <= x -> 0 < w -> x + w <= W -> 0 <= y < H ->
  Forall (in_buffer W H) (fst <$> hline_ops W x y w color).
Proof.
  intros Hx Hw Hxw Hy. unfold hline_ops. cbv zeta.
  rewrite Z.quot_div_nonneg by lia. fold (byte_index W x (y / 8)).
  pose proof (Z.div_mod y 8 ltac:(lia)).
  pose proof (Z.mod_pos_bound y 8 ltac:(lia)).
  assert (0 <= y / 8) by (apply Z.div_pos; lia).
  assert (Hk : forall k, 0 <= k < Z.of_nat (Z.to_nat w) ->
                 in_buffer W H (byte_index W x (y / 8) + k * 1)).
  { intros k Hk. replace (byte_index W x (y / 8) + k * 1)
      with (byte_index W (x + k) (y / 8)) by (unfold byte_index; ring).
    apply byte_index_bound; lia. }
  destruct (color =? SSD1315_WHITE); [now apply stride_ops_Forall|].
  destruct (color =? SSD1315_BLACK); [now apply stride_ops_Forall|].
  destruct (color =? SSD1315_INVERSE); [now apply stride_ops_Forall|].
  constructor.
Qed.

Lemma vline_ops_in_buffer (W H x y h color : Z) :
  0 <= x < W -> 0 <= y -> 0 < h -> y + h <= H ->
  Forall (in_buffer W H) (fst <$> vline_ops W x y h color).
Proof.
  intros Hx Hy Hh Hyh. unfold vline_ops. cbv zeta.
  rewrite Z.quot_div_nonneg, land_7_mod by lia.
  fold (byte_index W x (y / 8)).
  pose proof (Z.div_mod y 8 ltac:(lia)) as Hy8.
  pose proof (Z.mod_pos_bound y 8 ltac:(lia)) as Hr8.
  assert (Hp0 : 0 <= y / 8) by (apply Z.div_pos; lia).
  set (p0 := y / 8) in *. set (r := y mod 8) in *. clearbody p0 r.
  assert (Hpre : in_buffer W H (byte_index W x p0))
    by (apply byte_index_bound; lia).
  assert (Htail : forall a index1 p1,
            0 <= a <= h -> 0 <= p1 -> 8 * p1 = y + a ->
            index1 = byte_index W x p1 ->
            Forall (in_buffer W H)
              (fst <$> (stride_ops (Z.to_nat ((h - a) / 8)) index1 W (solid_op color)
                 ++ (if (h - a) mod 8 =? 0 then []
                     else color_ops color (index1 + (h - a) / 8 * W)
                            (nth (Z.to_nat (Z.land ((h - a) mod 8) 7))
                               SSD1315_VLINE_POST_MASK 0))))).
  { intros a index1 p1 Ha Hp1 Hp1a ->.
    pose proof (Z.div_mod (h - a) 8 ltac:(lia)) as Hh8.
    pose proof (Z.mod_pos_bound (h - a) 8 ltac:(lia)) as Ht8.
    assert (Hq : 0 <= (h - a) / 8) by (apply Z.div_pos; lia).
    rewrite byte_index_add.
    set (q := (h - a) / 8) in *. set (t := (h - a) mod 8) in *. clearbody q t.
    rewrite fmap_app. apply Forall_app. split.
    - apply stride_ops_Forall. intros k Hk. rewrite byte_index_add.
      apply byte_index_bound; lia.
    - destruct (Z.eqb_spec t 0); [constructor|].
      apply color_ops_Forall, byte_index_bound; lia. }
  destruct (Z.eqb_spec r 0) as [Hr | Hr].
  - replace (h >=? 0) with true by (symmetry; apply Z.geb_le; lia).
    cbn [app]. apply (Htail 0 _ p0); [lia | lia | lia | reflexivity].
  - destruct (Z.geb_spec h (8 - r)) as [Hge | Hlt].
    + rewrite fmap_app. apply Forall_app. split.
      * now apply color_ops_Forall.
      * apply (Htail (8 - r) _ (p0 + 1)); [lia | lia | lia|].
        apply byte_index_succ.
    + now apply color_ops_Forall.
Qed.

(** C6: whatever the integer arguments, every index the two line primitives
    use on the framebuffer lies in [[0, WIDTH * ceil(HEIGHT / 8))]. *)
Theorem line_accesses_in_bounds (st : Display) (x y len color : Z) :
  (exists new,
     accessed (_drawFastHLineInternal st x y len color) = new ++ accessed st
     /\ Forall (in_buffer (WIDTH st) (HEIGHT st)) new)
  /\ (exists new,
     accessed (_drawFastVLineInternal st x y len color) = new ++ accessed st
     /\ Forall (in_buffer (WIDTH st) (HEIGHT st)) new).
Proof.
  split.
  - rewrite hline_eq.
    destruct (Z.leb_spec 0 y), (Z.ltb_spec y (HEIGHT st)); cbn [andb];
      try (exists []; split; [reflexivity | constructor]).
    pose proof (clip_spec x len (WIDTH st)) as Hclip.
    destruct (clip x len (WIDTH st)) as [x1 w1]. destruct Hclip as [_ Hpos].
    destruct (Z.gtb_spec w1 0) as [Hgt | Hle];
      [|exists []; split; [reflexivity | constructor]].
    destruct (Hpos Hgt) as [Hx1 Hxw].
    eexists. split; [rewrite apply_ops_accessed; reflexivity|].
    apply Forall_reverse, hline_ops_in_buffer; lia.
  - rewrite vline_eq.
    destruct (Z.leb_spec 0 x), (Z.ltb_spec x (WIDTH st)); cbn [andb];
      try (exists []; split; [reflexivity | constructor]).
    pose proof (clip_spec y len (HEIGHT st)) as Hclip.
    destruct (clip y len (HEIGHT st)) as [y1 h1]. destruct Hclip as [_ Hpos].
    destruct (Z.gtb_spec h1 0) as [Hgt | Hle];
      [|exists []; split; [reflexivity | constructor]].
    destruct (Hpos Hgt) as [Hy1 Hyh].
    eexists. split; [rewrite apply_ops_accessed; reflexivity|].
    apply Forall_reverse, vline_ops_in_buffer; lia.
Qed.

(** ** The dirty window *)

Lemma run_draw_frame (st : Display) (d : Draw) :
  WIDTH (run_draw st d) = WIDTH st /\ HEIGHT (run_draw st d) = HEIGHT st
  /\ rotation (run_draw st d) = rotation st.
Proof. destruct d; [apply hline_frame | apply vline_frame]. Qed.

Lemma run_draw_window (st : Display) (d : Draw) :
  window_of (run_draw st d)
  = match touched_rect (WIDTH st) (HEIGHT st) d with
    | Some r => expand (window_of st) r
    | None => window_of st
    end.
Proof.
  destruct d as [x y w color | x y h color]; cbn [run_draw touched_rect].
  - rewrite hline_eq.
    destruct ((0 <=? y) && (y <? HEIGHT st)); cbn [andb]; [|reflexivity].
    pose proof (clip_spec x w (WIDTH st)) as Hclip.
    destruct (clip x w (WIDTH st)) as [x1 w1]. destruct Hclip as [Hiff Hpos].
    destruct (Z.gtb_spec w1 0) as [Hgt | Hle];
      destruct (Z.ltb_spec (Z.max x 0) (Z.min (x + w) (WIDTH st))); try lia;
      [|reflexivity].
    destruct (Hpos Hgt) as [Hx1 Hxw].
    destruct (apply_ops_frame (hline_ops (WIDTH st) x1 y w1 color)
                (mark_dirty st x1 y (x1 + w1 - 1) y)) as (_ & _ & _ & ->).
    unfold mark_dirty, window_of, set_window, expand.
    cbn [window_x1 window_y1 window_x2 window_y2 wx1 wy1 wx2 wy2].
    f_equal; lia.
  - rewrite vline_eq.
    destruct ((0 <=? x) && (x <? WIDTH st)); cbn [andb]; [|reflexivity].
    pose proof (clip_spec y h (HEIGHT st)) as Hclip.
    destruct (clip y h (HEIGHT st)) as [y1 h1]. destruct Hclip as [Hiff Hpos].
    destruct (Z.gtb_spec h1 0) as [Hgt | Hle];
      destruct (Z.ltb_spec (Z.max y 0) (Z.min (y + h) (HEIGHT st))); try lia;
      [|reflexivity].
    destruct (Hpos Hgt) as [Hy1 Hyh].
    destruct (apply_ops_frame (vline_ops (WIDTH st) x y1 h1 color)
                (mark_dirty st x y1 x (y1 + h1 - 1))) as (_ & _ & _ & ->).
    unfold mark_dirty, window_of, set_window, expand.
    cbn [window_x1 window_y1 window_x2 window_y2 wx1 wy1 wx2 wy2].
    f_equal; lia.
Qed.

Lemma draws_frame (ds : list Draw) (st : Display) :
  WIDTH (foldl run_draw st ds) = WIDTH st
  /\ HEIGHT (foldl run_draw st ds) = HEIGHT st.
Proof.
  revert st. induction ds as [|d ds IH]; intros st; [split; reflexivity|].
  cbn [foldl]. destruct (IH (run_draw st d)) as [-> ->].
  destruct (run_draw_frame st d) as (-> & -> & _). split; reflexivity.
Qed.

Lemma draws_window (ds : list Draw) (st : Display) :
  window_of (foldl run_draw st ds)
  = foldl expand (window_of st)
      (omap (touched_rect (WIDTH st) (HEIGHT st)) ds).
Proof.
  revert st. induction ds as [|d ds IH]; intros st; [reflexivity|].
  cbn [foldl omap list_omap]. rewrite IH, run_draw_window.
  destruct (run_draw_frame st d) as (-> & -> & _).
  destruct (touched_rect (WIDTH st) (HEIGHT st) d); reflexivity.
Qed.

Lemma touched_rect_inside (W H : Z) (d : Draw) (r : Window) :
  touched_rect W H d = Some r ->
  0 <= wx1 r <= wx2 r /\ wx2 r < W /\ 0 <= wy1 r <= wy2 r /\ wy2 r < H.
Proof.
  destruct d as [x y w c | x y h c]; cbn [touched_rect];
    destruct (Z.leb_spec 0 y), (Z.ltb_spec y H), (Z.leb_spec 0 x),
      (Z.ltb_spec x W); cbn [andb]; try discriminate;
    match goal with |- context [?a <? ?b] => destruct (Z.ltb_spec a b) end;
    try discriminate; intros [= <-]; cbn [wx1 wx2 wy1 wy2]; lia.
Qed.

Lemma expand_inverted (W H : Z) (win r : Window) :
  inverted_for W H win ->
  0 <= wx1 r <= wx2 r /\ wx2 r < W /\ 0 <= wy1 r <= wy2 r /\ wy2 r < H ->
  expand win r = r.
Proof.
  unfold inverted_for, expand. intros Hinv Hr. destruct r as [a b c d].
  cbn [wx1 wy1 wx2 wy2] in *. f_equal; lia.
Qed.

(** C7: after a sequence of draws the dirty window is the window before
    them grown by the clipped rectangle of every draw that survives
    clipping (min of mins, max of maxes); from an inverted window that is
    the exact bounding box of these rectangles.  [display] leaves the window
    empty and inverted, a second [display] right after it sends nothing, and
    draws after a [display] leave the exact bounding box of their
    rectangles. *)
Theorem dirty_window_tracking `{Adafruit_GrayOLED} (st : Display) (ds : list Draw) :
  let rects := omap (touched_rect (WIDTH st) (HEIGHT st)) ds in
  window_of (foldl run_draw st ds) = foldl expand (window_of st) rects
  /\ (inverted_for (WIDTH st) (HEIGHT st) (window_of st) ->
      forall r rs, rects = r :: rs ->
        window_of (foldl run_draw st ds) = bounding_box r rs)
  /\ (0 <= WIDTH st ->
      window_x2 (snd (display st)) < window_x1 (snd (display st))
      /\ fst (display (snd (display st))) = [])
  /\ inverted_for (WIDTH st) (HEIGHT st) (window_of (snd (display st)))
  /\ (forall r rs, rects = r :: rs ->
        window_of (foldl run_draw (snd (display st)) ds) = bounding_box r rs).
Proof.
  intros rects.
  assert (Hbox : forall s : Display,
    WIDTH s = WIDTH st -> HEIGHT s = HEIGHT st ->
    inverted_for (WIDTH st) (HEIGHT st) (window_of s) ->
    forall r rs, rects = r :: rs ->
      window_of (foldl run_draw s ds) = bounding_box r rs).
  { intros s HW HH Hinv r rs Hrs. rewrite draws_window, HW, HH. fold rects.
    rewrite Hrs. cbn [foldl]. unfold bounding_box. f_equal.
    apply (expand_inverted (WIDTH st) (HEIGHT st)); [assumption|].
    assert (Hin : r ∈ rects) by (rewrite Hrs; left).
    apply list_elem_of_omap in Hin as (d & _ & Hd).
    now apply touched_rect_inside in Hd. }
  assert (Hinv : inverted_for (WIDTH st) (HEIGHT st)
                   (window_of (snd (display st)))).
  { unfold display, _resetDirtyWindow, window_of, set_window, inverted_for.
    cbn [snd window_x1 window_y1 window_x2 window_y2 wx1 wy1 wx2 wy2]. lia. }
  split; [apply draws_window|]. split; [|split; [|split]].
  - now apply Hbox.
  - intros HW. unfold display. cbn [snd fst].
    unfold _resetDirtyWindow, set_window.
    cbn [window_x1 window_x2 window_y1 window_y2 WIDTH _buffer].
    split; [lia|].
    destruct (Z.gtb_spec (-1 - WIDTH st + 1) 0); [lia | reflexivity].
  - exact Hinv.
  - now apply Hbox.
Qed.

(** ** Colours outside BLACK, WHITE, INVERSE *)

Lemma invalid_color_tests (color : Z) :
  ~ valid_color color ->
  (color =? SSD1315_WHITE) = false /\ (color =? SSD1315_BLACK) = false
  /\ (color =? SSD1315_INVERSE) = false.
Proof.
  unfold valid_color. intros Hc.
  repeat split; apply Z.eqb_neq; intros ->; apply Hc; auto.
Qed.

Lemma vline_lookup (st : Display) (x y h color x' p' : Z) :
  0 <= x < WIDTH st -> 0 <= x' < WIDTH st -> 0 <= p' ->
  let lo := Z.max y 0 in
  let hi := Z.min (y + h) (HEIGHT st) in
  _buffer (_drawFastVLineInternal st x y h color)
    !! Z.to_nat (byte_index (WIDTH st) x' p')
  = (if x' =? x then vline_page_op color lo (hi - lo) p' else fun b => b)
      <$> _buffer st !! Z.to_nat (byte_index (WIDTH st) x' p').
Proof.
  intros Hx Hx' Hp' lo hi. subst lo hi.
  rewrite vline_eq, in_range_true by assumption.
  pose proof (clip_spec y h (HEIGHT st)) as Hclip.
  destruct (clip y h (HEIGHT st)) as [y1 h1]. destruct Hclip as [Hiff Hpos].
  destruct (Z.gtb_spec h1 0) as [Hgt | Hle].
  - destruct (Hpos Hgt) as [Hy1 Hyh].
    rewrite apply_ops_buffer. unfold mark_dirty, set_window. cbn [_buffer].
    rewrite vline_ops_lookup by lia.
    replace (Z.min (y + h) (HEIGHT st) - Z.max y 0) with h1 by lia.
    now rewrite Hy1.
  - rewrite <- (option_fmap_id' (_buffer st !! _)) at 1.
    apply option_fmap_ext_id. intros b.
    destruct (x' =? x); [|reflexivity].
    unfold vline_page_op, page_op, page_lo, page_hi.
    split_tests; try reflexivity; lia.
Qed.

(** C10, as the code has it: with a colour other than BLACK, WHITE and
    INVERSE a run that survives clipping still grows the dirty window by its
    clipped rectangle.  A horizontal run leaves every byte unchanged.  A
    vertical run leaves every byte unchanged except the bytes whose eight
    rows all belong to the run: the whole-byte loop stores 0xFF there. *)
Theorem invalid_color_runs (st : Display) (x y len color : Z) (r : Window) :
  ~ valid_color color ->
  (touched_rect (WIDTH st) (HEIGHT st) (HRun x y len color) = Some r ->
     _buffer (_drawFastHLineInternal st x y len color) = _buffer st
     /\ window_of (_drawFastHLineInternal st x y len color)
        = expand (window_of st) r)
  /\ (touched_rect (WIDTH st) (HEIGHT st) (VRun x y len color) = Some r ->
     window_of (_drawFastVLineInternal st x y len color)
       = expand (window_of st) r
     /\ length (_buffer (_drawFastVLineInternal st x y len color))
        = length (_buffer st)
     /\ (forall x' p', 0 <= x' < WIDTH st -> 0 <= p' ->
           _buffer (_drawFastVLineInternal st x y len color)
             !! Z.to_nat (byte_index (WIDTH st) x' p')
           = (if (x' =? x) && (wy1 r <=? 8 * p') && (8 * p' + 7 <=? wy2 r)
              then fun _ => Byte.xff else fun b => b)
               <$> _buffer st !! Z.to_nat (byte_index (WIDTH st) x' p'))
     /\ ((forall p', ~ (wy1 r <= 8 * p' /\ 8 * p' + 7 <= wy2 r)) ->
         _buffer (_drawFastVLineInternal st x y len color) = _buffer st)).
Proof.
  intros Hc. destruct (invalid_color_tests color Hc) as (HcW & HcB & HcI).
  split.
  - intros Hr. split.
    + rewrite hline_eq. destruct (_ && _); [|reflexivity].
      destruct (clip x len (WIDTH st)) as [x1 w1].
      destruct (w1 >? 0); [|reflexivity].
      rewrite apply_ops_buffer. unfold hline_ops. rewrite HcW, HcB, HcI.
      reflexivity.
    + pose proof (run_draw_window st (HRun x y len color)) as Hw.
      cbn [run_draw] in Hw. now rewrite Hr in Hw.
  - intros Hr.
    assert (Hbytes :
      forall x' p', 0 <= x' < WIDTH st -> 0 <= p' ->
        _buffer (_drawFastVLineInternal st x y len color)
          !! Z.to_nat (byte_index (WIDTH st) x' p')
        = (if (x' =? x) && (wy1 r <=? 8 * p') && (8 * p' + 7 <=? wy2 r)
           then fun _ => Byte.xff else fun b => b)
            <$> _buffer st !! Z.to_nat (byte_index (WIDTH st) x' p')).
    { intros x' p' Hx' Hp'. cbn [touched_rect] in Hr.
      destruct (Z.leb_spec 0 x), (Z.ltb_spec x (WIDTH st)); cbn [andb] in Hr;
        try discriminate.
      destruct (Z.ltb_spec (Z.max y 0) (Z.min (y + len) (HEIGHT st)));
        [|discriminate].
      injection Hr as <-. cbn [wy1 wy2].
      rewrite vline_lookup by lia. apply option_fmap_ext_id. intros b.
      destruct (Z.eqb_spec x' x) as [-> | Hne]; cbn [andb]; [|reflexivity].
      unfold vline_page_op, page_op, color_op, solid_op, page_lo, page_hi.
      rewrite HcW, HcB, HcI. cbn [negb].
      split_tests; cbn [andb]; try reflexivity; lia. }
    split; [|split; [apply vline_length | split; [exact Hbytes|]]].
    + pose proof (run_draw_window st (VRun x y len color)) as Hw.
      cbn [run_draw] in Hw. now rewrite Hr in Hw.
    + intros Hnone. apply list_eq. intros i.
      assert (HW : 0 < WIDTH st).
      { apply touched_rect_inside in Hr. cbn [touched_rect] in Hr. lia. }
      destruct (position_cell (WIDTH st) i HW) as (Hcx & Hcp & ->).
      rewrite Hbytes by assumption.
      rewrite <- (option_fmap_id' (_buffer st !! _)) at 2.
      apply option_fmap_ext_id. intros b.
      destruct (_ =? x), (Z.leb_spec (wy1 r) (8 * (Z.of_nat i / WIDTH st))),
        (Z.leb_spec (8 * (Z.of_nat i / WIDTH st) + 7) (wy2 r)); cbn [andb];
        try reflexivity.
      exfalso. eapply Hnone. eauto.
Qed.

(** C10, as the claim states it, fails for a vertical run: with colour 3 the
    run of 8 rows from (0, 0) turns the first byte of an empty 128x64 buffer
    into 0xFF. *)
Lemma invalid_color_vline_fills_byte :
  let st := example_display 128 64 0 in
  _buffer (_drawFastVLineInternal st 0 0 8 3) <> _buffer st.
Proof.
  intros st Heq. apply (f_equal (fun l => l !! 0%nat)) in Heq.
  vm_compute in Heq. discriminate.
Qed.

(** ** Pixels under the three colours *)

Lemma vline_pixel (st : Display) (x y h color px py : Z) :
  buffer_ok st -> valid_color color ->
  0 <= px < WIDTH st -> 0 <= py < HEIGHT st ->
  getPixel (_drawFastVLineInternal st x y h color) px py
  = if (px =? x) && (y <=? py) && (py <? y + h)
    then pixel_color color (getPixel st px py)
    else getPixel st px py.
Proof.
  intros Hok Hc Hpx Hpy.
  destruct (Z.eqb_spec px x) as [-> | Hne]; cbn [andb].
  2: { destruct (Z.le_gt_cases 0 x), (Z.lt_ge_cases x (WIDTH st));
         try (rewrite vline_noop by (left; lia); reflexivity).
       unfold getPixel. destruct (vline_frame st x y h color) as (-> & _ & _).
       pose proof (Z.div_pos py 8 ltac:(lia) ltac:(lia)).
       rewrite vline_lookup by lia.
       destruct (Z.eqb_spec px x); [lia|]. now rewrite option_fmap_id'. }
  unfold getPixel. destruct (vline_frame st x y h color) as (-> & _ & _).
  pose proof (Z.div_mod py 8 ltac:(lia)) as Hd.
  pose proof (Z.mod_pos_bound py 8 ltac:(lia)) as Hm.
  assert (Hq : 0 <= py / 8) by (apply Z.div_pos; lia).
  rewrite vline_lookup, Z.eqb_refl by lia.
  destruct (buffer_ok_lookup st x py Hok Hpx Hpy) as [b ->].
  cbn [fmap option_fmap option_map].
  rewrite vline_page_op_valid by assumption.
  unfold page_op, page_lo, page_hi.
  set (p := py / 8) in *. set (i := py mod 8) in *. clearbody p i.
  match goal with |- context [if ?a <=? ?c then _ else _] =>
    destruct (Z.leb_spec a c) end.
  - destruct (Z.leb_spec y py), (Z.ltb_spec py (y + h)); cbn [andb];
      try reflexivity; lia.
  - rewrite color_op_run_testbit by lia.
    destruct (Z.leb_spec y py), (Z.ltb_spec py (y + h)); cbn [andb];
      split_tests; cbn [andb]; try reflexivity; lia.
Qed.

Lemma run_draw_buffer_ok (st : Display) (d : Draw) :
  buffer_ok st -> buffer_ok (run_draw st d).
Proof.
  unfold buffer_ok. intros Hok.
  destruct (run_draw_frame st d) as (-> & -> & _).
  destruct d; cbn [run_draw]; [rewrite hline_length | rewrite vline_length];
    exact Hok.
Qed.

Lemma run_draw_pixel (st : Display) (d : Draw) (px py : Z) :
  buffer_ok st -> valid_color (draw_color d) ->
  0 <= px < WIDTH st -> 0 <= py < HEIGHT st ->
  getPixel (run_draw st d) px py
  = if covers d px py then pixel_color (draw_color d) (getPixel st px py)
    else getPixel st px py.
Proof.
  intros Hok Hc Hpx Hpy. destruct d as [x y w c | x y h c];
    cbn [run_draw covers draw_color] in *.
  - destruct (Z.le_gt_cases 0 y), (Z.lt_ge_cases y (HEIGHT st));
      try (rewrite hline_noop by (left; lia);
           destruct (Z.eqb_spec py y); [lia | reflexivity]).
    apply hline_pixel; first [assumption | lia].
  - now apply vline_pixel.
Qed.

Lemma draws_pixel_parity (ds : list Draw) (st : Display) (px py : Z) :
  buffer_ok st -> 0 <= px < WIDTH st -> 0 <= py < HEIGHT st ->
  Forall (inverse_at px py) ds ->
  getPixel (foldl run_draw st ds) px py
  = if Nat.even (toggles ds px py) then getPixel st px py
    else negb (getPixel st px py).
Proof.
  revert st. induction ds as [|d ds IH]; intros st Hok Hpx Hpy Hall;
    [reflexivity|].
  apply Forall_cons in Hall as [[Hvalid Hinv] Hall]. cbn [foldl].
  destruct (run_draw_frame st d) as (HW & HH & _).
  rewrite IH; [|now apply run_draw_buffer_ok | rewrite HW; lia
               | rewrite HH; lia | assumption].
  rewrite run_draw_pixel by assumption.
  unfold toggles. cbn [List.filter].
  destruct (covers d px py) eqn:Hcov; [|reflexivity].
  rewrite (Hinv eq_refl). cbn [length]. rewrite Nat.even_succ, <- Nat.negb_even.
  unfold pixel_color, SSD1315_INVERSE, SSD1315_WHITE, SSD1315_BLACK.
  cbn [Z.eqb Pos.eqb].
  destruct (Nat.even _), (getPixel st px py); reflexivity.
Qed.

(** ** INVERSE twice *)

Lemma vline_page_op_inverse_twice (y h p : Z) (b : byte) :
  vline_page_op SSD1315_INVERSE y h p (vline_page_op SSD1315_INVERSE y h p b) = b.
Proof.
  unfold vline_page_op, page_op, solid_op, color_op, SSD1315_INVERSE,
    SSD1315_WHITE, SSD1315_BLACK. cbn [Z.eqb Pos.eqb].
  destruct (_ =? 8); [apply xor_byte_involutive|].
  destruct (_ <=? _); [reflexivity | apply xor_byte_involutive].
Qed.

Lemma run_draw_inverse_twice (st : Display) (d : Draw) :
  draw_color d = SSD1315_INVERSE ->
  _buffer (run_draw (run_draw st d) d) = _buffer st.
Proof.
  destruct d as [x y w c | x y h c]; cbn [draw_color run_draw]; intros ->.
  - destruct (Z.le_gt_cases 0 y), (Z.lt_ge_cases y (HEIGHT st)),
      (Z.lt_ge_cases (Z.max x 0) (Z.min (x + w) (WIDTH st)));
      try (rewrite !(hline_noop st) by lia; reflexivity).
    destruct (hline_frame st x y w SSD1315_INVERSE) as (HW & HH & _).
    set (st1 := _drawFastHLineInternal st x y w SSD1315_INVERSE) in *.
    apply list_eq. intros i.
    destruct (position_cell (WIDTH st) i ltac:(lia)) as (Hcx & Hcp & ->).
    rewrite <- HW at 1. rewrite hline_lookup by (rewrite ?HW, ?HH; lia).
    rewrite HW. subst st1. rewrite hline_lookup by lia.
    rewrite <- option_fmap_compose.
    rewrite <- (option_fmap_id' (_buffer st !! _)) at 2.
    apply option_fmap_ext_id. intros b. cbn [compose].
    destruct (_ && _ && _); [|reflexivity].
    unfold color_op, SSD1315_INVERSE, SSD1315_WHITE, SSD1315_BLACK.
    cbn [Z.eqb Pos.eqb]. apply xor_byte_involutive.
  - destruct (Z.le_gt_cases 0 x), (Z.lt_ge_cases x (WIDTH st));
      try (rewrite !(vline_noop st) by lia; reflexivity).
    destruct (vline_frame st x y h SSD1315_INVERSE) as (HW & HH & _).
    set (st1 := _drawFastVLineInternal st x y h SSD1315_INVERSE) in *.
    apply list_eq. intros i.
    destruct (position_cell (WIDTH st) i ltac:(lia)) as (Hcx & Hcp & ->).
    rewrite <- HW at 1. rewrite vline_lookup by (rewrite ?HW, ?HH; lia).
    rewrite HW, HH. subst st1. rewrite vline_lookup by lia.
    rewrite <- option_fmap_compose.
    rewrite <- (option_fmap_id' (_buffer st !! _)) at 2.
    apply option_fmap_ext_id. intros b. cbn [compose].
    destruct (_ =? x); [|reflexivity].
    apply vline_page_op_inverse_twice.
Qed.

(** The public calls are one of the two primitives on mapped coordinates,
    the same one for every display of the same geometry and rotation. *)
Lemma drawFastHLine_run (st : Display) (x y len color : Z) :
  exists d, draw_color d = color
    /\ forall st', WIDTH st' = WIDTH st -> HEIGHT st' = HEIGHT st ->
         rotation st' = rotation st ->
         drawFastHLine st' x y len color = run_draw st' d.
Proof.
  destruct (xor_swap x y) as [x1 y1] eqn:Hswap.
  destruct (rotation st =? 1) eqn:H1; [|destruct (rotation st =? 2) eqn:H2;
    [|destruct (rotation st =? 3) eqn:H3]].
  - exists (VRun (js_sub (js_sub (WIDTH st) x1) 1) y1 len color). split; [reflexivity|].
    intros st' HW HH HR. unfold drawFastHLine. now rewrite HR, H1, Hswap, HW.
  - exists (HRun (js_sub (js_sub (js_sub (WIDTH st) x) 1) (js_sub len 1))
                  (js_sub (js_sub (HEIGHT st) y) 1) len color).
    split; [reflexivity|].
    intros st' HW HH HR. unfold drawFastHLine. now rewrite HR, H1, H2, HW, HH.
  - exists (VRun x1 (js_sub (js_sub (js_sub (HEIGHT st) y1) 1) (js_sub len 1))
                  len color).
    split; [reflexivity|].
    intros st' HW HH HR. unfold drawFastHLine.
    now rewrite HR, H1, H2, H3, Hswap, HH.
  - exists (HRun x y len color). split; [reflexivity|].
    intros st' HW HH HR. unfold drawFastHLine. now rewrite HR, H1, H2, H3.
Qed.

Lemma drawFastVLine_run (st : Display) (x y len color : Z) :
  exists d, draw_color d = color
    /\ forall st', WIDTH st' = WIDTH st -> HEIGHT st' = HEIGHT st ->
         rotation st' = rotation st ->
         drawFastVLine st' x y len color = run_draw st' d.
Proof.
  destruct (xor_swap x y) as [x1 y1] eqn:Hswap.
  destruct (rotation st =? 1) eqn:H1; [|destruct (rotation st =? 2) eqn:H2;
    [|destruct (rotation st =? 3) eqn:H3]].
  - exists (HRun (js_sub (js_sub (js_sub (WIDTH st) x1) 1) (js_sub len 1)) y1
                  len color).
    split; [reflexivity|].
    intros st' HW HH HR. unfold drawFastVLine. now rewrite HR, H1, Hswap, HW.
  - exists (VRun (js_sub (js_sub (WIDTH st) x) 1)
                  (js_sub (js_sub (js_sub (HEIGHT st) y) 1) (js_sub len 1))
                  len color).
    split; [reflexivity|].
    intros st' HW HH HR. unfold drawFastVLine. now rewrite HR, H1, H2, HW, HH.
  - exists (HRun x1 (js_sub (js_sub (HEIGHT st) y1) 1) len color). split; [reflexivity|].
    intros st' HW HH HR. unfold drawFastVLine.
    now rewrite HR, H1, H2, H3, Hswap, HH.
  - exists (VRun x y len color). split; [reflexivity|].
    intros st' HW HH HR. unfold drawFastVLine. now rewrite HR, H1, H2, H3.
Qed.

(** C9: take a pixel of the display and draws in the three colours of which
    those that pass over the pixel are INVERSE and even in number.  After a
    WHITE draw over the pixel and these draws the pixel is set, and a BLACK
    draw over it then leaves the bit 0.  Two successive INVERSE draws of the
    same run restore the buffer, for the two primitives and for the two
    public calls under any rotation. *)
Theorem toggle_parity_and_involution :
  (forall (st : Display) (dW dB : Draw) (ds : list Draw) (px py : Z),
     buffer_ok st -> 0 <= px < WIDTH st -> 0 <= py < HEIGHT st ->
     draw_color dW = SSD1315_WHITE -> covers dW px py = true ->
     Forall (inverse_at px py) ds -> Nat.even (toggles ds px py) = true ->
     draw_color dB = SSD1315_BLACK -> covers dB px py = true ->
     getPixel (foldl run_draw st (dW :: ds)) px py = true
     /\ getPixel (foldl run_draw st (dW :: ds ++ [dB])) px py = false)
  /\ (forall (st : Display) (d : Draw),
     draw_color d = SSD1315_INVERSE ->
     _buffer (run_draw (run_draw st d) d) = _buffer st)
  /\ (forall (st : Display) (x y len : Z),
     _buffer (drawFastHLine (drawFastHLine st x y len SSD1315_INVERSE)
                x y len SSD1315_INVERSE) = _buffer st
     /\ _buffer (drawFastVLine (drawFastVLine st x y len SSD1315_INVERSE)
                   x y len SSD1315_INVERSE) = _buffer st).
Proof.
  split; [|split].
  - intros st dW dB ds px py Hok Hpx Hpy HcW HW Hall Heven HcB HB.
    assert (Hok1 : buffer_ok (run_draw st dW)) by now apply run_draw_buffer_ok.
    destruct (run_draw_frame st dW) as (HW1 & HH1 & _).
    assert (Hset : getPixel (foldl run_draw st (dW :: ds)) px py = true).
    { cbn [foldl]. rewrite draws_pixel_parity, Heven
        by first [assumption | rewrite ?HW1, ?HH1; lia].
      rewrite run_draw_pixel, HW, HcW
        by first [assumption | rewrite HcW; right; left; reflexivity].
      reflexivity. }
    split; [exact Hset|].
    change (dW :: ds ++ [dB]) with ((dW :: ds) ++ [dB]).
    rewrite foldl_app.
    destruct (draws_frame (dW :: ds) st) as [HWn HHn].
    assert (Hokn : buffer_ok (foldl run_draw st (dW :: ds))).
    { clear -Hok. generalize (dW :: ds). intros l. revert st Hok.
      induction l as [|d l IH]; intros st Hok; [exact Hok|].
      cbn [foldl]. apply IH. now apply run_draw_buffer_ok. }
    set (stn := foldl run_draw st (dW :: ds)) in *. cbn [foldl].
    rewrite run_draw_pixel, HB, HcB;
      [reflexivity | exact Hokn | rewrite HcB; left; reflexivity
       | rewrite HWn; lia | rewrite HHn; lia].
  - apply run_draw_inverse_twice.
  - intros st x y len. split.
    + destruct (drawFastHLine_run st x y len SSD1315_INVERSE) as (d & Hd & Hrun).
      rewrite (Hrun st) by reflexivity.
      destruct (run_draw_frame st d) as (HW & HH & HR).
      rewrite (Hrun (run_draw st d)) by assumption.
      now apply run_draw_inverse_twice.
    + destruct (drawFastVLine_run st x y len SSD1315_INVERSE) as (d & Hd & Hrun).
      rewrite (Hrun st) by reflexivity.
      destruct (run_draw_frame st d) as (HW & HH & HR).
      rewrite (Hrun (run_draw st d)) by assumption.
      now apply run_draw_inverse_twice.
Qed.

(** ** The flush *)

Lemma subarray_inside (buf : list byte) (i n : Z) :
  0 <= i -> 0 <= n -> i + n <= Z.of_nat (length buf) ->
  subarray buf i (i + n) = take (Z.to_nat n) (drop (Z.to_nat i) buf).
Proof.
  intros Hi Hn Hlen. unfold subarray, clamp_index.
  destruct (Z.ltb_spec i 0), (Z.ltb_spec (i + n) 0); try lia.
  do 2 f_equal; lia.
Qed.

Lemma page_columns_slice (buf : list byte) (W page x1 x2 : Z) :
  0 <= x1 -> x1 <= x2 + 1 -> 0 <= byte_index W x1 page ->
  byte_index W x1 page + (x2 - x1 + 1) <= Z.of_nat (length buf) ->
  take (Z.to_nat (x2 - x1 + 1)) (drop (Z.to_nat (byte_index W x1 page)) buf)
  = page_columns buf W page x1 x2.
Proof.
  intros Hx1 Hx2 Hidx Hlen. unfold page_columns. apply list_eq. intros k.
  rewrite list_lookup_fmap.
  destruct (Nat.lt_ge_cases k (Z.to_nat (x2 - x1 + 1))) as [Hk | Hk].
  - rewrite lookup_take_lt, lookup_drop, lookup_seqZ_lt by lia.
    cbn [fmap option_fmap option_map]. rewrite nth_lookup.
    replace (Z.to_nat (byte_index W (x1 + Z.of_nat k) page))
      with (Z.to_nat (byte_index W x1 page) + k)%nat
      by (unfold byte_index in *; lia).
    destruct (lookup_lt_is_Some_2 buf (Z.to_nat (byte_index W x1 page) + k)
                ltac:(lia)) as [b ->].
    reflexivity.
  - rewrite lookup_take_ge, lookup_seqZ_ge by lia. reflexivity.
Qed.

Lemma display_loop_pages (pages : nat) (buf : list byte) (W H x1 x2 page : Z) :
  Z.of_nat (length buf) = buffer_size W H ->
  0 <= x1 <= x2 -> x2 < W -> 0 <= page ->
  8 * (page + Z.of_nat pages - 1) < H ->
  display_loop pages buf W x1 (x2 - x1 + 1) page (byte_index W x1 page)
  = concat (page_transfer buf W x1 x2 <$> seqZ page (Z.of_nat pages)).
Proof.
  intros Hlen Hx12 Hx2 Hpage. revert page Hpage.
  induction pages as [|pages IH]; intros page Hpage Hlast; [reflexivity|].
  rewrite seqZ_cons by lia. cbn [display_loop fmap list_fmap concat].
  unfold page_transfer at 1. cbn [app].
  pose proof (byte_index_bound W H x1 page ltac:(lia) Hpage ltac:(lia)) as Hb1.
  pose proof (byte_index_bound W H x2 page ltac:(lia) Hpage ltac:(lia)) as Hb2.
  assert (Hend : byte_index W x1 page + (x2 - x1 + 1) <= Z.of_nat (length buf))
    by (unfold byte_index in *; lia).
  rewrite subarray_inside, page_columns_slice by lia.
  replace (x1 + (x2 - x1 + 1) - 1) with x2 by lia.
  do 2 f_equal. rewrite byte_index_succ.
  replace (Z.pred (Z.of_nat (S pages))) with (Z.of_nat pages) by lia.
  change (Z.succ page) with (page + 1).
  apply IH; lia.
Qed.

(** C2, as the code has it: for a dirty window inside the display [display]
    goes through the pages [window_y1 / 8 .. window_y2 / 8] in order and, for
    each, sends one command list, with page-address range from the page to
    the page plus one and column-address range [window_x1 .. window_x2],
    followed by one data block with the bytes of that page in these columns.
    After the single pixel (0, 0) is set on a freshly reset window, the flush
    sends one command list, for page 0, and one data block of one byte. *)
Theorem display_pages `{Adafruit_GrayOLED} (st : Display) :
  buffer_ok st ->
  (0 <= window_x1 st <= window_x2 st -> window_x2 st < WIDTH st ->
   0 <= window_y1 st -> 0 <= window_y2 st < HEIGHT st ->
   fst (display st)
   = concat (page_transfer (_buffer st) (WIDTH st) (window_x1 st) (window_x2 st)
               <$> seqZ (window_y1 st / 8)
                     (window_y2 st / 8 - window_y1 st / 8 + 1)))
  /\ (0 < WIDTH st -> 0 < HEIGHT st ->
      inverted_for (WIDTH st) (HEIGHT st) (window_of st) ->
      exists b,
        fst (display (_drawFastHLineInternal st 0 0 1 SSD1315_WHITE))
        = [CommandList [SSD1315_PAGE_ADDR; 0; 1; SSD1315_COLUMN_ADDR; 0; 0];
           Data [b]]
        /\ Z.testbit (byte.unsigned b) 0 = true).
Proof.
  intros Hok.
  assert (Hgen : forall s : Display, buffer_ok s ->
    0 <= window_x1 s <= window_x2 s -> window_x2 s < WIDTH s ->
    0 <= window_y1 s -> 0 <= window_y2 s < HEIGHT s ->
    fst (display s)
    = concat (page_transfer (_buffer s) (WIDTH s) (window_x1 s) (window_x2 s)
                <$> seqZ (window_y1 s / 8)
                      (window_y2 s / 8 - window_y1 s / 8 + 1))).
  { intros s Hs Hx12 Hx2 Hy1 Hy2. unfold display. cbn [fst].
    rewrite !Z.quot_div_nonneg by lia.
    destruct (Z.gtb_spec (window_x2 s - window_x1 s + 1) 0); [|lia].
    fold (byte_index (WIDTH s) (window_x1 s) (window_y1 s / 8)).
    assert (0 <= window_y1 s / 8) by (apply Z.div_pos; lia).
    pose proof (Z.div_mod (window_y2 s) 8 ltac:(lia)).
    pose proof (Z.mod_pos_bound (window_y2 s) 8 ltac:(lia)).
    destruct (Z.le_gt_cases (window_y2 s / 8 + 1 - window_y1 s / 8) 0) as [Hn | Hp].
    - rewrite Z2Nat.nonpos by lia. unfold seqZ. rewrite Z2Nat.nonpos by lia.
      reflexivity.
    - rewrite (display_loop_pages _ _ _ (HEIGHT s) _ (window_x2 s))
        by first [exact Hs | lia].
      do 3 f_equal. lia. }
  split; [now apply Hgen|].
  intros HW HH Hinv.
  set (st1 := _drawFastHLineInternal st 0 0 1 SSD1315_WHITE).
  destruct (hline_frame st 0 0 1 SSD1315_WHITE) as (HW1 & HH1 & _).
  pose proof (run_draw_window st (HRun 0 0 1 SSD1315_WHITE)) as Hwin.
  cbn [run_draw touched_rect] in Hwin. fold st1 in Hwin, HW1, HH1.
  rewrite (in_range_true 0 (HEIGHT st)) in Hwin by lia.
  replace (Z.max 0 0 <? Z.min (0 + 1) (WIDTH st)) with true in Hwin
    by (symmetry; apply Z.ltb_lt; lia).
  cbn [andb] in Hwin.
  rewrite (expand_inverted (WIDTH st) (HEIGHT st)) in Hwin
    by (try assumption; cbn [wx1 wx2 wy1 wy2]; lia).
  injection Hwin as Hx1 Hy1 Hx2 Hy2.
  replace (Z.max 0 0) with 0 in * by reflexivity.
  replace (Z.min (0 + 1) (WIDTH st) - 1) with 0 in Hx2 by lia.
  assert (Hok1 : buffer_ok st1)
    by (apply (run_draw_buffer_ok st (HRun 0 0 1 SSD1315_WHITE) Hok)).
  rewrite Hgen by first [exact Hok1 | rewrite ?Hx1, ?Hx2, ?Hy1, ?Hy2, ?HW1, ?HH1; lia].
  rewrite Hx1, Hx2, Hy1, Hy2, HW1.
  change (seqZ (0 / 8) (0 / 8 - 0 / 8 + 1)) with [0].
  cbn [fmap list_fmap concat app]. unfold page_transfer, page_columns.
  change (seqZ 0 (0 - 0 + 1)) with [0]. cbn [fmap list_fmap].
  eexists. split; [reflexivity|].
  pose proof (hline_pixel st 0 0 1 SSD1315_WHITE 0 0 Hok ltac:(lia) ltac:(lia)
                ltac:(lia)) as Hpix.
  fold st1 in Hpix. unfold getPixel in Hpix at 1. rewrite HW1 in Hpix.
  destruct (buffer_ok_lookup st1 0 0 Hok1 ltac:(lia) ltac:(lia)) as [b Hb].
  rewrite HW1 in Hb. rewrite Hb in Hpix. rewrite nth_lookup.
  change (0 / 8) with 0 in Hb. rewrite Hb. cbn [default].
  exact Hpix.
Qed.

(** C2, as the claim states it, fails on the page-address range: after the
    pixel (0, 0) is set the command list for page 0 carries the end page 1,
    so it is not the list with start and end both 0. *)
Lemma display_page_range_ends_one_past :
  let st := example_display 128 64 0 in
  command_bytes
    (fst (@display example_base
            (_drawFastHLineInternal st 0 0 1 SSD1315_WHITE)) !! 0%nat)
  <> [SSD1315_PAGE_ADDR; 0; 0; SSD1315_COLUMN_ADDR; 0; 0].
Proof. vm_compute. discriminate. Qed.

(** * The theorems at concrete inputs *)

(** The scrolls of a 128x64 display. *)
Lemma scroll_increments_witness :
  Z.land (HEIGHT (example_display 128 64 0)) 0xFF <> 0
  /\ scroll_horizontal_increment
       (startscrollleft (example_display 128 64 0) 0 15) = Some 0x01
  /\ Z.min 1 (Z.land (HEIGHT (example_display 128 64 0)) 0xFF) = 1.
Proof.
  assert (Hh : Z.land (HEIGHT (example_display 128 64 0)) 0xFF <> 0)
    by (vm_compute; discriminate).
  destruct (scroll_increments (example_display 128 64 0) 0 15)
    as (Hl & _ & _ & _ & _ & Hd).
  split; [exact Hh|]. split; [rewrite Hl; reflexivity | exact (Hd Hh)].
Defined.

(** Startup of a 128x64 display on the charge pump. *)
Lemma begin_contrast_and_charge_pump_witness :
  WIDTH (example_display 128 64 0) = 128
  /\ HEIGHT (example_display 128 64 0) = 64
  /\ _vccSelection (example_display 128 64 0) <> SSD1315_EXTERNALVCC
  /\ begin_contrast (fst (@begin example_base (example_display 128 64 0)))
     = Some 0xCF
  /\ begin_charge_pump (fst (@begin example_base (example_display 128 64 0)))
     = Some 0x14.
Proof.
  assert (Hv : _vccSelection (example_display 128 64 0) <> SSD1315_EXTERNALVCC)
    by (vm_compute; discriminate).
  split; [reflexivity|]. split; [reflexivity|]. split; [exact Hv|].
  exact (proj2 (proj1 (@begin_contrast_and_charge_pump example_base
                         (example_display 128 64 0) eq_refl) eq_refl Hv)).
Defined.

(** A vertical INVERSE run over four pages of a 128x64 display. *)
Lemma vline_refines_naive_witness :
  0 <= 3 < WIDTH (example_display 128 64 0)
  /\ valid_color SSD1315_INVERSE
  /\ _buffer (_drawFastVLineInternal (example_display 128 64 0) 3 2 29
                SSD1315_INVERSE)
     = naive_vline 128 64 (_buffer (example_display 128 64 0)) 3 2 29
         SSD1315_INVERSE.
Proof.
  assert (Hx : 0 <= 3 < WIDTH (example_display 128 64 0)) by (cbn; lia).
  assert (Hc : valid_color SSD1315_INVERSE) by (right; right; reflexivity).
  split; [exact Hx|]. split; [exact Hc|].
  exact (vline_refines_naive (example_display 128 64 0) 3 2 29 SSD1315_INVERSE
           Hx Hc).
Defined.

(** The run of length 10 from x = -5 on a buffer 20 wide: pixel 4 is
    written, pixel 5 is not. *)
Lemma hline_clipping_witness :
  buffer_ok (example_display 20 16 0)
  /\ WIDTH (example_display 20 16 0) = 20
  /\ 0 <= 3 < HEIGHT (example_display 20 16 0)
  /\ getPixel (_drawFastHLineInternal (example_display 20 16 0) (-5) 3 10
                 SSD1315_WHITE) 4 3 = true
  /\ getPixel (_drawFastHLineInternal (example_display 20 16 0) (-5) 3 10
                 SSD1315_WHITE) 5 3 = false.
Proof.
  assert (Hok : buffer_ok (example_display 20 16 0)) by reflexivity.
  assert (Hy : 0 <= 3 < HEIGHT (example_display 20 16 0)) by (cbn; lia).
  destruct (hline_clipping (example_display 20 16 0) 0 3 0 SSD1315_WHITE)
    as (_ & _ & _ & H20).
  split; [exact Hok|]. split; [reflexivity|]. split; [exact Hy|]. split.
  - exact (H20 Hok eq_refl Hy 4 3 ltac:(lia) ltac:(lia)).
  - exact (H20 Hok eq_refl Hy 5 3 ltac:(lia) ltac:(lia)).
Defined.

(** Three draws from the reset state, the last one clipped away, then two
    flushes in a row. *)
Lemma dirty_window_tracking_witness :
  inverted_for 128 64 (window_of (example_display 128 64 0))
  /\ 0 <= WIDTH (example_display 128 64 0)
  /\ window_of (foldl run_draw (example_display 128 64 0)
                  [HRun 2 3 5 SSD1315_WHITE; VRun 10 (-4) 25 SSD1315_WHITE;
                   HRun 200 3 5 SSD1315_WHITE])
     = bounding_box (mkWindow 2 3 6 3) [mkWindow 10 0 10 20]
  /\ window_x2 (snd (@display example_base (example_display 128 64 0)))
     < window_x1 (snd (@display example_base (example_display 128 64 0)))
  /\ fst (@display example_base
            (snd (@display example_base (example_display 128 64 0)))) = [].
Proof.
  assert (Hinv : inverted_for 128 64 (window_of (example_display 128 64 0)))
    by (vm_compute; repeat split; discriminate).
  assert (HW : 0 <= WIDTH (example_display 128 64 0)) by (cbn; lia).
  destruct (@dirty_window_tracking example_base (example_display 128 64 0)
              [HRun 2 3 5 SSD1315_WHITE; VRun 10 (-4) 25 SSD1315_WHITE;
               HRun 200 3 5 SSD1315_WHITE])
    as (_ & Hbox & Hflush & _).
  split; [exact Hinv|]. split; [exact HW|]. split.
  - exact (Hbox Hinv (mkWindow 2 3 6 3) [mkWindow 10 0 10 20] eq_refl).
  - exact (Hflush HW).
Defined.

(** Colour 3 on a vertical run inside one byte. *)
Lemma invalid_color_runs_witness :
  ~ valid_color 3
  /\ touched_rect 128 64 (VRun 5 2 4 3) = Some (mkWindow 5 2 5 5)
  /\ window_of (_drawFastVLineInternal (example_display 128 64 0) 5 2 4 3)
     = expand (window_of (example_display 128 64 0)) (mkWindow 5 2 5 5)
  /\ _buffer (_drawFastVLineInternal (example_display 128 64 0) 5 2 4 3)
     = _buffer (example_display 128 64 0).
Proof.
  assert (Hc : ~ valid_color 3)
    by (intros [H | [H | H]]; discriminate H).
  destruct (invalid_color_runs (example_display 128 64 0) 5 2 4 3
              (mkWindow 5 2 5 5) Hc) as (_ & HV).
  destruct (HV eq_refl) as (Hwin & _ & _ & Hsame).
  split; [exact Hc|]. split; [reflexivity|]. split; [exact Hwin|].
  apply Hsame. intros p'. cbn [wy1 wy2]. lia.
Defined.

(** WHITE, two INVERSE draws over the pixel (3, 0) with a WHITE draw
    elsewhere in between, then BLACK. *)
Lemma toggle_parity_and_involution_witness :
  buffer_ok (example_display 128 64 0)
  /\ Forall (inverse_at 3 0)
       [VRun 3 0 5 SSD1315_INVERSE; HRun 9 9 4 SSD1315_WHITE;
        HRun 1 0 4 SSD1315_INVERSE]
  /\ Nat.even (toggles [VRun 3 0 5 SSD1315_INVERSE; HRun 9 9 4 SSD1315_WHITE;
                        HRun 1 0 4 SSD1315_INVERSE] 3 0) = true
  /\ getPixel (foldl run_draw (example_display 128 64 0)
                 (HRun 0 0 10 SSD1315_WHITE
                  :: [VRun 3 0 5 SSD1315_INVERSE; HRun 9 9 4 SSD1315_WHITE;
                      HRun 1 0 4 SSD1315_INVERSE] ++ [VRun 3 0 1 SSD1315_BLACK]))
       3 0 = false.
Proof.
  assert (Hok : buffer_ok (example_display 128 64 0)) by reflexivity.
  assert (Hall : Forall (inverse_at 3 0)
            [VRun 3 0 5 SSD1315_INVERSE; HRun 9 9 4 SSD1315_WHITE;
             HRun 1 0 4 SSD1315_INVERSE]).
  { repeat (apply Forall_cons_2);
      [split; [right; right; reflexivity | intros _; reflexivity]
      |split; [right; left; reflexivity | intros Hcov; discriminate Hcov]
      |split; [right; right; reflexivity | intros _; reflexivity]
      |apply Forall_nil_2]. }
  split; [exact Hok|]. split; [exact Hall|]. split; [reflexivity|].
  exact (proj2 (proj1 toggle_parity_and_involution
                  (example_display 128 64 0) (HRun 0 0 10 SSD1315_WHITE)
                  (VRun 3 0 1 SSD1315_BLACK) _ 3 0 Hok
                  ltac:(cbn; lia) ltac:(cbn; lia)
                  eq_refl eq_refl Hall eq_refl eq_refl eq_refl)).
Defined.

(** The single pixel (0, 0) on a freshly reset 128x64 display. *)
Lemma display_pages_witness :
  buffer_ok (example_display 128 64 0)
  /\ inverted_for 128 64 (window_of (example_display 128 64 0))
  /\ exists b,
       fst (@display example_base
              (_drawFastHLineInternal (example_display 128 64 0) 0 0 1
                 SSD1315_WHITE))
       = [CommandList [SSD1315_PAGE_ADDR; 0; 1; SSD1315_COLUMN_ADDR; 0; 0];
          Data [b]]
       /\ Z.testbit (byte.unsigned b) 0 = true.
Proof.
  assert (Hok : buffer_ok (example_display 128 64 0)) by reflexivity.
  assert (Hinv : inverted_for 128 64 (window_of (example_display 128 64 0)))
    by (vm_compute; repeat split; discriminate).
  split; [exact Hok|]. split; [exact Hinv|].
  exact (proj2 (@display_pages example_base (example_display 128 64 0) Hok)
           ltac:(cbn; lia) ltac:(cbn; lia) Hinv).
Defined.

(** * Further properties of the driver *)

(** ** Pixels of every row, and buffers equal pixel by pixel *)

Lemma vline_pixel_rows (st : Display) (x y h color px py : Z) :
  buffer_ok st -> valid_color color -> 0 <= px < WIDTH st -> 0 <= py ->
  getPixel (_drawFastVLineInternal st x y h color) px py
  = if (px =? x) && (y <=? py) && (py <? Z.min (y + h) (HEIGHT st))
    then pixel_color color (getPixel st px py)
    else getPixel st px py.
Proof.
  intros Hok Hc Hpx Hpy.
  destruct (Z.lt_ge_cases py (HEIGHT st)) as [Hin | Hout].
  - rewrite vline_pixel by first [assumption | lia].
    destruct (px =? x), (Z.leb_spec y py), (Z.ltb_spec py (y + h)),
      (Z.ltb_spec py (Z.min (y + h) (HEIGHT st))); cbn [andb];
      try reflexivity; lia.
  - replace ((px =? x) && (y <=? py) && (py <? Z.min (y + h) (HEIGHT st)))
      with false
      by (destruct (px =? x), (y <=? py),
            (Z.ltb_spec py (Z.min (y + h) (HEIGHT st))); cbn [andb];
          try reflexivity; lia).
    destruct (Z.le_gt_cases 0 x), (Z.lt_ge_cases x (WIDTH st));
      try (rewrite vline_noop by (left; lia); reflexivity).
    unfold getPixel. destruct (vline_frame st x y h color) as (-> & _ & _).
    pose proof (Z.div_mod py 8 ltac:(lia)) as Hd.
    pose proof (Z.mod_pos_bound py 8 ltac:(lia)) as Hm.
    assert (Hq : 0 <= py / 8) by (apply Z.div_pos; lia).
    rewrite vline_lookup by lia.
    destruct (_buffer st !! Z.to_nat (byte_index (WIDTH st) px (py / 8)))
      as [b|]; [|reflexivity].
    cbn [fmap option_fmap option_map].
    destruct (px =? x); [|reflexivity].
    rewrite vline_page_op_valid by assumption.
    unfold page_op, page_lo, page_hi.
    set (p := py / 8) in *. set (i := py mod 8) in *. clearbody p i.
    match goal with |- context [if ?a <=? ?c then _ else _] =>
      destruct (Z.leb_spec a c) end; [reflexivity|].
    rewrite color_op_run_testbit by lia.
    split_tests; cbn [andb]; try reflexivity; lia.
Qed.

Lemma run_draw_pixel_rows (st : Display) (d : Draw) (px py : Z) :
  buffer_ok st -> valid_color (draw_color d) ->
  0 <= px < WIDTH st -> 0 <= py ->
  getPixel (run_draw st d) px py
  = if covers d px py && (py <? HEIGHT st)
    then pixel_color (draw_color d) (getPixel st px py)
    else getPixel st px py.
Proof.
  intros Hok Hc Hpx Hpy. destruct d as [x y w c | x y h c];
    cbn [run_draw covers draw_color] in *.
  - destruct (Z.le_gt_cases 0 y), (Z.lt_ge_cases y (HEIGHT st));
      try (rewrite hline_noop by (left; lia);
           destruct (Z.eqb_spec py y), (Z.ltb_spec py (HEIGHT st));
           cbn [andb]; try reflexivity; try lia;
           rewrite ?Bool.andb_false_r; reflexivity).
    rewrite hline_pixel by first [assumption | lia].
    destruct (Z.eqb_spec py y), (x <=? px), (px <? x + w),
      (Z.ltb_spec py (HEIGHT st)); cbn [andb]; try reflexivity; lia.
  - rewrite vline_pixel_rows by assumption.
    destruct (px =? x), (Z.leb_spec y py), (Z.ltb_spec py (y + h)),
      (Z.ltb_spec py (Z.min (y + h) (HEIGHT st))), (Z.ltb_spec py (HEIGHT st));
      cbn [andb]; try reflexivity; lia.
Qed.

Lemma byte_eq_bits (b1 b2 : byte) :
  (forall k, 0 <= k < 8 ->
     Z.testbit (byte.unsigned b1) k = Z.testbit (byte.unsigned b2) k) ->
  b1 = b2.
Proof.
  intros Hbits. apply byte.unsigned_inj. apply Z.bits_inj'. intros k Hk.
  destruct (Z.lt_ge_cases k 8) as [Hlt | Hge]; [apply Hbits; lia|].
  rewrite (testbit_high 8 (byte.unsigned b1) k),
    (testbit_high 8 (byte.unsigned b2) k);
    first [reflexivity | lia | apply byte.unsigned_range].
Qed.

(** Two displays of the same width whose buffers have the same length and
    show the same pixels have the same buffer. *)
Lemma pixel_ext (st1 st2 : Display) :
  0 < WIDTH st1 -> WIDTH st2 = WIDTH st1 ->
  length (_buffer st2) = length (_buffer st1) ->
  (forall px py, 0 <= px < WIDTH st1 -> 0 <= py ->
     getPixel st1 px py = getPixel st2 px py) ->
  _buffer st1 = _buffer st2.
Proof.
  intros HW HW2 Hlen Hpix. apply list_eq. intros i.
  destruct (position_cell (WIDTH st1) i HW) as (Hcx & Hcp & Hi).
  set (x := Z.of_nat i mod WIDTH st1) in *.
  set (p := Z.of_nat i / WIDTH st1) in *.
  destruct (Nat.lt_ge_cases i (length (_buffer st1))) as [Hlt | Hge].
  - destruct (lookup_lt_is_Some_2 (_buffer st1) i Hlt) as [b1 Hb1].
    destruct (lookup_lt_is_Some_2 (_buffer st2) i ltac:(lia)) as [b2 Hb2].
    rewrite Hb1, Hb2. f_equal. apply byte_eq_bits. intros k Hk.
    specialize (Hpix x (8 * p + k) Hcx ltac:(lia)).
    unfold getPixel in Hpix. rewrite HW2 in Hpix.
    replace ((8 * p + k) / 8) with p in Hpix
      by (apply (Z.div_unique _ 8 p k); lia).
    replace ((8 * p + k) mod 8) with k in Hpix
      by (apply (Z.mod_unique _ 8 p k); lia).
    rewrite <- Hi, Hb1, Hb2 in Hpix. exact Hpix.
  - rewrite (lookup_ge_None_2 (_buffer st1)), (lookup_ge_None_2 (_buffer st2))
      by lia. reflexivity.
Qed.

(** ** The public calls draw the logical run *)

Ltac same_test :=
  split_tests; cbn [andb]; try reflexivity; lia.

Lemma hline_pixel_any (st : Display) (x y w color px py : Z) :
  buffer_ok st -> valid_color color ->
  0 <= px < WIDTH st -> 0 <= py < HEIGHT st ->
  getPixel (_drawFastHLineInternal st x y w color) px py
  = if (py =? y) && (x <=? px) && (px <? x + w)
    then pixel_color color (getPixel st px py)
    else getPixel st px py.
Proof.
  intros Hok Hc Hpx Hpy.
  exact (run_draw_pixel st (HRun x y w color) px py Hok Hc Hpx Hpy).
Qed.

(** Under every rotation, [drawFastHLine] gives the colour to exactly the
    physical pixels that show a pixel of the logical horizontal run, and
    leaves every other pixel of the display alone: for coordinates in the
    signed 32-bit range, and a geometry and a length up to [2^51], where
    the differences of the mapper are exact. *)
Theorem drawFastHLine_pixels (st : Display) (x y w color px py : Z) :
  buffer_ok st -> valid_color color -> int32 x -> int32 y ->
  safe_operand (WIDTH st) -> safe_operand (HEIGHT st) -> safe_operand w ->
  0 <= px < WIDTH st -> 0 <= py < HEIGHT st ->
  getPixel (drawFastHLine st x y w color) px py
  = if covers (HRun x y w color) (fst (to_logical st px py))
         (snd (to_logical st px py))
    then pixel_color color (getPixel st px py)
    else getPixel st px py.
Proof.
  intros Hok Hc Hx Hy HW HH Hlen Hpx Hpy. unfold drawFastHLine, to_logical.
  rewrite (xor_swap_int32 x y Hx Hy).
  destruct (rotation st =? 1); [|destruct (rotation st =? 2);
    [|destruct (rotation st =? 3)]]; cbn [fst snd covers]; exact_subs.
  - rewrite vline_pixel by assumption. same_test.
  - rewrite hline_pixel_any by assumption. same_test.
  - rewrite vline_pixel by assumption. same_test.
  - rewrite hline_pixel_any by assumption. reflexivity.
Qed.

(** The same for [drawFastVLine] and the logical vertical run. *)
Theorem drawFastVLine_pixels (st : Display) (x y h color px py : Z) :
  buffer_ok st -> valid_color color -> int32 x -> int32 y ->
  safe_operand (WIDTH st) -> safe_operand (HEIGHT st) -> safe_operand h ->
  0 <= px < WIDTH st -> 0 <= py < HEIGHT st ->
  getPixel (drawFastVLine st x y h color) px py
  = if covers (VRun x y h color) (fst (to_logical st px py))
         (snd (to_logical st px py))
    then pixel_color color (getPixel st px py)
    else getPixel st px py.
Proof.
  intros Hok Hc Hx Hy HW HH Hlen Hpx Hpy. unfold drawFastVLine, to_logical.
  rewrite (xor_swap_int32 x y Hx Hy).
  destruct (rotation st =? 1); [|destruct (rotation st =? 2);
    [|destruct (rotation st =? 3)]]; cbn [fst snd covers]; exact_subs.
  - rewrite hline_pixel_any by assumption. same_test.
  - rewrite vline_pixel by assumption. same_test.
  - rewrite hline_pixel_any by assumption. same_test.
  - rewrite vline_pixel by assumption. reflexivity.
Qed.

(** ** Sequences of draws, pixel by pixel *)

Lemma draws_buffer_ok (ds : list Draw) (st : Display) :
  buffer_ok st -> buffer_ok (foldl run_draw st ds).
Proof.
  revert st. induction ds as [|d ds IH]; intros st Hok; [exact Hok|].
  cbn [foldl]. apply IH. now apply run_draw_buffer_ok.
Qed.

Lemma draws_length (ds : list Draw) (st : Display) :
  length (_buffer (foldl run_draw st ds)) = length (_buffer st).
Proof.
  revert st. induction ds as [|d ds IH]; intros st; [reflexivity|].
  cbn [foldl]. rewrite IH.
  destruct d; cbn [run_draw]; [apply hline_length | apply vline_length].
Qed.

Lemma draws_pixel_after (ds : list Draw) (st : Display) (px py : Z) :
  buffer_ok st -> Forall (fun d => valid_color (draw_color d)) ds ->
  0 <= px < WIDTH st -> 0 <= py ->
  getPixel (foldl run_draw st ds) px py
  = pixel_after (HEIGHT st) ds px py (getPixel st px py).
Proof.
  revert st. induction ds as [|d ds IH]; intros st Hok Hall Hpx Hpy;
    [reflexivity|].
  apply Forall_cons in Hall as [Hd Hall]. cbn [foldl]. unfold pixel_after.
  cbn [foldl]. destruct (run_draw_frame st d) as (HW & HH & _).
  rewrite IH by first [assumption | now apply run_draw_buffer_ok
                      | rewrite HW; lia].
  rewrite HH, run_draw_pixel_rows by assumption. reflexivity.
Qed.

Lemma draws_narrow (ds : list Draw) (st : Display) :
  WIDTH st <= 0 -> foldl run_draw st ds = st.
Proof.
  intros HW. induction ds as [|d ds IH]; [reflexivity|]. cbn [foldl].
  replace (run_draw st d) with st; [exact IH|].
  destruct d; cbn [run_draw]; symmetry;
    [apply hline_noop | apply vline_noop]; lia.
Qed.

(** Sequences of draws that agree on every pixel agree on the buffer. *)
Lemma draws_same_pixels (ds1 ds2 : list Draw) (st : Display) :
  buffer_ok st ->
  Forall (fun d => valid_color (draw_color d)) ds1 ->
  Forall (fun d => valid_color (draw_color d)) ds2 ->
  (forall px py v, 0 <= px < WIDTH st -> 0 <= py ->
     pixel_after (HEIGHT st) ds1 px py v = pixel_after (HEIGHT st) ds2 px py v) ->
  _buffer (foldl run_draw st ds1) = _buffer (foldl run_draw st ds2).
Proof.
  intros Hok H1 H2 Hsame.
  destruct (Z.le_gt_cases (WIDTH st) 0) as [Hn | Hp];
    [now rewrite !draws_narrow|].
  destruct (draws_frame ds1 st) as [HW1 HH1].
  destruct (draws_frame ds2 st) as [HW2 HH2].
  apply pixel_ext.
  - lia.
  - congruence.
  - now rewrite !draws_length.
  - intros px py Hpx Hpy. rewrite HW1 in Hpx.
    rewrite !draws_pixel_after by assumption. now apply Hsame.
Qed.

Ltac all_valid :=
  repeat (apply Forall_cons_2; [assumption|]); apply Forall_nil_2.

Lemma expand_comm (win r1 r2 : Window) :
  expand (expand win r1) r2 = expand (expand win r2) r1.
Proof. unfold expand. cbn [wx1 wy1 wx2 wy2]. f_equal; lia. Qed.

Lemma expand_idem (win r : Window) : expand (expand win r) r = expand win r.
Proof. unfold expand. cbn [wx1 wy1 wx2 wy2]. f_equal; lia. Qed.

Lemma draw_pair_window (st : Display) (d1 d2 : Draw) :
  window_of (run_draw (run_draw st d1) d2)
  = foldl expand (window_of st)
      (omap (touched_rect (WIDTH st) (HEIGHT st)) [d1; d2]).
Proof. exact (draws_window [d1; d2] st). Qed.

(** Drawing a WHITE or BLACK run a second time changes neither a pixel nor
    the dirty window. *)
Theorem draw_twice_same (st : Display) (d : Draw) :
  buffer_ok st ->
  draw_color d = SSD1315_WHITE \/ draw_color d = SSD1315_BLACK ->
  _buffer (run_draw (run_draw st d) d) = _buffer (run_draw st d)
  /\ window_of (run_draw (run_draw st d) d) = window_of (run_draw st d).
Proof.
  intros Hok Hc.
  assert (Hv : valid_color (draw_color d))
    by (destruct Hc as [-> | ->]; [right; left | left]; reflexivity).
  split.
  - apply (draws_same_pixels [d; d] [d] st Hok);
      [all_valid | all_valid|].
    intros px py v _ _. unfold pixel_after. cbn [foldl].
    destruct (covers d px py && (py <? HEIGHT st)); [|reflexivity].
    destruct Hc as [-> | ->]; reflexivity.
  - rewrite draw_pair_window, run_draw_window.
    cbn [omap list_omap]. destruct (touched_rect _ _ d); cbn [foldl];
      [apply expand_idem | reflexivity].
Qed.

(** Two draws commute, on the buffer and on the dirty window, when every
    pixel of the display that both pass over gets the same colour from
    both. *)
Theorem draws_commute (st : Display) (d1 d2 : Draw) :
  buffer_ok st ->
  valid_color (draw_color d1) -> valid_color (draw_color d2) ->
  (forall px py, 0 <= px < WIDTH st -> 0 <= py < HEIGHT st ->
     covers d1 px py = true -> covers d2 px py = true ->
     draw_color d1 = draw_color d2) ->
  _buffer (run_draw (run_draw st d1) d2) = _buffer (run_draw (run_draw st d2) d1)
  /\ window_of (run_draw (run_draw st d1) d2)
     = window_of (run_draw (run_draw st d2) d1).
Proof.
  intros Hok Hv1 Hv2 Hsame. split.
  - apply (draws_same_pixels [d1; d2] [d2; d1] st Hok);
      [all_valid | all_valid|].
    intros px py v Hpx Hpy. unfold pixel_after. cbn [foldl].
    destruct (covers d1 px py) eqn:H1, (covers d2 px py) eqn:H2,
      (Z.ltb_spec py (HEIGHT st)); cbn [andb]; try reflexivity.
    rewrite (Hsame px py Hpx ltac:(lia) H1 H2). reflexivity.
  - rewrite !draw_pair_window. cbn [omap list_omap].
    destruct (touched_rect _ _ d1), (touched_rect _ _ d2); cbn [foldl];
      try reflexivity. apply expand_comm.
Qed.

(** A run drawn in two adjacent pieces gives the buffer and the dirty window
    of the run drawn at once, for horizontal and for vertical runs. *)
Theorem run_in_two_pieces (st : Display) (x y n1 n2 color : Z) :
  buffer_ok st -> valid_color color -> 0 <= n1 -> 0 <= n2 ->
  (_buffer (_drawFastHLineInternal
              (_drawFastHLineInternal st x y n1 color) (x + n1) y n2 color)
   = _buffer (_drawFastHLineInternal st x y (n1 + n2) color)
   /\ window_of (_drawFastHLineInternal
                   (_drawFastHLineInternal st x y n1 color) (x + n1) y n2 color)
      = window_of (_drawFastHLineInternal st x y (n1 + n2) color))
  /\ (_buffer (_drawFastVLineInternal
                 (_drawFastVLineInternal st x y n1 color) x (y + n1) n2 color)
      = _buffer (_drawFastVLineInternal st x y (n1 + n2) color)
      /\ window_of (_drawFastVLineInternal
                      (_drawFastVLineInternal st x y n1 color) x (y + n1) n2
                      color)
         = window_of (_drawFastVLineInternal st x y (n1 + n2) color)).
Proof.
  intros Hok Hc Hn1 Hn2.
  assert (Hpix : forall c v (t1 t2 t12 : bool),
            t12 = t1 || t2 -> t1 && t2 = false ->
            (if t2 then pixel_color c (if t1 then pixel_color c v else v)
             else (if t1 then pixel_color c v else v))
            = (if t12 then pixel_color c v else v)).
  { intros c v [|] [|] t12 -> Hd; try discriminate Hd; reflexivity. }
  split; split.
  - apply (draws_same_pixels [HRun x y n1 color; HRun (x + n1) y n2 color]
             [HRun x y (n1 + n2) color] st Hok);
      [all_valid | all_valid|].
    intros px py v Hpx Hpy. unfold pixel_after.
    cbn [foldl covers draw_color]. apply Hpix; same_test.
  - pose proof (draw_pair_window st (HRun x y n1 color)
                  (HRun (x + n1) y n2 color)) as Hw.
    cbn [run_draw] in Hw. rewrite Hw.
    pose proof (run_draw_window st (HRun x y (n1 + n2) color)) as Hw1.
    cbn [run_draw] in Hw1. rewrite Hw1.
    cbn [omap list_omap touched_rect].
    destruct ((0 <=? y) && (y <? HEIGHT st)); cbn [andb]; [|reflexivity].
    split_tests; cbn [foldl]; try lia; try reflexivity;
      unfold expand; cbn [wx1 wy1 wx2 wy2]; f_equal; lia.
  - apply (draws_same_pixels [VRun x y n1 color; VRun x (y + n1) n2 color]
             [VRun x y (n1 + n2) color] st Hok);
      [all_valid | all_valid|].
    intros px py v Hpx Hpy. unfold pixel_after.
    cbn [foldl covers draw_color]. apply Hpix; same_test.
  - pose proof (draw_pair_window st (VRun x y n1 color)
                  (VRun x (y + n1) n2 color)) as Hw.
    cbn [run_draw] in Hw. rewrite Hw.
    pose proof (run_draw_window st (VRun x y (n1 + n2) color)) as Hw1.
    cbn [run_draw] in Hw1. rewrite Hw1.
    cbn [omap list_omap touched_rect].
    destruct ((0 <=? x) && (x <? WIDTH st)); cbn [andb]; [|reflexivity].
    split_tests; cbn [foldl]; try lia; try reflexivity;
      unfold expand; cbn [wx1 wy1 wx2 wy2]; f_equal; lia.
Qed.

(** ** What the dirty window promises to the flush *)

Lemma run_draw_outside_rect (st : Display) (d : Draw) (x' p' : Z) :
  0 <= x' < WIDTH st -> 0 <= p' ->
  (forall r, touched_rect (WIDTH st) (HEIGHT st) d = Some r ->
     ~ in_window_cells r x' p') ->
  _buffer (run_draw st d) !! Z.to_nat (byte_index (WIDTH st) x' p')
  = _buffer st !! Z.to_nat (byte_index (WIDTH st) x' p').
Proof.
  intros Hx' Hp' Hout. unfold in_window_cells in Hout.
  destruct d as [x y w c | x y h c]; cbn [run_draw touched_rect] in *.
  - destruct (Z.le_gt_cases 0 y), (Z.lt_ge_cases y (HEIGHT st));
      try (rewrite hline_noop by (left; lia); reflexivity).
    rewrite in_range_true in Hout by lia. cbn [andb] in Hout.
    rewrite hline_lookup by lia.
    rewrite <- (option_fmap_id' (_buffer st !! _)) at 2.
    apply option_fmap_ext_id. intros b.
    destruct (Z.ltb_spec (Z.max x 0) (Z.min (x + w) (WIDTH st)));
      [|destruct (p' =? y / 8), (Z.leb_spec (Z.max x 0) x'),
          (Z.ltb_spec x' (Z.min (x + w) (WIDTH st))); cbn [andb];
        try reflexivity; lia].
    specialize (Hout _ eq_refl). cbn [wx1 wx2 wy1 wy2] in Hout.
    destruct (Z.eqb_spec p' (y / 8)), (Z.leb_spec (Z.max x 0) x'),
      (Z.ltb_spec x' (Z.min (x + w) (WIDTH st))); cbn [andb];
      try reflexivity; lia.
  - destruct (Z.le_gt_cases 0 x), (Z.lt_ge_cases x (WIDTH st));
      try (rewrite vline_noop by (left; lia); reflexivity).
    rewrite in_range_true in Hout by lia. cbn [andb] in Hout.
    rewrite vline_lookup by lia.
    rewrite <- (option_fmap_id' (_buffer st !! _)) at 2.
    apply option_fmap_ext_id. intros b.
    destruct (Z.eqb_spec x' x) as [-> | Hne]; [|reflexivity].
    unfold vline_page_op, page_op, page_lo, page_hi.
    destruct (Z.ltb_spec (Z.max y 0) (Z.min (y + h) (HEIGHT st)));
      [|split_tests; try reflexivity; lia].
    specialize (Hout _ eq_refl). cbn [wx1 wx2 wy1 wy2] in Hout.
    set (lo := Z.max y 0) in *. set (hi := Z.min (y + h) (HEIGHT st)) in *.
    pose proof (Z.div_mod lo 8 ltac:(lia)).
    pose proof (Z.mod_pos_bound lo 8 ltac:(lia)).
    pose proof (Z.div_mod (hi - 1) 8 ltac:(lia)).
    pose proof (Z.mod_pos_bound (hi - 1) 8 ltac:(lia)).
    split_tests; try reflexivity; lia.
Qed.

Lemma expand_grows (win r : Window) : window_includes (expand win r) win.
Proof. unfold window_includes, expand. cbn [wx1 wy1 wx2 wy2]. lia. Qed.

Lemma expand_includes (win r : Window) : window_includes (expand win r) r.
Proof. unfold window_includes, expand. cbn [wx1 wy1 wx2 wy2]. lia. Qed.

Lemma window_includes_trans (a b c : Window) :
  window_includes a b -> window_includes b c -> window_includes a c.
Proof. unfold window_includes. lia. Qed.

Lemma window_includes_refl (a : Window) : window_includes a a.
Proof. unfold window_includes. lia. Qed.

Lemma foldl_expand_grows (rs : list Window) (win : Window) :
  window_includes (foldl expand win rs) win.
Proof.
  revert win. induction rs as [|r rs IH]; intros win;
    [apply window_includes_refl|].
  cbn [foldl]. eapply window_includes_trans; [apply IH | apply expand_grows].
Qed.

Lemma window_cells_mono (a b : Window) (x p : Z) :
  window_includes a b -> in_window_cells b x p -> in_window_cells a x p.
Proof.
  unfold window_includes, in_window_cells. intros Hinc Hin.
  assert (wy1 a / 8 <= wy1 b / 8) by (apply Z.div_le_mono; lia).
  assert (wy2 b / 8 <= wy2 a / 8) by (apply Z.div_le_mono; lia).
  lia.
Qed.

(** A draw never shrinks the dirty window, whatever its arguments. *)
Lemma run_draw_window_grows (st : Display) (d : Draw) :
  window_includes (window_of (run_draw st d)) (window_of st).
Proof.
  rewrite run_draw_window. destruct (touched_rect _ _ d);
    [apply expand_grows | apply window_includes_refl].
Qed.

(** Whatever the draws and their colours, a byte outside the cells of the
    dirty window that results is the byte from before the draws: the flush
    of the window misses no change. *)
Theorem dirty_window_covers_changes (st : Display) (ds : list Draw) (x' p' : Z) :
  0 <= x' < WIDTH st -> 0 <= p' ->
  ~ in_window_cells (window_of (foldl run_draw st ds)) x' p' ->
  _buffer (foldl run_draw st ds) !! Z.to_nat (byte_index (WIDTH st) x' p')
  = _buffer st !! Z.to_nat (byte_index (WIDTH st) x' p').
Proof.
  revert st. induction ds as [|d ds IH]; intros st Hx' Hp' Hout;
    [reflexivity|].
  cbn [foldl] in *. destruct (run_draw_frame st d) as (HW & HH & _).
  rewrite <- HW at 1. rewrite IH by (rewrite ?HW; assumption).
  rewrite HW. apply run_draw_outside_rect; [assumption..|].
  intros r Hr Hin. apply Hout.
  apply (window_cells_mono _ (window_of (run_draw st d))).
  - rewrite draws_window. apply foldl_expand_grows.
  - apply (window_cells_mono _ r); [|exact Hin].
    rewrite run_draw_window, Hr. apply expand_includes.
Qed.

(** From a reset window that is inverted for the display, any sequence of
    draws leaves the window either untouched or inside the display, which
    is what the flush needs of it. *)
Theorem dirty_window_stays_inside (st : Display) (ds : list Draw) :
  inverted_for (WIDTH st) (HEIGHT st) (window_of st) ->
  window_of (foldl run_draw st ds) = window_of st
  \/ inside (WIDTH st) (HEIGHT st) (window_of (foldl run_draw st ds)).
Proof.
  intros Hinv. rewrite draws_window.
  assert (Hrects : Forall (inside (WIDTH st) (HEIGHT st))
                     (omap (touched_rect (WIDTH st) (HEIGHT st)) ds)).
  { apply Forall_forall. intros r Hr.
    apply list_elem_of_omap in Hr as (d & _ & Hd).
    apply touched_rect_inside in Hd. unfold inside. lia. }
  destruct (omap _ ds) as [|r rs]; [now left|]. right. cbn [foldl].
  apply Forall_cons in Hrects as [Hr Hrs].
  rewrite (expand_inverted (WIDTH st) (HEIGHT st))
    by (try assumption; unfold inside in Hr; lia).
  clear Hinv. revert r Hr. induction rs as [|r' rs IH]; intros r Hr;
    [exact Hr|].
  apply Forall_cons in Hrs as [Hr' Hrs]. cbn [foldl]. apply IH; [assumption|].
  unfold inside, expand in *. cbn [wx1 wy1 wx2 wy2]. lia.
Qed.

(** The dirty window after a sequence of draws does not depend on the order
    of the draws. *)
Theorem dirty_window_order_free (st : Display) (ds1 ds2 : list Draw) :
  ds1 ≡ₚ ds2 ->
  window_of (foldl run_draw st ds1) = window_of (foldl run_draw st ds2).
Proof.
  intros Hperm. rewrite !draws_window.
  generalize (window_of st). generalize (WIDTH st) (HEIGHT st). intros W H.
  induction Hperm as [|d l l' _ IH|d1 d2 l|l l' l'' _ IH1 _ IH2]; intros win.
  - reflexivity.
  - cbn [omap list_omap]. destruct (touched_rect W H d); cbn [foldl]; apply IH.
  - cbn [omap list_omap].
    destruct (touched_rect W H d1), (touched_rect W H d2); cbn [foldl];
      try reflexivity. now rewrite expand_comm.
  - now rewrite IH1.
Qed.

(** ** The flush of a fully dirty window *)

Lemma display_inside (base : Adafruit_GrayOLED) (st : Display) :
  buffer_ok st -> inside (WIDTH st) (HEIGHT st) (window_of st) ->
  fst (display st)
  = concat (page_transfer (_buffer st) (WIDTH st) (window_x1 st) (window_x2 st)
              <$> seqZ (window_y1 st / 8)
                    (window_y2 st / 8 - window_y1 st / 8 + 1)).
Proof.
  unfold inside, window_of. cbn [wx1 wy1 wx2 wy2]. intros Hs Hin.
  unfold display. cbn [fst]. rewrite !Z.quot_div_nonneg by lia.
  destruct (Z.gtb_spec (window_x2 st - window_x1 st + 1) 0); [|lia].
  fold (byte_index (WIDTH st) (window_x1 st) (window_y1 st / 8)).
  assert (0 <= window_y1 st / 8) by (apply Z.div_pos; lia).
  assert (window_y1 st / 8 <= window_y2 st / 8) by (apply Z.div_le_mono; lia).
  pose proof (Z.div_mod (window_y2 st) 8 ltac:(lia)).
  pose proof (Z.mod_pos_bound (window_y2 st) 8 ltac:(lia)).
  rewrite (display_loop_pages _ _ _ (HEIGHT st) _ (window_x2 st))
    by first [exact Hs | lia].
  do 3 f_equal. lia.
Qed.

Lemma data_bytes_pages (buf : list byte) (W x1 x2 : Z) (pages : list Z) :
  data_bytes (concat (page_transfer buf W x1 x2 <$> pages))
  = concat ((fun p => page_columns buf W p x1 x2) <$> pages).
Proof.
  unfold data_bytes. induction pages as [|p pages IH]; [reflexivity|].
  cbn [fmap list_fmap concat app]. unfold page_transfer at 1.
  cbn [fmap list_fmap concat app]. now rewrite IH.
Qed.

Lemma whole_pages (n : nat) (buf : list byte) (W : Z) :
  0 < W -> Z.of_nat n * W <= Z.of_nat (length buf) ->
  concat ((fun p => page_columns buf W p 0 (W - 1)) <$> seqZ 0 (Z.of_nat n))
  = take (Z.to_nat (Z.of_nat n * W)) buf.
Proof.
  intros HW. induction n as [|n IH]; intros Hlen; [reflexivity|].
  rewrite seqZ_S, fmap_app, concat_app, IH by nia.
  cbn [fmap list_fmap concat]. rewrite app_nil_r, Z.add_0_l.
  rewrite <- page_columns_slice
    by (unfold byte_index; first [lia | nia]).
  replace (Z.to_nat (byte_index W 0 (Z.of_nat n))) with (Z.to_nat (Z.of_nat n * W))
    by (unfold byte_index; f_equal; lia).
  rewrite take_take_drop. f_equal. nia.
Qed.

(** When the dirty window is the whole display, as after [stopscroll], the
    flush sends, for each page from 0 up, one command list that addresses
    the page and the columns [0 .. WIDTH - 1] and then one data block with
    the bytes of the page; the data blocks together are the framebuffer,
    byte for byte and in order. *)
Theorem display_full_window `{Adafruit_GrayOLED} (st : Display) :
  buffer_ok st -> 0 < WIDTH st -> 0 < HEIGHT st ->
  window_of st = mkWindow 0 0 (WIDTH st - 1) (HEIGHT st - 1) ->
  fst (display st)
  = concat ((fun page =>
               [CommandList [SSD1315_PAGE_ADDR; page; page + 1;
                             SSD1315_COLUMN_ADDR; 0; WIDTH st - 1];
                Data (page_columns (_buffer st) (WIDTH st) page 0
                        (WIDTH st - 1))])
              <$> seqZ 0 (Z.quot (HEIGHT st + 7) 8))
  /\ data_bytes (fst (display st)) = _buffer st.
Proof.
  intros Hok HW HH Hwin. injection Hwin as Hx1 Hy1 Hx2 Hy2.
  rewrite display_inside
    by (try assumption; unfold inside, window_of; cbn [wx1 wy1 wx2 wy2]; lia).
  rewrite Hx1, Hy1, Hx2, Hy2. change (0 / 8) with 0.
  rewrite Z.quot_div_nonneg by lia.
  assert (Hpages : (HEIGHT st - 1) / 8 - 0 + 1 = (HEIGHT st + 7) / 8).
  { replace (HEIGHT st + 7) with (HEIGHT st - 1 + 1 * 8) by lia.
    rewrite Z.div_add by lia. lia. }
  rewrite Hpages.
  assert (Hq : 0 <= (HEIGHT st + 7) / 8) by (apply Z.div_pos; lia).
  unfold buffer_ok, buffer_size in Hok.
  rewrite Z.quot_div_nonneg in Hok by lia.
  set (n := (HEIGHT st + 7) / 8) in *. split; [reflexivity|].
  rewrite data_bytes_pages. rewrite <- (Z2Nat.id n) by assumption.
  rewrite whole_pages by lia. apply take_ge. lia.
Qed.

(** ** Command bytes of the scroll and startup sequences *)

Lemma land_ones_range (z k : Z) :
  0 <= k -> 0 <= Z.land z (Z.ones k) < 2 ^ k.
Proof.
  intros Hk. rewrite Z.land_ones by assumption.
  apply Z.mod_pos_bound. apply Z.pow_pos_nonneg; lia.
Qed.

Lemma land_FF_range (z : Z) : 0 <= Z.land z 0xFF < 256.
Proof. exact (land_ones_range z 8 ltac:(lia)). Qed.

Lemma land_07_range (z : Z) : 0 <= Z.land z 0x07 < 8.
Proof. exact (land_ones_range z 3 ltac:(lia)). Qed.

Lemma land_3F_range (z : Z) : 0 <= Z.land z 0x3F < 64.
Proof. exact (land_ones_range z 6 ltac:(lia)). Qed.

(** A direction that is none of the five known strings matches no [case]:
    the scroll is then the left diagonal one. *)
Theorem scroll_unknown_direction (st : Display) (dir : string) (start stop : Z) :
  dir <> "left"%string -> dir <> "right"%string ->
  dir <> "left diagonal"%string -> dir <> "right diagonal"%string ->
  dir <> "up"%string ->
  _startScrollInternal st dir start stop = startscrolldiagleft st start stop.
Proof.
  intros H1 H2 H3 H4 H5. unfold startscrolldiagleft, _startScrollInternal.
  apply String.eqb_neq in H1, H2, H3, H4, H5.
  rewrite H1, H2, H3, H4, H5. reflexivity.
Qed.

(** Whatever the direction string, the geometry and the page arguments,
    every value a scroll call hands to the bus fits a byte, and the start
    and stop pages it sends are the arguments reduced to [0 .. 7]. *)
Theorem scroll_bytes_fit (st : Display) (dir : string) (start stop : Z) :
  Forall bus_bytes_ok (_startScrollInternal st dir start stop)
  /\ command_bytes (_startScrollInternal st dir start stop !! 1%nat) !! 2%nat
     = Some (start mod 8)
  /\ command_bytes (_startScrollInternal st dir start stop !! 1%nat) !! 4%nat
     = Some (stop mod 8).
Proof.
  pose proof (land_FF_range (HEIGHT st)) as Hh.
  pose proof (land_FF_range (Z.land (WIDTH st) 0xFF - 1)) as Hw.
  pose proof (land_07_range start) as Hs.
  pose proof (land_07_range stop) as He.
  pose proof (min_one_land_7F (Z.land (HEIGHT st) 0xFF) ltac:(lia)) as Hmin.
  unfold _startScrollInternal.
  destruct (String.eqb dir "left"); [|destruct (String.eqb dir "right");
    [|destruct (String.eqb dir "left diagonal");
      [|destruct (String.eqb dir "right diagonal");
        [|destruct (String.eqb dir "up")]]]];
    rewrite ?Hmin;
    (split; [|split;
       cbn [lookup list_lookup command_bytes]; now rewrite land_7_mod]);
    repeat (first [apply Forall_cons_2 | apply Forall_nil_2]);
    cbn [bus_bytes_ok];
    repeat (first [apply Forall_cons_2 | apply Forall_nil_2]);
    unfold command_byte; try (vm_compute; split; [discriminate | reflexivity]);
    try lia.
Qed.

Lemma start_line_byte (s : Z) :
  Z.land (Z.lor SSD1315_SET_DISPLAY_START_LINE_BASE (Z.land s 0x3F)) 0xFF
  = 0x40 + s mod 64.
Proof.
  unfold SSD1315_SET_DISPLAY_START_LINE_BASE.
  change 0x3F with (Z.ones 6). change 0xFF with (Z.ones 8).
  rewrite !Z.land_ones by lia.
  pose proof (Z.mod_pos_bound s (2 ^ 6) ltac:(lia)) as Hm.
  rewrite Z.or_to_plus.
  - change (2 ^ 6) with 64 in *. apply Z.mod_small. lia.
  - change 64 with (Z.shiftl (Z.ones 1) 6). Z.bitblast.
Qed.


(** ** A run of length one *)

Lemma single_ops_agree (W x y color : Z) :
  hline_ops W x y 1 color = vline_ops W x y 1 color.
Proof.
  unfold hline_ops, vline_ops. cbv zeta.
  pose proof (land_07_range y) as Hr.
  set (index := x + Z.quot y 8 * W). set (r := Z.land y 7) in *.
  clearbody index r.
  assert (Hcases : r = 0 \/ r = 1 \/ r = 2 \/ r = 3 \/ r = 4 \/ r = 5
                   \/ r = 6 \/ r = 7) by lia.
  destruct Hcases as [-> | [-> | [-> | [-> | [-> | [-> | [-> | ->]]]]]]];
    cbn [Z.eqb Z.ltb Z.geb Z.compare Pos.compare Pos.compare_cont Z.sub Z.add
         Z.opp Z.pos_sub Pos.pred_double Z.succ_double Z.pred_double Z.double];
    change (Z.to_nat 1) with 1%nat; cbn [stride_ops];
    unfold color_ops;
    destruct (color =? SSD1315_WHITE); try reflexivity;
    destruct (color =? SSD1315_BLACK); try reflexivity;
    destruct (color =? SSD1315_INVERSE); try reflexivity;
    change (1 / 8) with 0; change (1 mod 8) with 1;
    cbn [Z.eqb Z.to_nat stride_ops app]; rewrite ?Z.mul_0_l, ?Z.add_0_r;
    reflexivity.
Qed.

(** A run of one pixel is the same call on either primitive: buffer, dirty
    window and byte accesses agree, for every position and every value of
    the colour. *)
Theorem single_pixel_runs_agree (st : Display) (x y color : Z) :
  _drawFastHLineInternal st x y 1 color = _drawFastVLineInternal st x y 1 color.
Proof.
  destruct (Z.le_gt_cases 0 x), (Z.lt_ge_cases x (WIDTH st)),
    (Z.le_gt_cases 0 y), (Z.lt_ge_cases y (HEIGHT st));
    try (rewrite hline_noop, vline_noop by lia; reflexivity).
  rewrite hline_eq, vline_eq, !in_range_true by lia. unfold clip.
  destruct (Z.ltb_spec x 0), (Z.ltb_spec y 0); try lia.
  destruct (Z.gtb_spec (x + 1) (WIDTH st)), (Z.gtb_spec (y + 1) (HEIGHT st));
    try lia.
  cbn [Z.gtb Z.compare]. rewrite single_ops_agree.
  now rewrite !Z.add_simpl_r.
Qed.

(** ** Which bytes a run touches, and how often *)

Lemma stride_ops_fst_column (n : nat) (W x p : Z) (f : byte -> byte) :
  fst <$> stride_ops n (byte_index W x p) W f
  = byte_index W x <$> seqZ p (Z.of_nat n).
Proof.
  revert p. induction n as [|n IH]; intros p; [reflexivity|].
  rewrite seqZ_cons by lia. cbn [stride_ops fmap list_fmap fst].
  rewrite byte_index_succ, IH. do 3 f_equal. lia.
Qed.

Lemma stride_ops_fst_row (n : nat) (index : Z) (f : byte -> byte) :
  fst <$> stride_ops n index 1 f = seqZ index (Z.of_nat n).
Proof.
  revert index. induction n as [|n IH]; intros index; [reflexivity|].
  rewrite seqZ_cons by lia. cbn [stride_ops fmap list_fmap fst].
  rewrite IH. do 2 f_equal. lia.
Qed.

Lemma color_ops_fst (color index mask : Z) :
  valid_color color -> fst <$> color_ops color index mask = [index].
Proof.
  intros [-> | [-> | ->]]; reflexivity.
Qed.

Lemma vline_ops_fst (W x y h color : Z) :
  valid_color color -> 0 <= y -> 0 < h ->
  fst <$> vline_ops W x y h color
  = byte_index W x <$> seqZ (y / 8) ((y + h - 1) / 8 - y / 8 + 1).
Proof.
  intros Hc Hy Hh. unfold vline_ops. cbv zeta.
  rewrite Z.quot_div_nonneg, land_7_mod by lia.
  fold (byte_index W x (y / 8)).
  pose proof (Z.div_mod y 8 ltac:(lia)) as Hy8.
  pose proof (Z.mod_pos_bound y 8 ltac:(lia)) as Hr8.
  pose proof (Z.div_mod (y + h - 1) 8 ltac:(lia)) as He8.
  pose proof (Z.mod_pos_bound (y + h - 1) 8 ltac:(lia)) as Hem.
  set (p0 := y / 8) in *. set (r := y mod 8) in *.
  set (e := (y + h - 1) / 8) in *. set (em := (y + h - 1) mod 8) in *.
  clearbody p0 r e em.
  assert (Htail : forall a p1,
            0 <= a <= h -> 8 * p1 = y + a ->
            fst <$> (stride_ops (Z.to_nat ((h - a) / 8)) (byte_index W x p1) W
                       (solid_op color)
                     ++ (if (h - a) mod 8 =? 0 then []
                         else color_ops color
                                (byte_index W x p1 + (h - a) / 8 * W)
                                (nth (Z.to_nat (Z.land ((h - a) mod 8) 7))
                                   SSD1315_VLINE_POST_MASK 0)))
            = byte_index W x <$> seqZ p1 (e - p1 + 1)).
  { intros a p1 Ha Hp1.
    pose proof (Z.div_mod (h - a) 8 ltac:(lia)) as Hh8.
    pose proof (Z.mod_pos_bound (h - a) 8 ltac:(lia)) as Ht8.
    assert (Hq : 0 <= (h - a) / 8) by (apply Z.div_pos; lia).
    rewrite byte_index_add.
    set (q := (h - a) / 8) in *. set (t := (h - a) mod 8) in *. clearbody q t.
    rewrite fmap_app, stride_ops_fst_column, Z2Nat.id by assumption.
    destruct (Z.eqb_spec t 0) as [Ht | Ht].
    - cbn [fmap list_fmap]. rewrite app_nil_r. do 2 f_equal. lia.
    - rewrite color_ops_fst by assumption.
      replace (e - p1 + 1) with (q + 1) by lia.
      rewrite (seqZ_app p1 q 1), fmap_app by lia. reflexivity. }
  destruct (Z.eqb_spec r 0) as [Hr | Hr].
  - replace (h >=? 0) with true by (symmetry; apply Z.geb_le; lia).
    cbn [app]. apply (Htail 0 p0); lia.
  - destruct (Z.geb_spec h (8 - r)) as [Hge | Hlt].
    + rewrite fmap_app, color_ops_fst, byte_index_succ by assumption.
      rewrite (Htail (8 - r) (p0 + 1)) by lia.
      replace (e - p0 + 1) with (1 + (e - (p0 + 1) + 1)) by lia.
      rewrite (seqZ_app p0 1), fmap_app by lia. reflexivity.
    + rewrite color_ops_fst by assumption.
      replace (e - p0 + 1) with 1 by lia. reflexivity.
Qed.

(** For the three colours, a vertical run that survives clipping uses one
    byte per page it crosses, each exactly once and from the top page down;
    a horizontal run uses one byte per column, from left to right. *)
Theorem line_access_pattern (st : Display) (x y len color : Z) :
  valid_color color ->
  (0 <= x < WIDTH st ->
   let lo := Z.max y 0 in
   let hi := Z.min (y + len) (HEIGHT st) in
   lo < hi ->
   let touched := byte_index (WIDTH st) x
                    <$> seqZ (lo / 8) ((hi - 1) / 8 - lo / 8 + 1) in
   accessed (_drawFastVLineInternal st x y len color)
   = reverse touched ++ accessed st
   /\ NoDup touched)
  /\ (0 <= y < HEIGHT st ->
      let lo := Z.max x 0 in
      let hi := Z.min (x + len) (WIDTH st) in
      lo < hi ->
      accessed (_drawFastHLineInternal st x y len color)
      = reverse (seqZ (byte_index (WIDTH st) lo (y / 8)) (hi - lo))
        ++ accessed st).
Proof.
  intros Hc. split.
  - intros Hx lo hi Hlt touched. subst lo hi touched. split.
    + rewrite vline_eq, in_range_true by assumption.
      pose proof (clip_spec y len (HEIGHT st)) as Hclip.
      destruct (clip y len (HEIGHT st)) as [y1 h1]. destruct Hclip as [Hiff Hpos].
      destruct (Z.gtb_spec h1 0) as [Hgt | Hle]; [|lia].
      destruct (Hpos Hgt) as [Hy1 Hyh].
      rewrite apply_ops_accessed, vline_ops_fst by first [assumption | lia].
      unfold mark_dirty, set_window. cbn [accessed].
      rewrite <- Hy1, <- Hyh. reflexivity.
    + apply NoDup_fmap_2_strong; [|apply NoDup_seqZ].
      intros p p' _ _ Heq.
      now apply (byte_index_inj (WIDTH st) x p x p' Hx Hx) in Heq.
  - intros Hy lo hi Hlt. subst lo hi.
    rewrite hline_eq, in_range_true by assumption.
    pose proof (clip_spec x len (WIDTH st)) as Hclip.
    destruct (clip x len (WIDTH st)) as [x1 w1]. destruct Hclip as [Hiff Hpos].
    destruct (Z.gtb_spec w1 0) as [Hgt | Hle]; [|lia].
    destruct (Hpos Hgt) as [Hx1 Hxw].
    rewrite apply_ops_accessed. unfold mark_dirty, set_window. cbn [accessed].
    do 2 f_equal. unfold hline_ops. cbv zeta.
    rewrite Z.quot_div_nonneg by lia. fold (byte_index (WIDTH st) x1 (y / 8)).
    rewrite <- Hx1. replace (Z.min (x + len) (WIDTH st) - x1) with w1 by lia.
    destruct Hc as [-> | [-> | ->]]; cbn [Z.eqb Pos.eqb];
      unfold SSD1315_BLACK, SSD1315_WHITE, SSD1315_INVERSE; cbn [Z.eqb Pos.eqb];
      rewrite stride_ops_fst_row, Z2Nat.id by lia; reflexivity.
Qed.

(** ** What the public calls keep and what they coerce *)

Lemma run_draw_length (st : Display) (d : Draw) :
  length (_buffer (run_draw st d)) = length (_buffer st).
Proof. destruct d; [apply hline_length | apply vline_length]. Qed.

(** Whatever their arguments, the public line calls keep the geometry, the
    rotation and the size of the framebuffer, and never shrink the dirty
    window. *)
Theorem public_draws_keep_display (st : Display) (x y len color : Z) :
  (WIDTH (drawFastHLine st x y len color) = WIDTH st
   /\ HEIGHT (drawFastHLine st x y len color) = HEIGHT st
   /\ rotation (drawFastHLine st x y len color) = rotation st
   /\ length (_buffer (drawFastHLine st x y len color)) = length (_buffer st)
   /\ window_includes (window_of (drawFastHLine st x y len color))
        (window_of st))
  /\ (WIDTH (drawFastVLine st x y len color) = WIDTH st
      /\ HEIGHT (drawFastVLine st x y len color) = HEIGHT st
      /\ rotation (drawFastVLine st x y len color) = rotation st
      /\ length (_buffer (drawFastVLine st x y len color)) = length (_buffer st)
      /\ window_includes (window_of (drawFastVLine st x y len color))
           (window_of st)).
Proof.
  split.
  - destruct (drawFastHLine_run st x y len color) as (d & _ & Hrun).
    rewrite (Hrun st) by reflexivity.
    destruct (run_draw_frame st d) as (HW & HH & HR).
    repeat split; try assumption;
      [apply run_draw_length | apply run_draw_window_grows..].
  - destruct (drawFastVLine_run st x y len color) as (d & _ & Hrun).
    rewrite (Hrun st) by reflexivity.
    destruct (run_draw_frame st d) as (HW & HH & HR).
    repeat split; try assumption;
      [apply run_draw_length | apply run_draw_window_grows..].
Qed.

(** Under rotations 1 and 3 the XOR swap reads both coordinates modulo
    [2^32], into the signed 32-bit range: a call is the call on the coerced
    coordinates.  Under the other rotations nothing is coerced: a run that
    starts at or beyond the right edge is clipped away, [2^32] included,
    as long as the differences of the mapper are exact. *)
Theorem rotation_swap_coerces (st : Display) (x y len color : Z) :
  (rotation st = 1 \/ rotation st = 3 ->
     drawFastHLine st x y len color
       = drawFastHLine st (toInt32 x) (toInt32 y) len color
     /\ drawFastVLine st x y len color
       = drawFastVLine st (toInt32 x) (toInt32 y) len color)
  /\ (rotation st <> 1 -> rotation st <> 3 -> WIDTH st <= x ->
      safe_operand (WIDTH st) -> safe_operand x -> safe_operand len ->
      drawFastHLine st x y len color = st
      /\ drawFastVLine st x y len color = st).
Proof.
  split.
  - intros Hrot. unfold drawFastHLine, drawFastVLine.
    rewrite !xor_swap_toInt32, !(toInt32_id (toInt32 _))
      by apply toInt32_range.
    destruct Hrot as [-> | ->]; split; reflexivity.
  - intros H1 H3 Hx HW Hsx Hlen. unfold drawFastHLine, drawFastVLine.
    apply Z.eqb_neq in H1, H3. rewrite H1, H3.
    destruct (rotation st =? 2); exact_subs; split;
      first [apply hline_noop | apply vline_noop]; lia.
Qed.

(** * The further properties at concrete inputs *)

(** Rotation 1: the logical horizontal run from (3, 5) covers the logical
    pixel (4, 5), shown by the physical pixel (122, 4). *)
Lemma drawFastHLine_pixels_witness :
  buffer_ok (example_display 128 64 1) /\ valid_color SSD1315_WHITE
  /\ int32 3 /\ int32 5
  /\ safe_operand (WIDTH (example_display 128 64 1))
  /\ safe_operand (HEIGHT (example_display 128 64 1)) /\ safe_operand 10
  /\ getPixel (drawFastHLine (example_display 128 64 1) 3 5 10 SSD1315_WHITE)
       122 4 = true.
Proof.
  assert (Hok : buffer_ok (example_display 128 64 1)) by reflexivity.
  assert (Hc : valid_color SSD1315_WHITE) by (right; left; reflexivity).
  assert (Hx : int32 3) by (unfold int32; lia).
  assert (Hy : int32 5) by (unfold int32; lia).
  assert (HW : safe_operand (WIDTH (example_display 128 64 1)))
    by (unfold safe_operand; cbn; lia).
  assert (HH : safe_operand (HEIGHT (example_display 128 64 1)))
    by (unfold safe_operand; cbn; lia).
  assert (Hl : safe_operand 10) by (unfold safe_operand; cbn; lia).
  split; [exact Hok|]. split; [exact Hc|]. split; [exact Hx|].
  split; [exact Hy|]. split; [exact HW|]. split; [exact HH|].
  split; [exact Hl|].
  exact (drawFastHLine_pixels (example_display 128 64 1) 3 5 10 SSD1315_WHITE
           122 4 Hok Hc Hx Hy HW HH Hl ltac:(cbn; lia) ltac:(cbn; lia)).
Defined.

(** Rotation 3: the logical vertical run from (3, 5) covers the logical
    pixel (3, 7), shown by the physical pixel (7, 60). *)
Lemma drawFastVLine_pixels_witness :
  buffer_ok (example_display 128 64 3) /\ valid_color SSD1315_WHITE
  /\ int32 3 /\ int32 5
  /\ safe_operand (WIDTH (example_display 128 64 3))
  /\ safe_operand (HEIGHT (example_display 128 64 3)) /\ safe_operand 10
  /\ getPixel (drawFastVLine (example_display 128 64 3) 3 5 10 SSD1315_WHITE)
       7 60 = true.
Proof.
  assert (Hok : buffer_ok (example_display 128 64 3)) by reflexivity.
  assert (Hc : valid_color SSD1315_WHITE) by (right; left; reflexivity).
  assert (Hx : int32 3) by (unfold int32; lia).
  assert (Hy : int32 5) by (unfold int32; lia).
  assert (HW : safe_operand (WIDTH (example_display 128 64 3)))
    by (unfold safe_operand; cbn; lia).
  assert (HH : safe_operand (HEIGHT (example_display 128 64 3)))
    by (unfold safe_operand; cbn; lia).
  assert (Hl : safe_operand 10) by (unfold safe_operand; cbn; lia).
  split; [exact Hok|]. split; [exact Hc|]. split; [exact Hx|].
  split; [exact Hy|]. split; [exact HW|]. split; [exact HH|].
  split; [exact Hl|].
  exact (drawFastVLine_pixels (example_display 128 64 3) 3 5 10 SSD1315_WHITE
           7 60 Hok Hc Hx Hy HW HH Hl ltac:(cbn; lia) ltac:(cbn; lia)).
Defined.

Lemma draw_twice_same_witness :
  buffer_ok (example_display 128 64 0)
  /\ _buffer (run_draw (run_draw (example_display 128 64 0)
                          (VRun 3 2 29 SSD1315_WHITE))
                (VRun 3 2 29 SSD1315_WHITE))
     = _buffer (run_draw (example_display 128 64 0) (VRun 3 2 29 SSD1315_WHITE)).
Proof.
  assert (Hok : buffer_ok (example_display 128 64 0)) by reflexivity.
  split; [exact Hok|].
  exact (proj1 (draw_twice_same (example_display 128 64 0)
                  (VRun 3 2 29 SSD1315_WHITE) Hok (or_introl eq_refl))).
Defined.

(** A WHITE row and an INVERSE column that do not meet. *)
Lemma draws_commute_witness :
  buffer_ok (example_display 128 64 0)
  /\ _buffer (run_draw (run_draw (example_display 128 64 0)
                          (HRun 0 3 10 SSD1315_WHITE))
                (VRun 20 0 30 SSD1315_INVERSE))
     = _buffer (run_draw (run_draw (example_display 128 64 0)
                            (VRun 20 0 30 SSD1315_INVERSE))
                  (HRun 0 3 10 SSD1315_WHITE)).
Proof.
  assert (Hok : buffer_ok (example_display 128 64 0)) by reflexivity.
  split; [exact Hok|].
  refine (proj1 (draws_commute (example_display 128 64 0)
                   (HRun 0 3 10 SSD1315_WHITE) (VRun 20 0 30 SSD1315_INVERSE)
                   Hok (or_intror (or_introl eq_refl))
                   (or_intror (or_intror eq_refl)) _)).
  intros px py _ _ H1 H2. cbn [covers] in H1, H2.
  destruct (Z.eqb_spec py 3), (Z.leb_spec 0 px), (Z.ltb_spec px (0 + 10)),
    (Z.eqb_spec px 20); cbn [andb] in H1, H2; try discriminate; lia.
Defined.

Lemma run_in_two_pieces_witness :
  buffer_ok (example_display 128 64 0) /\ valid_color SSD1315_INVERSE
  /\ 0 <= 11 /\ 0 <= 18
  /\ _buffer (_drawFastVLineInternal
                (_drawFastVLineInternal (example_display 128 64 0) 3 2 11
                   SSD1315_INVERSE) 3 (2 + 11) 18 SSD1315_INVERSE)
     = _buffer (_drawFastVLineInternal (example_display 128 64 0) 3 2 (11 + 18)
                  SSD1315_INVERSE).
Proof.
  assert (Hok : buffer_ok (example_display 128 64 0)) by reflexivity.
  assert (Hc : valid_color SSD1315_INVERSE) by (right; right; reflexivity).
  split; [exact Hok|]. split; [exact Hc|]. split; [lia|]. split; [lia|].
  exact (proj1 (proj2 (run_in_two_pieces (example_display 128 64 0) 3 2 11 18
                         SSD1315_INVERSE Hok Hc ltac:(lia) ltac:(lia)))).
Defined.

(** After a row from column 2 to column 6 the byte of column 10 is the one
    from before. *)
Lemma dirty_window_covers_changes_witness :
  0 <= 10 < WIDTH (example_display 128 64 0)
  /\ ~ in_window_cells
         (window_of (foldl run_draw (example_display 128 64 0)
                       [HRun 2 3 5 SSD1315_WHITE])) 10 0
  /\ _buffer (foldl run_draw (example_display 128 64 0)
                [HRun 2 3 5 SSD1315_WHITE])
       !! Z.to_nat (byte_index (WIDTH (example_display 128 64 0)) 10 0)
     = _buffer (example_display 128 64 0)
         !! Z.to_nat (byte_index (WIDTH (example_display 128 64 0)) 10 0).
Proof.
  assert (Hx : 0 <= 10 < WIDTH (example_display 128 64 0)) by (cbn; lia).
  assert (Hout : ~ in_window_cells
                     (window_of (foldl run_draw (example_display 128 64 0)
                                   [HRun 2 3 5 SSD1315_WHITE])) 10 0).
  { vm_compute. intros [[_ H] _]. apply H. reflexivity. }
  split; [exact Hx|]. split; [exact Hout|].
  exact (dirty_window_covers_changes (example_display 128 64 0)
           [HRun 2 3 5 SSD1315_WHITE] 10 0 Hx ltac:(lia) Hout).
Defined.

Lemma dirty_window_stays_inside_witness :
  inverted_for 128 64 (window_of (example_display 128 64 0))
  /\ (window_of (foldl run_draw (example_display 128 64 0)
                   [HRun (-5) 3 10 SSD1315_WHITE; VRun 10 60 25 SSD1315_BLACK])
      = window_of (example_display 128 64 0)
      \/ inside 128 64
           (window_of (foldl run_draw (example_display 128 64 0)
                         [HRun (-5) 3 10 SSD1315_WHITE;
                          VRun 10 60 25 SSD1315_BLACK]))).
Proof.
  assert (Hinv : inverted_for 128 64 (window_of (example_display 128 64 0)))
    by (vm_compute; repeat split; discriminate).
  split; [exact Hinv|].
  exact (dirty_window_stays_inside (example_display 128 64 0)
           [HRun (-5) 3 10 SSD1315_WHITE; VRun 10 60 25 SSD1315_BLACK] Hinv).
Defined.

Lemma dirty_window_order_free_witness :
  [HRun 2 3 5 SSD1315_WHITE; VRun 10 1 20 SSD1315_BLACK]
    ≡ₚ [VRun 10 1 20 SSD1315_BLACK; HRun 2 3 5 SSD1315_WHITE]
  /\ window_of (foldl run_draw (example_display 128 64 0)
                  [HRun 2 3 5 SSD1315_WHITE; VRun 10 1 20 SSD1315_BLACK])
     = window_of (foldl run_draw (example_display 128 64 0)
                    [VRun 10 1 20 SSD1315_BLACK; HRun 2 3 5 SSD1315_WHITE]).
Proof.
  assert (Hperm : [HRun 2 3 5 SSD1315_WHITE; VRun 10 1 20 SSD1315_BLACK]
                    ≡ₚ [VRun 10 1 20 SSD1315_BLACK; HRun 2 3 5 SSD1315_WHITE])
    by apply perm_swap.
  split; [exact Hperm|].
  exact (dirty_window_order_free (example_display 128 64 0) _ _ Hperm).
Defined.

(** The flush that follows [stopscroll] on a 128x64 display. *)
Lemma display_full_window_witness :
  buffer_ok (example_stopped) /\ 0 < WIDTH example_stopped
  /\ 0 < HEIGHT example_stopped
  /\ window_of example_stopped
     = mkWindow 0 0 (WIDTH example_stopped - 1) (HEIGHT example_stopped - 1)
  /\ data_bytes (fst (@display example_base example_stopped))
     = _buffer example_stopped.
Proof.
  assert (Hok : buffer_ok example_stopped) by reflexivity.
  assert (HW : 0 < WIDTH example_stopped) by reflexivity.
  assert (HH : 0 < HEIGHT example_stopped) by reflexivity.
  assert (Hwin : window_of example_stopped
                 = mkWindow 0 0 (WIDTH example_stopped - 1)
                     (HEIGHT example_stopped - 1)) by reflexivity.
  split; [exact Hok|]. split; [exact HW|]. split; [exact HH|].
  split; [exact Hwin|].
  exact (proj2 (@display_full_window example_base example_stopped
                  Hok HW HH Hwin)).
Defined.

Lemma scroll_unknown_direction_witness :
  _startScrollInternal (example_display 128 64 0) "down" 0 15
  = startscrolldiagleft (example_display 128 64 0) 0 15.
Proof.
  apply (scroll_unknown_direction (example_display 128 64 0) "down" 0 15);
    discriminate.
Defined.

Lemma line_access_pattern_witness :
  valid_color SSD1315_WHITE
  /\ 0 <= 3 < WIDTH (example_display 128 64 0)
  /\ Z.max 2 0 < Z.min (2 + 29) (HEIGHT (example_display 128 64 0))
  /\ accessed (_drawFastVLineInternal (example_display 128 64 0) 3 2 29
                 SSD1315_WHITE)
     = [387; 259; 131; 3].
Proof.
  assert (Hc : valid_color SSD1315_WHITE) by (right; left; reflexivity).
  assert (Hx : 0 <= 3 < WIDTH (example_display 128 64 0)) by (cbn; lia).
  assert (Hlt : Z.max 2 0 < Z.min (2 + 29) (HEIGHT (example_display 128 64 0)))
    by (cbn; lia).
  split; [exact Hc|]. split; [exact Hx|]. split; [exact Hlt|].
  exact (proj1 (proj1 (line_access_pattern (example_display 128 64 0) 3 2 29
                         SSD1315_WHITE Hc) Hx Hlt)).
Defined.

(** Rotation 1 reads [2^32 + 3] as [3]; rotation 2 clips a run that starts
    at column [2^32]. *)
Lemma rotation_swap_coerces_witness :
  rotation (example_display 128 64 1) = 1
  /\ drawFastHLine (example_display 128 64 1) (2 ^ 32 + 3) 5 10 SSD1315_WHITE
     = drawFastHLine (example_display 128 64 1) 3 5 10 SSD1315_WHITE
  /\ rotation (example_display 128 64 2) <> 1
  /\ rotation (example_display 128 64 2) <> 3
  /\ WIDTH (example_display 128 64 2) <= 2 ^ 32
  /\ safe_operand (WIDTH (example_display 128 64 2))
  /\ safe_operand (2 ^ 32) /\ safe_operand 10
  /\ drawFastHLine (example_display 128 64 2) (2 ^ 32) 5 10 SSD1315_WHITE
     = example_display 128 64 2.
Proof.
  assert (H1 : rotation (example_display 128 64 2) <> 1) by discriminate.
  assert (H3 : rotation (example_display 128 64 2) <> 3) by discriminate.
  assert (Hx : WIDTH (example_display 128 64 2) <= 2 ^ 32) by (cbn; lia).
  assert (HW : safe_operand (WIDTH (example_display 128 64 2)))
    by (unfold safe_operand; cbn; lia).
  assert (Hsx : safe_operand (2 ^ 32)) by (unfold safe_operand; cbn; lia).
  assert (Hl : safe_operand 10) by (unfold safe_operand; cbn; lia).
  split; [reflexivity|]. split.
  - exact (proj1 (proj1 (rotation_swap_coerces (example_display 128 64 1)
                           (2 ^ 32 + 3) 5 10 SSD1315_WHITE)
                    (or_introl eq_refl))).
  - split; [exact H1|]. split; [exact H3|]. split; [exact Hx|].
    split; [exact HW|]. split; [exact Hsx|]. split; [exact Hl|].
    exact (proj1 (proj2 (rotation_swap_coerces (example_display 128 64 2)
                           (2 ^ 32) 5 10 SSD1315_WHITE)
                    H1 H3 Hx HW Hsx Hl)).
Defined.

